(** * GUNZscope: NFT acquisition-cost reconciliation

    A shallow embedding of the reconciliation core of the wallet viewer:
    the position label ([getPositionLabel], [calculateDataQuality]) of the
    NFT detail modal, the purchase-record normaliser ([toIsoString]) of the
    marketplace client, the merge/dedupe filter and the time-window matcher
    of [loadItemDetails], and the transfer-history resolver
    ([getNFTTransferHistory]) of the Avalanche service.

    JavaScript numbers are IEEE-754 binary64 values: they are modelled by the
    primitive floats of the standard library, whose operations round exactly
    as the JavaScript ones do.  Time values (milliseconds since the epoch,
    always integers once inside a [Date]) are modelled in [Z], and an ISO
    date string produced by [toISOString] by the time value it spells. *)

From stdpp Require Import gmap strings list pretty sorting.
From Stdlib Require Import ZArith Lia Floats Ascii String.

Set Warnings "-inexact-float".
Local Open Scope Z_scope.

(** ** JavaScript numbers *)

Module JsNumber.

(** [isNaN(x)] on a number. *)
Definition isNaN (x : float) : bool := PrimFloat.is_nan x.

(** [a >= b] on numbers: false as soon as one side is NaN. *)
Definition geb (a b : float) : bool := (b <=? a)%float.

(** [a > b] on numbers. *)
Definition gtb (a b : float) : bool := (b <? a)%float.

(** [Math.abs]. *)
Definition Math_abs (x : float) : float := PrimFloat.abs x.

(** [Math.max] of two numbers: NaN when either is NaN, and [+0] is larger
    than [-0]. *)
Definition Math_max (a b : float) : float :=
  if PrimFloat.is_nan a || PrimFloat.is_nan b then PrimFloat.nan
  else if (a <? b)%float then b
  else if (b <? a)%float then a
  else if PrimFloat.get_sign a then b else a.

(** *** Number to string

    [Number::toString] in radix 10, as a template literal applies it: the
    shortest decimal [s * 10^p] that reads back as the same binary64 value
    (the closest one when several are as short), printed in plain or in
    exponent notation. *)

(** Decimal digits of a non-negative integer. *)
Definition digitsOf (s : Z) : string := pretty (Z.to_N s).

Definition numDigits (s : Z) : Z := Z.of_nat (String.length (digitsOf s)).

Definition zeros (n : Z) : string :=
  String.concat "" (replicate (Z.to_nat n) "0"%string).

(** [2^E] and [10^p] as a fraction [N / D] of integers: a value [V * 2^E]
    is [s * 10^p] exactly when [V * N = s * D]. *)
Definition scaleOf (E p : Z) : Z * Z :=
  (2 ^ Z.max E 0 * 10 ^ Z.max (- p) 0, 2 ^ Z.max (- E) 0 * 10 ^ Z.max p 0).

(** The integers [s] with [Lo * N <= s * D <= Hi * N]; the bounds are
    excluded when the mantissa is odd (a tie rounds to the even neighbour). *)
Definition candidateRange (even : bool) (Lo Hi N D : Z) : Z * Z :=
  let smin := if even then (Lo * N + D - 1) / D else (Lo * N) / D + 1 in
  let smax := if even then (Hi * N) / D else (Hi * N + D - 1) / D - 1 in
  (smin, smax).

(** The integer of [smin .. smax] closest to [V * N / D]. *)
Definition closestIn (V N D smin smax : Z) : Z :=
  let r := (2 * V * N + D) / (2 * D) in
  Z.max smin (Z.min smax r).

(** The largest power of ten [p], from [p] downwards, at which some
    [s * 10^p] rounds to the value. *)
Fixpoint searchPower (fuel : nat) (even : bool) (V Lo Hi E p : Z) : option (Z * Z) :=
  match fuel with
  | O => None
  | S fuel =>
      let '(N, D) := scaleOf E p in
      let '(smin, smax) := candidateRange even Lo Hi N D in
      if Z.max smin 1 <=? smax then Some (closestIn V N D (Z.max smin 1) smax, p)
      else searchPower fuel even V Lo Hi E (p - 1)
  end.

(** The shortest digits [s] and power [p] of the positive value [m * 2^e].
    In units of [2^(e-2)] the value is [4m] and it is the rounding of
    everything between [Lo] and [Hi], the midpoints to its neighbours. *)
Definition shortestDecimal (m : positive) (e : Z) : Z * Z :=
  let V := 4 * Z.pos m in
  let Lo := if (Z.pos m =? 2 ^ 52) && (-1074 <? e) then V - 1 else V - 2 in
  let Hi := V + 2 in
  let even := Z.even (Z.pos m) in
  let E := e - 2 in
  (* the value is below 2^(e + 53): a power of ten above it starts the search *)
  let start := ((e + 53) * 30103) / 100000 + 2 in
  match searchPower 48 even V Lo Hi E start with
  | None => (0, 0)
  | Some (s, p) =>
      let k := numDigits s in
      (* as many digits one power lower: the closer of the two is printed *)
      let '(N', D') := scaleOf E (p - 1) in
      let '(smin', smax') := candidateRange even Lo Hi N' D' in
      let smax' := Z.min smax' (10 ^ k - 1) in
      if Z.max smin' 1 <=? smax' then
        let s' := closestIn V N' D' (Z.max smin' 1) smax' in
        if Z.abs (s' * D' - V * N') <? Z.abs (10 * s * D' - V * N')
        then (s', p - 1) else (s, p)
      else (s, p)
  end.

Definition formatDecimal (s p : Z) : string :=
  let digits := digitsOf s in
  let k := numDigits s in
  let n := k + p in
  if (k <=? n) && (n <=? 21) then digits +:+ zeros (n - k)
  else if (0 <? n) && (n <=? 21) then
    String.substring 0 (Z.to_nat n) digits +:+ "." +:+
    String.substring (Z.to_nat n) (Z.to_nat (k - n)) digits
  else if (-6 <? n) && (n <=? 0) then "0." +:+ zeros (- n) +:+ digits
  else
    let ex := n - 1 in
    let exps := (if ex <? 0 then "-" else "+") +:+ digitsOf (Z.abs ex) in
    if k =? 1 then digits +:+ "e" +:+ exps
    else String.substring 0 1 digits +:+ "." +:+
         String.substring 1 (Z.to_nat (k - 1)) digits +:+ "e" +:+ exps.

Definition numberToString (x : float) : string :=
  match Prim2SF x with
  | S754_nan => "NaN"
  | S754_zero _ => "0"
  | S754_infinity s => if s then "-Infinity" else "Infinity"
  | S754_finite sgn m e =>
      let '(s, p) := shortestDecimal m e in
      (if sgn then "-" else "") +:+ formatDecimal s p
  end.

(** The string of an integral number below [10^21] in size, such as a
    time value: its decimal digits. *)
Definition integerToString (n : Z) : string := pretty n.

(** *** Number to time value

    [TimeClip] of the argument of [new Date(number)]: no time value (an
    Invalid Date) for NaN, an infinity or more than 8.64e15 ms from the
    epoch, else the number truncated to an integer. *)
Definition MAX_TIME_VALUE : Z := 8640000000000000.

Definition TimeClip (x : float) : option Z :=
  match Prim2SF x with
  | S754_nan | S754_infinity _ => None
  | S754_zero _ => Some 0
  | S754_finite sgn m e =>
      let exceeds :=
        if 0 <=? e then MAX_TIME_VALUE <? Z.pos m * 2 ^ e
        else MAX_TIME_VALUE * 2 ^ (- e) <? Z.pos m in
      let t := if 0 <=? e then Z.pos m * 2 ^ e else Z.pos m / 2 ^ (- e) in
      if exceeds then None else Some (if sgn then - t else t)
  end.

End JsNumber.

(** ** JavaScript strings *)

Module JsString.

Definition lowerAscii (c : ascii) : ascii :=
  let n := N_of_ascii c in
  if ((65 <=? n) && (n <=? 90))%N then ascii_of_N (n + 32) else c.

(** [s.toLowerCase()], on the ASCII letters addresses and token keys are
    made of. *)
Fixpoint toLowerCase (s : string) : string :=
  match s with
  | EmptyString => EmptyString
  | String c rest => String (lowerAscii c) (toLowerCase rest)
  end.

(** [s.slice(n)] for [n >= 0]: the string without its first [n] characters. *)
Fixpoint slice (n : nat) (s : string) : string :=
  match n, s with
  | O, _ => s
  | S n, String _ rest => slice n rest
  | S _, EmptyString => EmptyString
  end.

(** Truthiness of a string: only the empty string is falsy. *)
Definition truthy (s : string) : bool := negb (String.eqb s "").

End JsString.

(** ** The position label of the detail modal ([getPositionLabel]) *)

Module Position.
Import JsNumber.

(** A value of type [number | null | undefined]. *)
Inductive Nullable (A : Type) : Type :=
| JsNull
| JsUndefined
| JsVal (a : A).
Arguments JsNull {A}.
Arguments JsUndefined {A}.
Arguments JsVal {A} a.

(** [v !== null] and [v !== undefined]. *)
Definition notNull {A} (v : Nullable A) : bool :=
  match v with JsNull => false | _ => true end.
Definition notUndefined {A} (v : Nullable A) : bool :=
  match v with JsUndefined => false | _ => true end.

(** The number an arithmetic operator or [isNaN] reads from such a value:
    [null] is [0], [undefined] is NaN. *)
Definition ToNumber (v : Nullable float) : float :=
  match v with
  | JsNull => 0%float
  | JsUndefined => PrimFloat.nan
  | JsVal x => x
  end.

Inductive DataQualityLevel : Set := strong | fair | limited.

Inductive PositionState : Set := UP | DOWN | FLAT | NO_COST_BASIS | NO_MARKET_REF.

Record PositionLabelResult : Set := {
  state : PositionState;
  pnlPct : option float;
  pnlGun : option float;
  marketRefGun : option float;
  dataQuality : option DataQualityLevel
}.

Record GetPositionLabelInput : Set := {
  acquisitionPriceGun : Nullable float;
  priceLow : Nullable float;
  priceHigh : Nullable float
}.

(** The validation of the acquisition price, [hasValidAcquisition]. *)
Definition validAcquisition (acquisitionPriceGun : Nullable float) : bool :=
  notNull acquisitionPriceGun &&
  notUndefined acquisitionPriceGun &&
  negb (isNaN (ToNumber acquisitionPriceGun)) &&
  geb (ToNumber acquisitionPriceGun) 0.000001.

(** The test behind [hasLow] and [hasHigh]. *)
Definition hasBound (price : Nullable float) : bool :=
  notNull price &&
  notUndefined price &&
  negb (isNaN (ToNumber price)) &&
  geb (ToNumber price) 0.

Definition getPositionLabel (input : GetPositionLabelInput) : PositionLabelResult :=
  let acquisitionPriceGun := acquisitionPriceGun input in
  let priceLow := priceLow input in
  let priceHigh := priceHigh input in
  let epsilon := 1e-9%float in
  let hasValidAcquisition := validAcquisition acquisitionPriceGun in
  (* market reference: midpoint or single bound *)
  let hasLow := hasBound priceLow in
  let hasHigh := hasBound priceHigh in
  let marketRefGun :=
    if hasLow && hasHigh then Some ((ToNumber priceLow + ToNumber priceHigh) / 2)%float
    else if hasLow then Some (ToNumber priceLow)
    else if hasHigh then Some (ToNumber priceHigh)
    else None in
  (* data quality: only if both bounds exist *)
  let dataQuality :=
    if hasLow && hasHigh then
      let spreadRatio :=
        ((ToNumber priceHigh - ToNumber priceLow) / Math_max (ToNumber priceLow) epsilon)%float in
      if (spreadRatio <=? 0.25)%float then Some strong
      else if (spreadRatio <=? 0.60)%float then Some fair
      else Some limited
    else None in
  match marketRefGun with
  | None =>
      {| state := NO_MARKET_REF; pnlPct := None; pnlGun := None;
         marketRefGun := None; dataQuality := None |}
  | Some marketRef =>
      if negb hasValidAcquisition then
        {| state := NO_COST_BASIS; pnlPct := None; pnlGun := None;
           marketRefGun := Some marketRef; dataQuality := dataQuality |}
      else
        let pnlGun := (marketRef - ToNumber acquisitionPriceGun)%float in
        let pnlPct := (pnlGun / Math_max (ToNumber acquisitionPriceGun) epsilon)%float in
        (* position state with the 3% deadband *)
        let state :=
          if (Math_abs pnlPct <? 0.03)%float then FLAT
          else if geb pnlPct 0.03 then UP
          else DOWN in
        {| state := state; pnlPct := Some pnlPct; pnlGun := Some pnlGun;
           marketRefGun := Some marketRef; dataQuality := dataQuality |}
  end.

(** The second data-quality helper of the modal, [calculateDataQuality]:
    its arguments are [number | undefined], its epsilon is [0.0001]. *)
Definition calculateDataQuality (priceLow priceHigh : option float)
  : option DataQualityLevel :=
  match priceLow, priceHigh with
  | Some priceLow, Some priceHigh =>
      let epsilon := 0.0001%float in
      let spreadRatio := ((priceHigh - priceLow) / Math_max priceLow epsilon)%float in
      if (spreadRatio <=? 0.25)%float then Some strong
      else if (spreadRatio <=? 0.60)%float then Some fair
      else Some limited
  | _, _ => None
  end.

End Position.

(** ** The marketplace client ([lib/api/marketplace.ts], [lib/types.ts]) *)

Module Marketplace.
Import JsNumber.

(** A purchase record of the game marketplace.  [purchaseDateIso] is the
    ISO string [toIsoString] returns, which is always [toISOString()] of a
    valid date: the field holds the time value, in milliseconds, that the
    string spells and that [new Date(purchaseDateIso).getTime()] reads back. *)
Record MarketplacePurchase : Set := {
  purchaseId : string;
  tokenKey : string;
  buyerAddress : string;
  priceGun : float;
  priceUsd : option float;
  purchaseDateIso : Z;
  txHash : option string;
  orderId : option string
}.

(** The values [toIsoString] tells apart.  A [Date] carries its time value
    ([None] for an Invalid Date); any other object carries its [seconds]
    property when it has one, a number as the cast in the source states. *)
Inductive JsValue : Set :=
| VUndefined
| VNull
| VBoolean (b : bool)
| VNumber (x : float)
| VBigInt (n : Z)
| VString (s : string)
| VDate (timeValue : option Z)
| VObject (seconds : option float)
| VSymbolOrFunction.

(** Truthiness, as [!value] and [a || b] read it. *)
Definition truthy (v : JsValue) : bool :=
  match v with
  | VUndefined | VNull => false
  | VBoolean b => b
  | VNumber x => negb (isNaN x || (x =? 0)%float)
  | VBigInt n => negb (n =? 0)
  | VString s => JsString.truthy s
  | VDate _ | VObject _ | VSymbolOrFunction => true
  end.

(** [a || b]. *)
Definition or (a b : JsValue) : JsValue := if truthy a then a else b.

Section Clock.

(** [new Date(s).getTime()] for a string [s]: the time value the engine
    parses from it, [None] when the date is invalid. *)
Variable Date_parse : string -> option Z.

(** The time value of [new Date()] when the function runs. *)
Variable now : Z.

(** [isNaN(d.getTime()) ? new Date().toISOString() : d.toISOString()]. *)
Definition isoOrNow (timeValue : option Z) : Z :=
  match timeValue with
  | None => now
  | Some t => t
  end.

(** [toIsoString(value)]. *)
Definition toIsoString (value : JsValue) : Z :=
  if negb (truthy value) then now
  else
    match value with
    | VString s => isoOrNow (Date_parse s)
    | VDate timeValue => isoOrNow timeValue
    | VNumber x =>
        (* milliseconds if above 10 billion, otherwise seconds *)
        let ms := if gtb x 10000000000 then x else (x * 1000)%float in
        isoOrNow (TimeClip ms)
    | VObject (Some seconds) => isoOrNow (TimeClip (seconds * 1000)%float)
    | _ => now
    end.

(** The timestamp fields of a purchase as the API returns it; a missing
    property reads as [VUndefined]. *)
Record ApiPurchaseDates : Set := {
  purchaseDate : JsValue;
  timestamp : JsValue;
  createdAt : JsValue
}.

(** [purchaseDateIso: toIsoString(p.purchaseDate || p.timestamp || p.createdAt)],
    as both [getPurchasesForToken] and [getPurchasesForWallet] fill it. *)
Definition purchaseDateIsoOf (p : ApiPurchaseDates) : Z :=
  toIsoString (or (or (purchaseDate p) (timestamp p)) (createdAt p)).

End Clock.

End Marketplace.

(** ** Merge, dedupe and match ([loadItemDetails], step 3) *)

Module Reconcile.
Import Marketplace.

(** The marketplace queries of the dual retrieval strategy. *)
Record MarketplaceService : Type := {
  getPurchasesForToken : string -> list MarketplacePurchase;
  (* wallet, fromDate, toDate (time values), limit *)
  getPurchasesForWallet : string -> Z -> Z -> Z -> list MarketplacePurchase
}.

Definition DAY_MS : Z := 24 * 60 * 60 * 1000.

(** Strategies A, B and C, the wallet results filtered to the token, and
    the three sets combined. *)
Definition allPurchases (service : MarketplaceService)
    (tokenKey viewerWalletLower currentOwnerLower : string) (acquiredAt : Z)
  : list MarketplacePurchase :=
  let tokenPurchases := getPurchasesForToken service tokenKey in
  let viewerWalletPurchases :=
    if JsString.truthy viewerWalletLower
    then getPurchasesForWallet service viewerWalletLower
           (acquiredAt - DAY_MS) (acquiredAt + DAY_MS) 100
    else [] in
  let currentOwnerPurchases :=
    if JsString.truthy currentOwnerLower
       && negb (String.eqb currentOwnerLower viewerWalletLower)
    then getPurchasesForWallet service currentOwnerLower
           (acquiredAt - DAY_MS) (acquiredAt + DAY_MS) 100
    else [] in
  let matchesToken (p : MarketplacePurchase) :=
    String.eqb (JsString.toLowerCase (Marketplace.tokenKey p))
               (JsString.toLowerCase tokenKey) in
  tokenPurchases
    ++ List.filter matchesToken viewerWalletPurchases
    ++ List.filter matchesToken currentOwnerPurchases.

(** *** Dedupe *)

(** The template literal
    [`${p.tokenKey}:${new Date(p.purchaseDateIso).getTime()}:${p.priceGun}`]. *)
Definition compositeKey (p : MarketplacePurchase) : string :=
  tokenKey p +:+ ":" +:+ JsNumber.integerToString (purchaseDateIso p)
    +:+ ":" +:+ JsNumber.numberToString (priceGun p).

(** [Boolean] on a [string | undefined]. *)
Definition Boolean (key : option string) : bool :=
  match key with
  | Some s => JsString.truthy s
  | None => false
  end.

(** The keys of a purchase: [[purchaseId, txHash, orderId, composite].filter(Boolean)]. *)
Definition dedupeKeys (p : MarketplacePurchase) : list string :=
  omap id (List.filter Boolean
             [Some (purchaseId p); txHash p; orderId p; Some (compositeKey p)]).

(** Some key is in the set already ([key && seen.has(key)]). *)
Definition alreadySeen (seen : gset string) (keys : list string) : bool :=
  existsb (fun key => JsString.truthy key && bool_decide (key ∈ seen)) keys.

(** [keys.forEach(key => key && seen.add(key))]. *)
Definition addKeys (seen : gset string) (keys : list string) : gset string :=
  foldl (fun seen key => if JsString.truthy key then {[key]} ∪ seen else seen)
        seen keys.

(** The callback of the filter: what it returns and the set it leaves. *)
Definition keepPurchase (seen : gset string) (p : MarketplacePurchase)
  : bool * gset string :=
  let keys := dedupeKeys p in
  if alreadySeen seen keys then (false, seen) else (true, addKeys seen keys).

(** [allPurchases.filter(callback)], the set threaded through the calls. *)
Fixpoint filterUnseen (seen : gset string) (purchases : list MarketplacePurchase)
  : list MarketplacePurchase :=
  match purchases with
  | [] => []
  | p :: rest =>
      let '(keep, seen') := keepPurchase seen p in
      if keep then p :: filterUnseen seen' rest else filterUnseen seen' rest
  end.

(** What the callback returned for each element, in order. *)
Fixpoint keptFlags (seen : gset string) (purchases : list MarketplacePurchase)
  : list bool :=
  match purchases with
  | [] => []
  | p :: rest =>
      let '(keep, seen') := keepPurchase seen p in
      keep :: keptFlags seen' rest
  end.

Definition dedupePurchases (allPurchases : list MarketplacePurchase)
  : list MarketplacePurchase :=
  filterUnseen ∅ allPurchases.

(** *** Match *)

Inductive MarketplaceMatchMethod : Set :=
| matchTxHash      (* 'txHash' *)
| matchTimeWindow  (* 'timeWindow' *)
| matchNone.       (* 'none' *)

Record MatchResult : Set := {
  matchedPurchase : option MarketplacePurchase;
  marketplaceMatchMethod : MarketplaceMatchMethod
}.

Definition TIME_WINDOW_MS : Z := 10 * 60 * 1000.

(** [Math.abs(new Date(p.purchaseDateIso).getTime() - acquiredAt.getTime())]. *)
Definition timeDiff (acquiredAt : Z) (p : MarketplacePurchase) : Z :=
  Z.abs (purchaseDateIso p - acquiredAt).

Definition inTimeWindow (acquiredAt : Z) (p : MarketplacePurchase) : bool :=
  timeDiff acquiredAt p <=? TIME_WINDOW_MS.

(** The buyer is the viewer's wallet or the current owner. *)
Definition identityMatch (viewerWalletLower currentOwnerLower : string)
    (p : MarketplacePurchase) : bool :=
  let buyerLower := JsString.toLowerCase (buyerAddress p) in
  String.eqb buyerLower viewerWalletLower
  || String.eqb buyerLower currentOwnerLower.

(** The reducer: [pDiff < closestDiff ? p : closest]. *)
Definition closer (acquiredAt : Z) (closest p : MarketplacePurchase)
  : MarketplacePurchase :=
  if timeDiff acquiredAt p <? timeDiff acquiredAt closest then p else closest.

(** [first :: rest] reduced with [closer], without an initial value. *)
Definition reduceClosest (acquiredAt : Z) (first : MarketplacePurchase)
    (rest : list MarketplacePurchase) : MarketplacePurchase :=
  fold_left (closer acquiredAt) rest first.

(** The matching algorithm.  Priority 1 (exact transaction hash) is a
    comment in the source: [matchedPurchase] is still null when priority 2
    starts, and the acquisition's transaction hash is no input. *)
Definition matchPurchase (viewerWalletLower currentOwnerLower : string)
    (acquiredAt : Z) (dedupedPurchases : list MarketplacePurchase) : MatchResult :=
  let noMatch := {| matchedPurchase := None; marketplaceMatchMethod := matchNone |} in
  if (0 <? List.length dedupedPurchases)%nat then
    let candidatesInWindow := List.filter (inTimeWindow acquiredAt) dedupedPurchases in
    match candidatesInWindow with
    | [] => noMatch
    | [single] =>
        {| matchedPurchase := Some single; marketplaceMatchMethod := matchTimeWindow |}
    | first :: rest =>
        let identityMatches :=
          List.filter (identityMatch viewerWalletLower currentOwnerLower)
                      candidatesInWindow in
        match identityMatches with
        | firstMatch :: otherMatches =>
            {| matchedPurchase := Some (reduceClosest acquiredAt firstMatch otherMatches);
               marketplaceMatchMethod := matchTimeWindow |}
        | [] =>
            {| matchedPurchase := Some (reduceClosest acquiredAt first rest);
               marketplaceMatchMethod := matchTimeWindow |}
        end
    end
  else noMatch.

(** Step 3 as a whole, once the marketplace is configured: it runs only
    with transfer data and an acquisition date.  [currentOwner] is the owner
    the transfer history reports, if any. *)
Definition matchMarketplace (service : MarketplaceService)
    (tokenKey walletAddress : string) (currentOwner : option string)
    (hasTransferData : bool) (acquiredAt : option Z) : MatchResult :=
  let viewerWalletLower := JsString.toLowerCase walletAddress in
  let currentOwnerLower := default ""%string (JsString.toLowerCase <$> currentOwner) in
  match hasTransferData, acquiredAt with
  | true, Some acquiredAt =>
      matchPurchase viewerWalletLower currentOwnerLower acquiredAt
        (dedupePurchases
           (allPurchases service tokenKey viewerWalletLower currentOwnerLower acquiredAt))
  | _, _ => {| matchedPurchase := None; marketplaceMatchMethod := matchNone |}
  end.

End Reconcile.

(** ** The transfer-history resolver ([lib/blockchain/avalanche.ts]) *)

Module Avalanche.

(** The answer of an RPC call: a value, or a rejected promise. *)
Inductive Rpc (A : Type) : Type :=
| Returned (a : A)
| Rejected.
Arguments Returned {A} a.
Arguments Rejected {A}.

#[export] Instance rpc_ret : MRet Rpc := fun A a => Returned a.

#[export] Instance rpc_bind : MBind Rpc := fun A B k r =>
  match r with
  | Returned a => k a
  | Rejected => Rejected
  end.

(** [try { ... } catch { return null }]. *)
Definition catchNull {A} (r : Rpc (option A)) : option A :=
  match r with
  | Returned a => a
  | Rejected => None
  end.

(** A Transfer log of the token: its three indexed topics after the
    signature, and where it sits in the chain. *)
Record Log : Set := {
  topicFrom : string;      (* topics[1] *)
  topicTo : string;        (* topics[2] *)
  topicTokenId : Z;        (* BigInt(topics[3]) *)
  log_blockNumber : Z;
  log_index : Z;
  log_transactionHash : string
}.

Record TransferEvent : Set := {
  from : string;
  to : string;
  tokenId : Z;
  blockNumber : Z;
  logIndex : Z;
  transactionHash : string
}.

(** A log of a transaction receipt: its topics, the emitting contract and
    the amount [parseFloat(ethers.formatUnits(BigInt(log.data), 18))]. *)
Record ReceiptLog : Set := {
  topics : list string;
  address : string;
  amount : float
}.

Record Block : Set := { timestamp : Z }.

(** A transaction: its value in wei and [parseFloat(ethers.formatEther(value))]. *)
Record Transaction : Set := { value : Z; valueEther : float }.

(** The chain as the service sees it.  [transferLogs] is what the chunked
    log queries collected for the token, in the order they returned it. *)
Record Provider : Type := {
  transferLogs : Rpc (list Log);
  getBlock : Z -> Rpc (option Block);
  getTransactionReceipt : string -> Rpc (option (list ReceiptLog));
  getTransaction : string -> Rpc (option Transaction)
}.

(** The comparator of [allLogs.sort]: by block number, then log index. *)
Definition compareLogs (a b : Log) : Z :=
  if negb (log_blockNumber a =? log_blockNumber b)
  then log_blockNumber a - log_blockNumber b
  else log_index a - log_index b.

(** [Array.prototype.sort] is stable: an insertion sort that puts an
    element before the first one it does not come after. *)
Fixpoint insertLog (x : Log) (sorted : list Log) : list Log :=
  match sorted with
  | [] => [x]
  | y :: rest =>
      if compareLogs x y <=? 0 then x :: y :: rest else y :: insertLog x rest
  end.

Fixpoint sortLogs (logs : list Log) : list Log :=
  match logs with
  | [] => []
  | x :: rest => insertLog x (sortLogs rest)
  end.

(** ['0x' + topic.slice(26).toLowerCase()]. *)
Definition addressOfTopic (topic : string) : string :=
  "0x" +:+ JsString.toLowerCase (JsString.slice 26 topic).

Definition parseLog (log : Log) : TransferEvent :=
  {| from := addressOfTopic (topicFrom log);
     to := addressOfTopic (topicTo log);
     tokenId := topicTokenId log;
     blockNumber := log_blockNumber log;
     logIndex := log_index log;
     transactionHash := log_transactionHash log |}.

Record DebugInfo : Set := {
  totalLogsFound : Z;
  currentOwner : option string
}.

(** [getTransferEvents]: the logs sorted and parsed, the current owner (the
    receiver of the last transfer) and the number of logs found. *)
Definition getTransferEvents (provider : Provider)
  : Rpc (list TransferEvent * DebugInfo) :=
  allLogs ← transferLogs provider;
  let logs := sortLogs allLogs in
  let events := map parseLog logs in
  let currentOwner := to <$> last events in
  Returned (events, {| totalLogsFound := Z.of_nat (List.length logs);
                       currentOwner := currentOwner |}).

Record TransferHistory : Set := {
  purchasePriceGun : float;
  purchaseDate : option Z;
  transferredFrom : option string;
  isFreeTransfer : bool;
  debugInfo : DebugInfo
}.

Definition ZERO_ADDRESS : string := "0x0000000000000000000000000000000000000000".

(** [ethers.id('Transfer(address,address,uint256)')]. *)
Definition erc20TransferSignature : string :=
  "0xddf252ad1be2c89b69c2b068fc378daa952ba7f163c4a11628f55a4df523b3ef".

(** One turn of the loop over the receipt's logs: an ERC-20 transfer out of
    the wallet sets the price when it is in GUN, or when no price is set yet. *)
Definition scanReceiptLog (walletLower : string) (gunTokenAddress : option string)
    (purchasePriceGun : option float) (log : ReceiptLog) : option float :=
  if bool_decide (topics log !! 0%nat = Some erc20TransferSignature)
     && (List.length (topics log) =? 3)%nat then
    let fromAddress := addressOfTopic (default ""%string (topics log !! 1%nat)) in
    if String.eqb fromAddress walletLower then
      if match gunTokenAddress with
         | Some gun => JsString.truthy gun
                       && String.eqb (JsString.toLowerCase (address log)) gun
         | None => false
         end
      then Some (amount log)
      else match purchasePriceGun with
           | None => Some (amount log)
           | Some _ => purchasePriceGun
           end
    else purchasePriceGun
  else purchasePriceGun.

(** [getNFTTransferHistory(contractAddress, tokenId, walletAddress)];
    [gunTokenAddress] is the lower-cased environment setting. *)
Definition getNFTTransferHistory (provider : Provider)
    (gunTokenAddress : option string) (walletAddress : string)
  : option TransferHistory :=
  catchNull (
    '(events, debugInfo) ← getTransferEvents provider;
    let noTransfer :=
      {| purchasePriceGun := 0; purchaseDate := None; transferredFrom := None;
         isFreeTransfer := true; debugInfo := debugInfo |} in
    if (List.length events =? 0)%nat then Returned (Some noTransfer)
    else
      (* transfers where this wallet received the token *)
      let walletLower := JsString.toLowerCase walletAddress in
      let incomingTransfers :=
        List.filter (fun e => String.eqb (to e) walletLower) events in
      match incomingTransfers with
      | [] => Returned (Some noTransfer)
      | firstIncoming :: _ =>
          (* the first transfer to this wallet: the original acquisition *)
          let isFromZeroAddress := String.eqb (from firstIncoming) ZERO_ADDRESS in
          block ← getBlock provider (blockNumber firstIncoming);
          txReceipt ← getTransactionReceipt provider (transactionHash firstIncoming);
          transaction ← getTransaction provider (transactionHash firstIncoming);
          let fromReceipt :=
            match txReceipt with
            | Some logs => fold_left (scanReceiptLog walletLower gunTokenAddress) logs None
            | None => None
            end in
          let purchasePriceGun :=
            match fromReceipt, transaction with
            | None, Some tx => if 0 <? value tx then Some (valueEther tx) else None
            | _, _ => fromReceipt
            end in
          let isFreeTransfer :=
            match purchasePriceGun with
            | None => true
            | Some price => (price =? 0)%float
            end in
          Returned (Some
            {| purchasePriceGun := default 0%float purchasePriceGun;
               purchaseDate := (fun b => timestamp b * 1000) <$> block;
               transferredFrom :=
                 if isFreeTransfer && negb isFromZeroAddress
                 then Some (from firstIncoming) else None;
               isFreeTransfer := isFreeTransfer;
               debugInfo := debugInfo |})
      end).

(** *** What [loadItemDetails] derives from the transfer history *)

Inductive AcquisitionType : Set := MINT | TRANSFER | UNKNOWN.

Record TransferDerived : Set := {
  hasTransferData : bool;
  acquiredAt : option Z;
  fromAddress : option string;
  acquisitionType : AcquisitionType
}.

Definition deriveAcquisition (transferHistory : option TransferHistory)
  : TransferDerived :=
  let totalLogsFound :=
    default 0 (totalLogsFound <$> (debugInfo <$> transferHistory)) in
  let hasTransferData :=
    match transferHistory with Some _ => 0 <? totalLogsFound | None => false end in
  let acquiredAt := transferHistory ≫= purchaseDate in
  let fromAddress := transferHistory ≫= transferredFrom in
  let isFromZeroAddress :=
    match fromAddress with
    | Some a => String.eqb a ZERO_ADDRESS
    | None => false
    end in
  let acquisitionType :=
    if isFromZeroAddress then MINT
    else if hasTransferData then TRANSFER else UNKNOWN in
  {| hasTransferData := hasTransferData;
     acquiredAt := acquiredAt;
     fromAddress := fromAddress;
     acquisitionType := acquisitionType |}.

End Avalanche.

(** ** Log queries and pagination of the Avalanche service *)

Module AvalancheQuery.
Import Avalanche.

(** Deployment start blocks of known contracts, keyed by
    [`${chainId}:${contractAddress.toLowerCase()}`]. *)
Definition DEPLOYMENT_START_BLOCKS : gmap string Z :=
  {[ "43419:0x9ed98e159be43a8d42b64053831fcae5e4d7d271"%string := 1000000 ]}.

(** About six months of blocks at two seconds a block. *)
Definition DEFAULT_LOOKBACK_BLOCKS : Z := (6 * 30 * 24 * 60 * 60) / 2.

(** [getQueryStartBlock(chainId, contractAddress, currentBlock)]. *)
Definition getQueryStartBlock (chainId : Z) (contractAddress : string)
    (currentBlock : Z) : Z :=
  let key := JsNumber.integerToString chainId +:+ ":"
             +:+ JsString.toLowerCase contractAddress in
  match DEPLOYMENT_START_BLOCKS !! key with
  | Some deploymentBlock => deploymentBlock
  | None => Z.max 0 (currentBlock - DEFAULT_LOOKBACK_BLOCKS)
  end.

(** One entry of [blockRanges]; [logsFound] is [-1] for a range whose
    query failed for good. *)
Record BlockRange : Set := {
  range_from : Z;
  range_to : Z;
  logsFound : Z
}.

Record ChunkedLogs : Set := {
  logs : list Log;
  chunksQueried : Z;
  blockRanges : list BlockRange
}.

(** The values [start] takes in
    [for (start = fromBlock; start <= toBlock; start += chunkSize)], for a
    positive [chunkSize]. *)
Fixpoint chunkStartsFrom (count : nat) (start chunkSize : Z) : list Z :=
  match count with
  | O => []
  | S count => start :: chunkStartsFrom count (start + chunkSize) chunkSize
  end.

Definition chunkStarts (fromBlock toBlock chunkSize : Z) : list Z :=
  if fromBlock <=? toBlock
  then chunkStartsFrom (Z.to_nat ((toBlock - fromBlock) / chunkSize + 1))
                       fromBlock chunkSize
  else [].

Section Provider.

(** [provider.getLogs] for the range [start .. end], asked while the chunk
    size is [chunkSize]: the logs, or [None] when the call throws.  (A range
    is asked at most once per chunk size.) *)
Variable getLogs : Z -> Z -> Z -> option (list Log).

(** The state of one run of the loop. *)
Record LoopState : Set := {
  allLogs : list Log;
  ranges : list BlockRange;
  queried : Z
}.

(** One turn of the loop at [start]; [recurse] is the method itself, for
    the retry in quarters of a failed chunk larger than 10000 blocks. *)
Definition chunkIteration (recurse : Z -> Z -> Z -> option ChunkedLogs)
    (toBlock chunkSize : Z) (state : option LoopState) (start : Z)
  : option LoopState :=
  state ← state;
  let end_ := Z.min (start + chunkSize - 1) toBlock in
  let queried := queried state + 1 in
  match getLogs chunkSize start end_ with
  | Some found =>
      Some {| allLogs := allLogs state ++ found;
              ranges := ranges state ++
                [{| range_from := start; range_to := end_;
                    logsFound := Z.of_nat (List.length found) |}];
              queried := queried |}
  | None =>
      if 10000 <? chunkSize then
        subResult ← recurse start end_ (chunkSize / 4);
        Some {| allLogs := allLogs state ++ logs subResult;
                ranges := ranges state ++ blockRanges subResult;
                queried := queried + (chunksQueried subResult - 1) |}
      else
        Some {| allLogs := allLogs state;
                ranges := ranges state ++
                  [{| range_from := start; range_to := end_; logsFound := -1 |}];
                queried := queried |}
  end.

(** [queryLogsInChunks(filter, fromBlock, toBlock, chunkSize)]; [depth]
    bounds how often the retry nests, and [None] says it was too small. *)
Fixpoint queryLogsInChunks (depth : nat) (fromBlock toBlock chunkSize : Z)
  : option ChunkedLogs :=
  match depth with
  | O => None
  | S depth =>
      final ← foldl (chunkIteration (queryLogsInChunks depth) toBlock chunkSize)
                 (Some {| allLogs := []; ranges := []; queried := 0 |})
                 (chunkStarts fromBlock toBlock chunkSize);
      Some {| logs := sortLogs (allLogs final);
              chunksQueried := queried final;
              blockRanges := ranges final |}
  end.

(** The call of [getTransferEvents]: the default chunk size of 100000 is
    quartered at most twice (25000, 6250). *)
Definition DEFAULT_CHUNK_SIZE : Z := 100000.

Definition queryTransferLogs (fromBlock toBlock : Z) : option ChunkedLogs :=
  queryLogsInChunks 3 fromBlock toBlock DEFAULT_CHUNK_SIZE.

End Provider.

(** *** Pagination *)

Section Pagination.

(** The NFT records built from the token metadata. *)
Variable NFT : Type.

(** [tokenOfOwnerByIndex] and [tokenURI] for one index, with the NFT built
    from them: [None] when one of the two calls throws and the index is
    skipped (a metadata failure does not skip it). *)
Variable fetchNFT : Z -> option NFT.



(** *** The pagination state of the page ([app/page.tsx]) *)




End Pagination.

End AvalancheQuery.


(** ** OpenSea listings ([lib/api/opensea.ts], [app/api/opensea/orders/route.ts]) *)

Module OpenSea.

(** *** The circuit breaker *)

Record Failure : Set := { failedAt : Z; error : string }.

Definition FAILURE_CACHE_TTL_MS : Z := 10 * 60 * 1000.

(** [getCachedFailure(tokenKey)] at the time [now]: the cached error, if
    any, and the cache it leaves. *)
Definition getCachedFailure (failureCache : gmap string Failure) (now : Z)
    (tokenKey : string) : option string * gmap string Failure :=
  match failureCache !! tokenKey with
  | None => (None, failureCache)
  | Some cached =>
      if FAILURE_CACHE_TTL_MS <? now - failedAt cached
      then (None, delete tokenKey failureCache)
      else (Some (error cached), failureCache)
  end.

(** [setCachedFailure(tokenKey, error)]: the clock is read once for the
    entry ([now]) and once more for the cleanup ([cleanupNow]). *)
Definition setCachedFailure (failureCache : gmap string Failure)
    (now cleanupNow : Z) (tokenKey error : string) : gmap string Failure :=
  let failureCache :=
    <[tokenKey := {| failedAt := now; error := error |}]> failureCache in
  if (100 <? size failureCache)%nat then
    filter (fun entry : string * Failure =>
              ~ (FAILURE_CACHE_TTL_MS < cleanupNow - failedAt entry.2))
           failureCache
  else failureCache.

(** *** Prices of the orders *)

(** [order.current_price] as the code uses it: falsy; a value [BigInt]
    converts; or a value [BigInt] throws on, with the error's message. *)
Inductive CurrentPrice : Set :=
| PriceAbsent
| PriceWei (wei : Z)
| PriceMalformed (message : string).

Record Order : Set := { current_price : CurrentPrice }.

(** [Number(bigint)]: the nearest binary64 value, ties to even. *)
Definition numberOfBigInt (n : Z) : float :=
  SF2Prim (SpecFloat.binary_normalize FloatOps.prec FloatOps.emax n 0 false).

(** [Math.min] of two numbers: NaN when either is NaN, and [-0] is smaller
    than [+0]. *)
Definition Math_min (a b : float) : float :=
  if PrimFloat.is_nan a || PrimFloat.is_nan b then PrimFloat.nan
  else if (a <? b)%float then a
  else if (b <? a)%float then b
  else if PrimFloat.get_sign a then a else b.

(** [Math.min(...prices)] and [Math.max(...prices)]. *)
Definition Math_min_of (prices : list float) : float :=
  fold_left Math_min prices PrimFloat.infinity.

Definition Math_max_of (prices : list float) : float :=
  fold_left JsNumber.Math_max prices PrimFloat.neg_infinity.

(** The [.filter(order => order.current_price).map(...)] of both files:
    the prices in tokens, or the message of the first conversion that
    throws. *)
Fixpoint convertPrices (orders : list Order) : string + list float :=
  match orders with
  | [] => inr []
  | order :: rest =>
      match current_price order with
      | PriceAbsent => convertPrices rest
      | PriceMalformed message => inl message
      | PriceWei priceWei =>
          match convertPrices rest with
          | inl message => inl message
          | inr prices => inr ((numberOfBigInt priceWei / 1e18)%float :: prices)
          end
      end
  end.

(** [... .filter(price => price > 0)]. *)
Definition extractPrices (orders : list Order) : string + list float :=
  match convertPrices orders with
  | inl message => inl message
  | inr prices => inr (List.filter (fun price => JsNumber.gtb price 0) prices)
  end.

(** *** The API route *)

(** What the route passes to [NextResponse.json]. *)
Record RouteBody : Set := {
  body_lowest : option float;
  body_highest : option float;
  body_error : option string
}.

Record RouteResponse : Set := { status : Z; body : RouteBody }.

(** The answer of OpenSea to the route's request. *)
Inductive Upstream : Set :=
| UpstreamThrows
| UpstreamNotOk (upstreamStatus : Z)
| UpstreamOrders (orders : list Order).

Definition falsy (parameter : option string) : bool :=
  match parameter with
  | Some s => negb (JsString.truthy s)
  | None => true
  end.

(** [GET(request)]: [contract] and [tokenId] are the search parameters. *)
Definition GET (contract tokenId : option string) (upstream : Upstream)
  : RouteResponse :=
  let internalError :=
    {| status := 200;
       body := {| body_lowest := None; body_highest := None;
                  body_error := Some "Internal server error"%string |} |} in
  if falsy contract || falsy tokenId then
    {| status := 400;
       body := {| body_lowest := None; body_highest := None;
                  body_error :=
                    Some "Missing required parameters: contract, tokenId"%string |} |}
  else
    match upstream with
    | UpstreamThrows => internalError
    | UpstreamNotOk upstreamStatus =>
        {| status := 200;
           body := {| body_lowest := None; body_highest := None;
                      body_error :=
                        Some ("OpenSea API error: "
                              +:+ JsNumber.integerToString upstreamStatus) |} |}
    | UpstreamOrders orders =>
        if (List.length orders =? 0)%nat then
          {| status := 200;
             body := {| body_lowest := None; body_highest := None;
                        body_error := None |} |}
        else
          match extractPrices orders with
          | inl _ => internalError
          | inr prices =>
              let lowest :=
                if (0 <? List.length prices)%nat
                then Some (Math_min_of prices) else None in
              let highest :=
                if (0 <? List.length prices)%nat
                then Some (Math_max_of prices) else None in
              {| status := 200;
                 body := {| body_lowest := lowest; body_highest := highest;
                            body_error := None |} |}
          end
    end.

(** *** The service *)

Record Listings : Set := {
  lowest : option float;
  highest : option float;
  listings_error : option string
}.

(** What the request of [getNFTListings] meets: in the browser the API
    route (a fetch that throws, a response that is not ok, or its JSON), on
    the server OpenSea itself (a request that throws, or the orders).  A
    thrown value that is no [Error] has no message. *)
Inductive Answer : Set :=
| RouteThrows (message : option string)
| RouteNotOk (responseStatus : Z)
| RouteJson (data : RouteBody)
| DirectThrows (message : option string)
| DirectOrders (orders : list Order).

(** [getNFTListings(contractAddress, tokenId, chain)]: [now] is the clock
    at the circuit-breaker check, [failedAt] and [cleanupNow] are the clock
    where a failure is cached.  The result and the failure cache it leaves. *)
Definition getNFTListings (failureCache : gmap string Failure)
    (now failedAt cleanupNow : Z) (contractAddress tokenId chain : string)
    (answer : Answer) : Listings * gmap string Failure :=
  let tokenKey := chain +:+ ":" +:+ contractAddress +:+ ":" +:+ tokenId in
  let '(cachedFailure, failureCache) := getCachedFailure failureCache now tokenKey in
  let failed (errorMsg : string) :=
    ({| lowest := None; highest := None; listings_error := Some errorMsg |},
     setCachedFailure failureCache failedAt cleanupNow tokenKey errorMsg) in
  match cachedFailure with
  | Some cachedError =>
      ({| lowest := None; highest := None; listings_error := Some cachedError |},
       failureCache)
  | None =>
      match answer with
      | RouteThrows message | DirectThrows message =>
          failed (default "Network error"%string message)
      | RouteNotOk responseStatus =>
          failed ("API error: " +:+ JsNumber.integerToString responseStatus)
      | RouteJson data =>
          if negb (falsy (body_error data)) then
            ({| lowest := body_lowest data; highest := body_highest data;
                listings_error := body_error data |}, failureCache)
          else
            ({| lowest := body_lowest data; highest := body_highest data;
                listings_error := None |}, failureCache)
      | DirectOrders orders =>
          if (List.length orders =? 0)%nat then
            ({| lowest := None; highest := None; listings_error := None |},
             failureCache)
          else
            match extractPrices orders with
            | inl message => failed message
            | inr prices =>
                if (List.length prices =? 0)%nat then
                  ({| lowest := None; highest := None; listings_error := None |},
                   failureCache)
                else
                  ({| lowest := Some (Math_min_of prices);
                      highest := Some (Math_max_of prices);
                      listings_error := None |}, failureCache)
            end
      end
  end.

(** A number in a JSON body: [NaN] and the infinities are written [null],
    and [-0] is written [0]. *)
Definition jsonNumber (x : float) : option float :=
  if PrimFloat.is_nan x || PrimFloat.is_infinity x then None
  else if (x =? 0)%float then Some 0%float
  else Some x.

(** The route's response as the browser's [fetch] reads it. *)
Definition fetchRoute (response : RouteResponse) : Answer :=
  if (200 <=? status response) && (status response <=? 299) then
    RouteJson {| body_lowest := body_lowest (body response) ≫= jsonNumber;
                 body_highest := body_highest (body response) ≫= jsonNumber;
                 body_error := body_error (body response) |}
  else RouteNotOk (status response).

End OpenSea.

(** ** The detail modal: acquisition data and market reference *)

Module Modal.
Import JsNumber Position Marketplace Avalanche.

(** A number in a condition: false on [0], [-0] and NaN. *)
Definition truthyNumber (x : float) : bool :=
  negb ((x =? 0)%float || PrimFloat.is_nan x).

(** *** Step 2 of [loadItemDetails]: the listings *)

Record ListingsData : Set := {
  data_lowest : option float;
  data_highest : option float;
  average : option float
}.

(** What [setListingsData] receives for an answer of [getNFTListings]. *)
Definition listingsDataOf (listings : OpenSea.Listings) : ListingsData :=
  let lowest := OpenSea.lowest listings in
  let highest := OpenSea.highest listings in
  let average :=
    match lowest, highest with
    | Some lowest, Some highest => Some ((lowest + highest) / 2)%float
    | Some lowest, None => Some lowest
    | None, _ => highest
    end in
  {| data_lowest := lowest; data_highest := highest; average := average |}.

(** *** The end of [loadItemDetails]: the acquisition object *)

Inductive AcquisitionSource : Set :=
| sourceMarketplace   (* 'marketplace' *)
| sourceTransfers     (* 'transfers' *)
| sourceLocalStorage  (* 'localStorage' *)
| sourceNone.         (* 'none' *)

Record AcquisitionData : Set := {
  acquisitionSource : AcquisitionSource;
  (* transfer-derived fields *)
  data_acquiredAt : option Z;
  data_fromAddress : option string;
  data_acquisitionType : option AcquisitionType;
  (* marketplace-derived fields; a number restored from the cache can be
     [null] *)
  data_purchasePriceGun : Nullable float;
  data_purchasePriceUsd : Nullable float;
  data_purchaseDate : option Z;
  marketplaceTxHash : option string;
  (* legacy compatibility *)
  data_transferredFrom : option string;
  data_isFreeTransfer : option bool
}.

(** A [number | undefined] as a [number | null | undefined]. *)
Definition nullable {A} (x : option A) : Nullable A :=
  match x with Some x => JsVal x | None => JsUndefined end.

Definition isTRANSFER (acquisitionType : AcquisitionType) : bool :=
  match acquisitionType with TRANSFER => true | _ => false end.

(** [freshAcquisition]: [matchedPurchase] is the match of step 3, if any,
    and [historicalPrice] the answer of [getHistoricalGunPrice] for its
    date, when it is a number. *)
Definition freshAcquisition (derived : TransferDerived)
    (matchedPurchase : option MarketplacePurchase) (historicalPrice : option float)
  : AcquisitionData :=
  let purchasePriceGun := priceGun <$> matchedPurchase in
  let purchaseDate := purchaseDateIso <$> matchedPurchase in
  let purchasePriceUsd :=
    match purchasePriceGun, purchaseDate, historicalPrice with
    | Some gun, Some _, Some rate =>
        if truthyNumber gun && truthyNumber rate then Some (gun * rate)%float else None
    | _, _, _ => None
    end in
  let hasTransferData := hasTransferData derived in
  let hasMarketplaceMatch :=
    match purchasePriceGun with Some _ => true | None => false end in
  let derivedAcquisitionSource :=
    if hasMarketplaceMatch then sourceMarketplace
    else if hasTransferData then sourceTransfers else sourceNone in
  {| acquisitionSource := derivedAcquisitionSource;
     data_acquiredAt := if hasTransferData then acquiredAt derived else None;
     data_fromAddress := if hasTransferData then fromAddress derived else None;
     data_acquisitionType :=
       if hasTransferData then Some (acquisitionType derived) else None;
     data_purchasePriceGun :=
       nullable (if hasMarketplaceMatch then purchasePriceGun else None);
     data_purchasePriceUsd :=
       nullable (if hasMarketplaceMatch then purchasePriceUsd else None);
     data_purchaseDate := if hasMarketplaceMatch then purchaseDate else None;
     marketplaceTxHash :=
       if hasMarketplaceMatch then matchedPurchase ≫= txHash else None;
     data_transferredFrom :=
       if hasTransferData && isTRANSFER (acquisitionType derived)
       then fromAddress derived else None;
     data_isFreeTransfer :=
       Some (hasTransferData && isTRANSFER (acquisitionType derived)
             && negb hasMarketplaceMatch) |}.

(** *** The acquisition in the localStorage cache *)

(** [CachedNFTDetailData], as the modal writes and reads it. *)
Record CachedNFTDetailData : Set := {
  cached_purchasePriceGun : Nullable float;
  cached_purchasePriceUsd : Nullable float;
  cached_purchaseDate : option Z;   (* an ISO string, by its time value *)
  cached_transferredFrom : option string;
  cached_isFreeTransfer : option bool
}.

(** The object [loadItemDetails] hands to [setCachedNFTDetail]. *)
Definition cachedDetailOf (freshAcquisition : AcquisitionData) : CachedNFTDetailData :=
  {| cached_purchasePriceGun := data_purchasePriceGun freshAcquisition;
     cached_purchasePriceUsd := data_purchasePriceUsd freshAcquisition;
     cached_purchaseDate := data_purchaseDate freshAcquisition;
     cached_transferredFrom := data_transferredFrom freshAcquisition;
     cached_isFreeTransfer := data_isFreeTransfer freshAcquisition |}.

(** A number field through [JSON.stringify] and [JSON.parse]: NaN and the
    infinities come back as [null], [-0] as [0], and an undefined field
    stays undefined. *)
Definition jsonNullable (x : Nullable float) : Nullable float :=
  match x with
  | JsVal x =>
      match OpenSea.jsonNumber x with
      | Some x => JsVal x
      | None => JsNull
      end
  | other => other
  end.

Definition jsonDetail (data : CachedNFTDetailData) : CachedNFTDetailData :=
  {| cached_purchasePriceGun := jsonNullable (cached_purchasePriceGun data);
     cached_purchasePriceUsd := jsonNullable (cached_purchasePriceUsd data);
     cached_purchaseDate := cached_purchaseDate data;
     cached_transferredFrom := cached_transferredFrom data;
     cached_isFreeTransfer := cached_isFreeTransfer data |}.

(** [restoredAcquisition]: what the modal shows from a cache hit. *)
Definition restoredAcquisition (cachedValue : CachedNFTDetailData) : AcquisitionData :=
  let hasTransferData :=
    notUndefined (cached_purchasePriceGun cachedValue)
    || match cached_purchaseDate cachedValue with Some _ => true | None => false end
    || bool_decide (cached_isFreeTransfer cachedValue = Some true) in
  {| acquisitionSource := if hasTransferData then sourceLocalStorage else sourceNone;
     data_acquiredAt := None;
     data_fromAddress := None;
     data_acquisitionType := None;
     data_purchasePriceGun := cached_purchasePriceGun cachedValue;
     data_purchasePriceUsd := cached_purchasePriceUsd cachedValue;
     data_purchaseDate := cached_purchaseDate cachedValue;
     marketplaceTxHash := None;
     data_transferredFrom := cached_transferredFrom cachedValue;
     data_isFreeTransfer := cached_isFreeTransfer cachedValue |}.

(** Steps 1 and 3 and the acquisition object built from them, for a
    configured marketplace. *)
Definition loadAcquisition (provider : Provider) (gunTokenAddress : option string)
    (service : Reconcile.MarketplaceService) (tokenKey walletAddress : string)
    (historicalPrice : option float) : AcquisitionData :=
  let transferHistory := getNFTTransferHistory provider gunTokenAddress walletAddress in
  let derived := deriveAcquisition transferHistory in
  let currentOwner := transferHistory ≫= (fun h => currentOwner (debugInfo h)) in
  let matched :=
    Reconcile.matchMarketplace service tokenKey walletAddress currentOwner
      (hasTransferData derived) (acquiredAt derived) in
  freshAcquisition derived (Reconcile.matchedPurchase matched) historicalPrice.

(** *** The value header *)

(** The input of [getPositionLabel] as the value header builds it. *)
Definition positionInput (currentPurchaseData : option AcquisitionData)
    (listingsData : option ListingsData) : GetPositionLabelInput :=
  {| acquisitionPriceGun :=
       match currentPurchaseData with
       | Some data =>
           if default false (data_isFreeTransfer data) then JsNull
           else data_purchasePriceGun data
       | None => JsUndefined
       end;
     priceLow := nullable (listingsData ≫= data_lowest);
     priceHigh := nullable (listingsData ≫= data_highest) |}.

Record MarketReference : Set := {
  hasMarketData : bool;
  gunValue : option float;
  usdValue : option float;
  deltaPercent : option float;
  reference_dataQuality : option DataQualityLevel
}.

(** [getMarketReference()]: [floorPrice] and [ceilingPrice] are those of
    the NFT, [currentGunPrice] is the GUN price in USD, if loaded. *)
Definition getMarketReference (listingsData : option ListingsData)
    (floorPrice ceilingPrice : option float)
    (currentPurchaseData : option AcquisitionData) (currentGunPrice : option float)
  : MarketReference :=
  let currentValue :=
    match listingsData ≫= average with
    | Some average => Some average
    | None => match floorPrice with
              | Some floorPrice => Some floorPrice
              | None => ceilingPrice
              end
    end in
  let purchasePrice :=
    match currentPurchaseData with
    | Some data => data_purchasePriceGun data
    | None => JsUndefined
    end in
  match currentValue with
  | None =>
      {| hasMarketData := false; gunValue := None; usdValue := None;
         deltaPercent := None; reference_dataQuality := None |}
  | Some currentValue =>
      let usdValue :=
        match currentGunPrice with
        | Some rate =>
            if truthyNumber rate then Some (currentValue * rate)%float else None
        | None => None
        end in
      let deltaPercent :=
        match purchasePrice with
        | JsVal purchasePrice =>
            if truthyNumber purchasePrice && gtb purchasePrice 0
               && negb (default false (currentPurchaseData ≫= data_isFreeTransfer))
            then Some (((currentValue - purchasePrice) / purchasePrice) * 100)%float
            else None
        | _ => None
        end in
      {| hasMarketData := true; gunValue := Some currentValue; usdValue := usdValue;
         deltaPercent := deltaPercent;
         reference_dataQuality :=
           calculateDataQuality (listingsData ≫= data_lowest)
                                (listingsData ≫= data_highest) |}
  end.

(** [getPositionOnRange(value, low, high)]. *)
Definition getPositionOnRange (value low high : float) : float :=
  if (high =? low)%float then 50%float
  else
    let position := (((value - low) / (high - low)) * 100)%float in
    Math_max 2 (OpenSea.Math_min 98 position).

End Modal.

(** ** The localStorage cache ([lib/utils/nftCache.ts]) *)

Module NftCache.

Definition SCHEMA_VERSION_nftDetail : string := "v3".
Definition SCHEMA_VERSION_transfers : string := "v2".
Definition SCHEMA_VERSION_priceGunUsd : string := "v1".

Definition CACHE_NAMESPACE : string := "zillascope".
Definition DEFAULT_TTL_SECONDS : Z := 24 * 60 * 60.
Definition LEGACY_CACHE_KEY_PREFIX : string := "zillascope_nft_cache_".

(** [s.startsWith(prefix)] and [s.includes(part)]. *)
Definition startsWith (prefix s : string) : bool := String.prefix prefix s.

Fixpoint includes (part s : string) : bool :=
  String.prefix part s ||
  match s with
  | EmptyString => false
  | String _ rest => includes part rest
  end.

(** *** Key builders *)

Definition buildTokenKey (chain contractAddress tokenId : string) : string :=
  chain +:+ ":" +:+ JsString.toLowerCase contractAddress +:+ ":" +:+ tokenId.

Definition buildNftDetailCacheKey (walletAddress tokenKey : string) : string :=
  CACHE_NAMESPACE +:+ ":nft:detail:" +:+ SCHEMA_VERSION_nftDetail +:+ ":"
    +:+ JsString.toLowerCase walletAddress +:+ ":" +:+ tokenKey.

Definition buildTransfersCacheKey (walletAddress tokenKey : string) : string :=
  CACHE_NAMESPACE +:+ ":nft:transfers:" +:+ SCHEMA_VERSION_transfers +:+ ":"
    +:+ JsString.toLowerCase walletAddress +:+ ":" +:+ tokenKey.

Section Cache.

(** The cached values, and what [JSON.parse(JSON.stringify(value))] makes
    of one. *)
Variable T : Type.
Variable json : T -> T.

(** An item of the storage as [cacheGet] reads it: the empty string; a
    string [JSON.parse] throws on, or parses to [null]; or a value with its
    [schemaVersion] when that is a string, its [data], and the number the
    comparison with the clock reads from its [expiresAt], if it reads one. *)
Inductive Item : Type :=
| EmptyItem
| Corrupt
| Entry (schemaVersion : option string) (data : T) (expiresAt : option Z).

Inductive MissReason : Set := expired | version_mismatch | not_found | parse_error.

Record CacheResult : Type := {
  hit : bool;
  value : option T;
  cacheKey : string;
  reason : option MissReason
}.

Definition miss (fullKey : string) (reason : MissReason) : CacheResult :=
  {| hit := false; value := None; cacheKey := fullKey; reason := Some reason |}.

(** [cacheGet(fullKey, expectedVersion)] at the time [now]: the result and
    the storage it leaves. *)
Definition cacheGet (isBrowser : bool) (localStorage : gmap string Item) (now : Z)
    (fullKey expectedVersion : string) : CacheResult * gmap string Item :=
  if negb isBrowser then (miss fullKey not_found, localStorage)
  else
    match localStorage !! fullKey with
    | None | Some EmptyItem => (miss fullKey not_found, localStorage)
    | Some Corrupt => (miss fullKey parse_error, delete fullKey localStorage)
    | Some (Entry schemaVersion data expiresAt) =>
        if negb (bool_decide (schemaVersion = Some expectedVersion)) then
          (miss fullKey version_mismatch, delete fullKey localStorage)
        else if match expiresAt with
                | Some expiresAt => expiresAt <? now
                | None => false
                end then
          (miss fullKey expired, delete fullKey localStorage)
        else
          ({| hit := true; value := Some data; cacheKey := fullKey; reason := None |},
           localStorage)
    end.

(** [cacheSet(fullKey, schemaVersion, value, ttlSeconds)] at the time
    [now]; [accepted] says that [localStorage.setItem] does not throw. *)
Definition cacheSet (isBrowser accepted : bool) (localStorage : gmap string Item) (now : Z)
    (fullKey schemaVersion : string) (value : T) (ttlSeconds : Z) : gmap string Item :=
  if negb isBrowser then localStorage
  else if accepted then
    <[fullKey := Entry (Some schemaVersion) (json value) (Some (now + ttlSeconds * 1000))]>
      localStorage
  else localStorage.

Definition cacheRemove (isBrowser : bool) (localStorage : gmap string Item) (fullKey : string)
  : gmap string Item :=
  if negb isBrowser then localStorage else delete fullKey localStorage.

(** *** The typed functions *)

Definition getCachedNFTDetail (isBrowser : bool) (localStorage : gmap string Item) (now : Z)
    (walletAddress tokenKey : string) : CacheResult * gmap string Item :=
  cacheGet isBrowser localStorage now
           (buildNftDetailCacheKey walletAddress tokenKey) SCHEMA_VERSION_nftDetail.

Definition setCachedNFTDetail (isBrowser accepted : bool) (localStorage : gmap string Item)
    (now : Z) (walletAddress tokenKey : string) (data : T) (ttlSeconds : Z) : gmap string Item :=
  cacheSet isBrowser accepted localStorage now
           (buildNftDetailCacheKey walletAddress tokenKey) SCHEMA_VERSION_nftDetail
           data ttlSeconds.

Definition getCachedTransfers (isBrowser : bool) (localStorage : gmap string Item) (now : Z)
    (walletAddress tokenKey : string) : CacheResult * gmap string Item :=
  cacheGet isBrowser localStorage now
           (buildTransfersCacheKey walletAddress tokenKey) SCHEMA_VERSION_transfers.

Definition setCachedTransfers (isBrowser accepted : bool) (localStorage : gmap string Item)
    (now : Z) (walletAddress tokenKey : string) (data : T) (ttlSeconds : Z) : gmap string Item :=
  cacheSet isBrowser accepted localStorage now
           (buildTransfersCacheKey walletAddress tokenKey) SCHEMA_VERSION_transfers
           data ttlSeconds.

(** *** Cleanup *)

(** [clearWalletCache(walletAddress)]. *)
Definition clearWalletCache (isBrowser : bool) (localStorage : gmap string Item)
    (walletAddress : string) : gmap string Item :=
  if negb isBrowser then localStorage
  else
    let prefix := CACHE_NAMESPACE +:+ ":nft:" in
    let walletLower := JsString.toLowerCase walletAddress in
    let kept :=
      filter (fun item : string * Item =>
                ~ (startsWith prefix item.1 && includes walletLower item.1))
             localStorage in
    delete (LEGACY_CACHE_KEY_PREFIX +:+ walletLower) kept.

(** [clearAllCaches()]. *)
Definition clearAllCaches (isBrowser : bool) (localStorage : gmap string Item) : gmap string Item :=
  if negb isBrowser then localStorage
  else
    filter (fun item : string * Item =>
              ~ (startsWith CACHE_NAMESPACE item.1
                 || startsWith LEGACY_CACHE_KEY_PREFIX item.1))
           localStorage.

End Cache.

End NftCache.
(** ** Order facts on binary64 values

    The comparison of two floats is specified by [SFcompare] on their
    [spec_float] images; the facts below are what branch conditions of the
    program need: comparisons are antisymmetric and transitive, total away
    from NaN, and [abs] and negation act on them as expected. *)

Module FloatOrder.

Lemma SFcompare_antisym (a b : spec_float) :
  SFcompare b a = option_map CompOpp (SFcompare a b).
Proof.
  destruct a as [sa|sa| |sa ma ea], b as [sb|sb| |sb mb eb]; simpl;
    try reflexivity; try (destruct sa; reflexivity);
    try (destruct sb; reflexivity); try (destruct sa, sb; reflexivity).
  destruct sa, sb; try reflexivity;
    rewrite (Z.compare_antisym ea eb);
    destruct (ea ?= eb)%Z eqn:He; simpl; try reflexivity;
    fold (Pos.compare ma mb); fold (Pos.compare mb ma);
    rewrite (Pos.compare_antisym ma mb);
    destruct (ma ?= mb)%positive; reflexivity.
Qed.

(** A rank in a lexicographic order on [Z * Z * Z] that [SFcompare]
    follows. *)
Definition SFrank (a : spec_float) : option (Z * Z * Z) :=
  match a with
  | S754_nan => None
  | S754_infinity true => Some (-2, 0, 0)
  | S754_finite true m e => Some (-1, - e, Z.neg m)
  | S754_zero _ => Some (0, 0, 0)
  | S754_finite false m e => Some (1, e, Z.pos m)
  | S754_infinity false => Some (2, 0, 0)
  end.

Definition lex_lt (x y : Z * Z * Z) : Prop :=
  let '(a1, b1, c1) := x in
  let '(a2, b2, c2) := y in
  a1 < a2 \/ (a1 = a2 /\ (b1 < b2 \/ (b1 = b2 /\ c1 < c2))).

Lemma SFcompare_Lt (a b : spec_float) :
  SFcompare a b = Some Lt <->
  exists x y, SFrank a = Some x /\ SFrank b = Some y /\ lex_lt x y.
Proof.
  split.
  - destruct a as [sa|sa| |sa ma ea], b as [sb|sb| |sb mb eb]; simpl;
      try discriminate;
      try (destruct sa; try discriminate);
      try (destruct sb; try discriminate);
      intros H; try discriminate;
      (eexists _, _; split; [reflexivity|split; [reflexivity|]]; simpl);
      try lia;
      change (PosDef.Pos.compare_cont Eq ma mb) with (Pos.compare ma mb) in H;
      destruct (Z.compare_spec ea eb); try discriminate; try lia;
      destruct (Pos.compare_spec ma mb); simpl in H; try discriminate; lia.
  - intros (x & y & Ha & Hb & Hlt).
    destruct a as [sa|sa| |sa ma ea], b as [sb|sb| |sb mb eb]; simpl in *;
      try discriminate;
      try (destruct sa; simpl in * );
      try (destruct sb; simpl in * );
      simplify_eq; simpl in Hlt; try reflexivity; try lia;
      change (PosDef.Pos.compare_cont Eq ma mb) with (Pos.compare ma mb);
      destruct (Z.compare_spec ea eb); try lia; try reflexivity;
      destruct (Pos.compare_spec ma mb); simpl; try reflexivity; lia.
Qed.

Lemma SFcompare_Eq (a b : spec_float) :
  SFcompare a b = Some Eq <->
  exists x, SFrank a = Some x /\ SFrank b = Some x.
Proof.
  split.
  - destruct a as [sa|sa| |sa ma ea], b as [sb|sb| |sb mb eb]; simpl;
      try discriminate;
      try (destruct sa; try discriminate);
      try (destruct sb; try discriminate);
      intros H; try discriminate;
      try (eexists; split; reflexivity);
      change (PosDef.Pos.compare_cont Eq ma mb) with (Pos.compare ma mb) in H;
      destruct (Z.compare_spec ea eb); try discriminate;
      destruct (Pos.compare_spec ma mb); simpl in H; try discriminate;
      subst; eexists; split; reflexivity.
  - intros (x & Ha & Hb).
    destruct a as [sa|sa| |sa ma ea], b as [sb|sb| |sb mb eb]; simpl in *;
      try discriminate;
      try (destruct sa; simpl in * );
      try (destruct sb; simpl in * );
      simplify_eq; try reflexivity; try lia;
      change (PosDef.Pos.compare_cont Eq mb mb) with (Pos.compare mb mb);
      rewrite ?Z.compare_refl, Pos.compare_refl; try reflexivity.
    assert (ea = eb) as -> by lia. rewrite Z.compare_refl. reflexivity.
Qed.

Definition lex_le (x y : Z * Z * Z) : Prop :=
  let '(a1, b1, c1) := x in
  let '(a2, b2, c2) := y in
  a1 < a2 \/ (a1 = a2 /\ (b1 < b2 \/ (b1 = b2 /\ c1 <= c2))).

Lemma lex_le_lt_eq (x y : Z * Z * Z) : lex_le x y <-> lex_lt x y \/ x = y.
Proof.
  destruct x as [[a1 b1] c1], y as [[a2 b2] c2]; simpl. split.
  - intros H.
    destruct (decide (a1 = a2 /\ b1 = b2 /\ c1 = c2)) as [(-> & -> & ->)|];
      [right; reflexivity | left; lia].
  - intros [H|H]; [lia | simplify_eq; lia].
Qed.

(** The rank of a float; [None] is NaN. *)
Definition rank (x : float) : option (Z * Z * Z) := SFrank (Prim2SF x).

Definition rank_lt (r1 r2 : option (Z * Z * Z)) : Prop :=
  match r1, r2 with Some x, Some y => lex_lt x y | _, _ => False end.

Definition rank_le (r1 r2 : option (Z * Z * Z)) : Prop :=
  match r1, r2 with Some x, Some y => lex_le x y | _, _ => False end.

Lemma ltb_iff (a b : float) : (a <? b)%float = true <-> rank_lt (rank a) (rank b).
Proof.
  rewrite ltb_spec. unfold SFltb, rank_lt, rank.
  destruct (SFcompare (Prim2SF a) (Prim2SF b)) as [[]|] eqn:E.
  - split; [discriminate|]. intros H.
    assert (SFcompare (Prim2SF a) (Prim2SF b) = Some Lt) as E'.
    { apply SFcompare_Lt.
      destruct (SFrank (Prim2SF a)), (SFrank (Prim2SF b)); try done. eauto. }
    congruence.
  - apply SFcompare_Lt in E as (x & y & -> & -> & H). done.
  - split; [discriminate|]. intros H.
    assert (SFcompare (Prim2SF a) (Prim2SF b) = Some Lt) as E'.
    { apply SFcompare_Lt.
      destruct (SFrank (Prim2SF a)), (SFrank (Prim2SF b)); try done. eauto. }
    congruence.
  - split; [discriminate|]. intros H.
    assert (SFcompare (Prim2SF a) (Prim2SF b) = Some Lt) as E'.
    { apply SFcompare_Lt.
      destruct (SFrank (Prim2SF a)), (SFrank (Prim2SF b)); try done. eauto. }
    congruence.
Qed.

Lemma leb_iff (a b : float) : (a <=? b)%float = true <-> rank_le (rank a) (rank b).
Proof.
  rewrite leb_spec. unfold SFleb, rank_le, rank.
  assert (forall c, SFcompare (Prim2SF a) (Prim2SF b) = Some c ->
            (c = Lt \/ c = Eq) <->
            match SFrank (Prim2SF a), SFrank (Prim2SF b) with
            | Some x, Some y => lex_le x y
            | _, _ => False
            end) as Hc.
  { intros c E. split.
    - intros [-> | ->].
      + apply SFcompare_Lt in E as (x & y & -> & -> & H).
        apply lex_le_lt_eq. auto.
      + apply SFcompare_Eq in E as (x & -> & ->). apply lex_le_lt_eq. auto.
    - intros H.
      destruct (SFrank (Prim2SF a)) as [x|] eqn:Ha; [|done].
      destruct (SFrank (Prim2SF b)) as [y|] eqn:Hb; [|done].
      apply lex_le_lt_eq in H as [H | ->].
      + left. assert (SFcompare (Prim2SF a) (Prim2SF b) = Some Lt);
          [apply SFcompare_Lt; eauto | congruence].
      + right. assert (SFcompare (Prim2SF a) (Prim2SF b) = Some Eq);
          [apply SFcompare_Eq; eauto | congruence]. }
  destruct (SFcompare (Prim2SF a) (Prim2SF b)) as [c|] eqn:E.
  - specialize (Hc c eq_refl).
    destruct c; split; intros H; try done; try (apply Hc; auto);
      apply Hc in H as [?|?]; done.
  - split; [discriminate|]. intros H.
    destruct (SFrank (Prim2SF a)) as [x|] eqn:Ha; [|done].
    destruct (SFrank (Prim2SF b)) as [y|] eqn:Hb; [|done].
    apply lex_le_lt_eq in H as [H | ->].
    + assert (SFcompare (Prim2SF a) (Prim2SF b) = Some Lt);
        [apply SFcompare_Lt; eauto | congruence].
    + assert (SFcompare (Prim2SF a) (Prim2SF b) = Some Eq);
        [apply SFcompare_Eq; eauto | congruence].
Qed.

Lemma ltb_false_iff (a b : float) :
  (a <? b)%float = false <-> ~ rank_lt (rank a) (rank b).
Proof. rewrite <- ltb_iff. destruct (a <? b)%float; split; congruence. Qed.

Lemma leb_false_iff (a b : float) :
  (a <=? b)%float = false <-> ~ rank_le (rank a) (rank b).
Proof. rewrite <- leb_iff. destruct (a <=? b)%float; split; congruence. Qed.

Lemma is_nan_iff (a : float) : PrimFloat.is_nan a = true <-> rank a = None.
Proof.
  unfold PrimFloat.is_nan, rank. rewrite FloatAxioms.eqb_spec. unfold SFeqb.
  destruct (SFcompare (Prim2SF a) (Prim2SF a)) as [c|] eqn:E.
  - assert (c = Eq) as ->.
    { destruct (Prim2SF a) as [s|s| |s m e]; simpl in E; try discriminate;
        try (destruct s; congruence).
      change (PosDef.Pos.compare_cont Eq m m) with (Pos.compare m m) in E.
      rewrite Z.compare_refl, Pos.compare_refl in E.
      destruct s; simpl in E; congruence. }
    apply SFcompare_Eq in E as (x & -> & _). split; discriminate.
  - split; [intros _|reflexivity].
    destruct (Prim2SF a) as [s|s| |s m e]; simpl in *; try discriminate;
      try reflexivity; destruct s; discriminate.
Qed.

Lemma is_nan_false_iff (a : float) :
  PrimFloat.is_nan a = false <-> exists x, rank a = Some x.
Proof.
  split.
  - intros H. destruct (rank a) as [x|] eqn:E; [eauto|].
    apply is_nan_iff in E. congruence.
  - intros [x Hx]. destruct (PrimFloat.is_nan a) eqn:E; [|reflexivity].
    apply is_nan_iff in E. congruence.
Qed.

Definition rank_opp (r : Z * Z * Z) : Z * Z * Z :=
  let '(a, b, c) := r in (- a, - b, - c).

Definition rank_abs (r : Z * Z * Z) : Z * Z * Z :=
  if (fst (fst r) <? 0)%Z then rank_opp r else r.

Lemma rank_of_opp (x : float) : rank (- x)%float = option_map rank_opp (rank x).
Proof.
  unfold rank. rewrite opp_spec.
  destruct (Prim2SF x) as [s|s| |s m e]; simpl; try reflexivity;
    destruct s; simpl; rewrite ?Z.opp_involutive; reflexivity.
Qed.

Lemma rank_of_abs (x : float) :
  rank (PrimFloat.abs x) = option_map rank_abs (rank x).
Proof.
  unfold rank. rewrite abs_spec.
  destruct (Prim2SF x) as [s|s| |s m e]; simpl; try reflexivity;
    destruct s; unfold rank_abs; simpl; rewrite ?Z.opp_involutive;
    reflexivity.
Qed.

End FloatOrder.

(** ** Properties of the position label *)

Module PositionFacts.
Import JsNumber FloatOrder Position.

Lemma rank_zero : rank 0 = Some (0, 0, 0).
Proof. reflexivity. Qed.
Lemma rank_deadband : rank 0.03 = Some (1, -58, 8646911284551352).
Proof. vm_compute. reflexivity. Qed.
Lemma rank_neg_deadband : rank (-0.03) = Some (-1, 58, -8646911284551352).
Proof. vm_compute. reflexivity. Qed.
Lemma rank_strong_limit : rank 0.25 = Some (1, -54, 4503599627370496).
Proof. vm_compute. reflexivity. Qed.
Lemma rank_fair_limit : rank 0.60 = Some (1, -53, 5404319552844595).
Proof. vm_compute. reflexivity. Qed.
Lemma rank_min_cost : rank 0.000001 = Some (1, -72, 4722366482869645).
Proof. vm_compute. reflexivity. Qed.
Lemma rank_nan : rank PrimFloat.nan = None.
Proof. reflexivity. Qed.

(** Turns float comparisons into linear arithmetic on ranks. *)
Ltac float_order :=
  unfold geb, gtb, isNaN, Math_abs in *;
  repeat match goal with
  | H : (_ <? _)%float = true |- _ => apply ltb_iff in H
  | H : (_ <? _)%float = false |- _ => apply ltb_false_iff in H
  | H : (_ <=? _)%float = true |- _ => apply leb_iff in H
  | H : (_ <=? _)%float = false |- _ => apply leb_false_iff in H
  | H : PrimFloat.is_nan _ = true |- _ => apply is_nan_iff in H
  | H : PrimFloat.is_nan _ = false |- _ =>
      apply is_nan_false_iff in H as [[[? ?] ?] H]
  | |- (_ <? _)%float = true => apply ltb_iff
  | |- (_ <? _)%float = false => apply ltb_false_iff
  | |- (_ <=? _)%float = true => apply leb_iff
  | |- (_ <=? _)%float = false => apply leb_false_iff
  | |- PrimFloat.is_nan _ = true => apply is_nan_iff
  end;
  rewrite ?rank_of_abs, ?rank_of_opp in *;
  rewrite ?rank_zero, ?rank_deadband, ?rank_neg_deadband, ?rank_strong_limit,
    ?rank_fair_limit, ?rank_min_cost, ?rank_nan in *;
  repeat match goal with
  | H : rank ?a = _ |- _ =>
      let r := fresh "r" in set (r := rank a) in *; clearbody r; subst r
  end;
  repeat match goal with
  | H : context [rank ?a] |- _ => destruct (rank a) as [[[? ?] ?]|]
  | |- context [rank ?a] => destruct (rank a) as [[[? ?] ?]|]
  end;
  unfold rank_lt, rank_le, lex_lt, lex_le, rank_abs, rank_opp in *;
  simpl in *;
  repeat match goal with
  | H : context [(?a <? 0)%Z] |- _ => destruct (Z.ltb_spec a 0); simpl in H
  | |- context [(?a <? 0)%Z] => destruct (Z.ltb_spec a 0); simpl
  end;
  try done; try lia.

Lemma deadband_up (p : float) :
  geb p 0.03 = true -> (Math_abs p <? 0.03)%float = false.
Proof. intros H. float_order. Qed.

Lemma deadband_down (p : float) :
  (p <=? -0.03)%float = true ->
  (Math_abs p <? 0.03)%float = false /\ geb p 0.03 = false.
Proof. intros H. split; float_order. Qed.

(** What the code reads as a missing cost basis: no number at all, NaN, or
    a number below [0.000001]. *)
Definition costBasisMissing (a : Nullable float) : Prop :=
  a = JsNull \/ a = JsUndefined \/
  exists x, a = JsVal x /\ (isNaN x = true \/ (x <? 0.000001)%float = true).

(** What the code reads as an absent listing bound: no number at all, NaN,
    or a strictly negative number. *)
Definition absentBound (b : Nullable float) : Prop :=
  b = JsNull \/ b = JsUndefined \/
  exists x, b = JsVal x /\ (isNaN x = true \/ (x <? 0)%float = true).

Lemma validAcquisition_false (a : Nullable float) :
  validAcquisition a = false <-> costBasisMissing a.
Proof.
  unfold validAcquisition, costBasisMissing.
  destruct a as [| |x]; simpl; [tauto..|].
  destruct (isNaN x) eqn:Hn; simpl.
  - split; [intros _; right; right; eauto|reflexivity].
  - split.
    + intros H. right; right. exists x. split; [done|]. right. float_order.
    + intros [|[|(y & [= <-] & [H|H])]]; try done; float_order.
Qed.

Lemma hasBound_false (b : Nullable float) :
  hasBound b = false <-> absentBound b.
Proof.
  unfold hasBound, absentBound.
  destruct b as [| |x]; simpl; [tauto..|].
  destruct (isNaN x) eqn:Hn; simpl.
  - split; [intros _; right; right; eauto|reflexivity].
  - split.
    + intros H. right; right. exists x. split; [done|]. right. float_order.
    + intros [|[|(y & [= <-] & [H|H])]]; try done; float_order.
Qed.

Lemma hasBound_true (b : Nullable float) :
  hasBound b = true <-> exists x, b = JsVal x /\ (0 <=? x)%float = true.
Proof.
  unfold hasBound.
  destruct b as [| |x]; simpl;
    [split; [done | intros (? & ? & ?); done]..|].
  split.
  - intros H. exists x. split; [done|].
    apply andb_true_iff in H. tauto.
  - intros (y & [= <-] & H). apply andb_true_iff. split; [|exact H].
    apply negb_true_iff. destruct (isNaN x) eqn:Hn; [|done]. float_order.
Qed.

(** C5: the market reference is the midpoint [(low + high) / 2] when both
    bounds are present, the single present bound when exactly one is, and
    null when neither is; a listing of 100..200 with no acquisition price is
    [NO_COST_BASIS] with market reference 150. *)
Theorem marketRefGun_midpoint_or_single_bound (input : GetPositionLabelInput) :
  marketRefGun (getPositionLabel input) =
    match hasBound (priceLow input), hasBound (priceHigh input) with
    | true, true =>
        Some ((ToNumber (priceLow input) + ToNumber (priceHigh input)) / 2)%float
    | true, false => Some (ToNumber (priceLow input))
    | false, true => Some (ToNumber (priceHigh input))
    | false, false => None
    end
  /\ (forall low high, priceLow input = JsVal low -> priceHigh input = JsVal high ->
        hasBound (priceLow input) = true -> hasBound (priceHigh input) = true ->
        marketRefGun (getPositionLabel input) = Some ((low + high) / 2)%float)
  /\ getPositionLabel
       {| acquisitionPriceGun := JsNull; priceLow := JsVal 100%float;
          priceHigh := JsVal 200%float |}
     = {| state := NO_COST_BASIS; pnlPct := None; pnlGun := None;
          marketRefGun := Some 150%float; dataQuality := Some limited |}.
Proof.
  split; [|split].
  - unfold getPositionLabel.
    destruct (hasBound (priceLow input)), (hasBound (priceHigh input)); simpl;
      try reflexivity;
      destruct (negb (validAcquisition (acquisitionPriceGun input)));
      reflexivity.
  - intros low high Hl Hh Pl Ph. unfold getPositionLabel.
    rewrite Pl, Ph, Hl, Hh. simpl.
    destruct (negb (validAcquisition (acquisitionPriceGun input)));
      reflexivity.
  - vm_compute. reflexivity.
Qed.

(** C3 (as amended): the state is resolved in order.  [NO_MARKET_REF], with
    no pnl fields, exactly when the market reference is null; otherwise
    [NO_COST_BASIS], the market reference still reported, exactly when the
    acquisition price is absent, NaN or below 0.000001; otherwise, with
    [pnlAbsolute = marketReference - acquisitionPrice] and
    [pnlRatio = pnlAbsolute / max(acquisitionPrice, 1e-9)], the state is
    [FLAT] when [|pnlRatio| < 0.03], [UP] when [pnlRatio >= 0.03] and [DOWN]
    when [pnlRatio <= -0.03]. *)
Theorem getPositionLabel_state_resolution (input : GetPositionLabelInput) :
  let r := getPositionLabel input in
  (state r = NO_MARKET_REF <-> marketRefGun r = None) /\
  (marketRefGun r = None -> pnlPct r = None /\ pnlGun r = None) /\
  (forall marketReference, marketRefGun r = Some marketReference ->
     (state r = NO_COST_BASIS <-> costBasisMissing (acquisitionPriceGun input)) /\
     (costBasisMissing (acquisitionPriceGun input) ->
        pnlPct r = None /\ pnlGun r = None) /\
     (forall acquisitionPrice,
        acquisitionPriceGun input = JsVal acquisitionPrice ->
        ~ costBasisMissing (JsVal acquisitionPrice) ->
        let pnlAbsolute := (marketReference - acquisitionPrice)%float in
        let pnlRatio := (pnlAbsolute / Math_max acquisitionPrice 1e-9)%float in
        pnlGun r = Some pnlAbsolute /\
        pnlPct r = Some pnlRatio /\
        ((Math_abs pnlRatio <? 0.03)%float = true -> state r = FLAT) /\
        (geb pnlRatio 0.03 = true -> state r = UP) /\
        ((pnlRatio <=? -0.03)%float = true -> state r = DOWN) /\
        (state r = FLAT \/ state r = UP \/ state r = DOWN))).
Proof.
  unfold getPositionLabel.
  set (mref := if hasBound (priceLow input) && hasBound (priceHigh input)
               then _ else _).
  destruct mref as [m|]; [|simpl; repeat split; intros; done].
  destruct (validAcquisition (acquisitionPriceGun input)) eqn:Hv; simpl.
  - assert (~ costBasisMissing (acquisitionPriceGun input)) as Hpresent.
    { intros Hc. apply validAcquisition_false in Hc. congruence. }
    split; [|split; [done|]].
    { split; [|done]. repeat case_match; done. }
    intros marketReference [= <-]. split; [|split].
    + split; [repeat case_match; done | done].
    + done.
    + intros a Ha _. rewrite Ha. simpl.
      set (pnlRatio := ((m - a) / Math_max a 1e-9)%float).
      split; [done|]. split; [done|].
      split; [intros ->; done|].
      split; [|split].
      * intros Hup. rewrite (deadband_up _ Hup), Hup. done.
      * intros Hdown. destruct (deadband_down _ Hdown) as [-> ->]. done.
      * repeat case_match; auto.
  - apply validAcquisition_false in Hv.
    split; [done|]. split; [done|].
    intros marketReference [= <-]. split; [done|]. split; [done|].
    intros a Ha Hn. rewrite Ha in Hv. done.
Qed.

(** C3, as stated, fails: an acquisition price of [+Infinity] is not a finite
    number, yet with a listing of 100..100 the state is [DOWN] (with a NaN
    ratio), not [NO_COST_BASIS]. *)
Lemma infinite_acquisition_is_not_NO_COST_BASIS :
  let input := {| acquisitionPriceGun := JsVal PrimFloat.infinity;
                  priceLow := JsVal 100%float;
                  priceHigh := JsVal 100%float |} in
  PrimFloat.is_finite PrimFloat.infinity = false /\
  marketRefGun (getPositionLabel input) = Some 100%float /\
  state (getPositionLabel input) <> NO_COST_BASIS /\
  getPositionLabel input =
    {| state := DOWN; pnlPct := Some PrimFloat.nan;
       pnlGun := Some PrimFloat.neg_infinity;
       marketRefGun := Some 100%float; dataQuality := Some strong |}.
Proof. vm_compute. repeat split; done. Qed.

Lemma dataQuality_both_present (input : GetPositionLabelInput) (low high : float) :
  priceLow input = JsVal low -> priceHigh input = JsVal high ->
  hasBound (priceLow input) = true -> hasBound (priceHigh input) = true ->
  dataQuality (getPositionLabel input) =
    let spreadRatio := ((high - low) / Math_max low 1e-9)%float in
    if (spreadRatio <=? 0.25)%float then Some strong
    else if (spreadRatio <=? 0.60)%float then Some fair
    else Some limited.
Proof.
  intros Hl Hh Pl Ph. unfold getPositionLabel.
  rewrite Pl, Ph, Hl, Hh. simpl.
  destruct (negb (validAcquisition (acquisitionPriceGun input))); reflexivity.
Qed.

(** C6: data quality is non-null exactly when both bounds are present, and
    is then read off [spreadRatio = (high - low) / max(low, 1e-9)]: [strong]
    up to 0.25, [fair] above 0.25 and up to 0.60, [limited] above 0.60; the
    listing 90..110 has a spread ratio of about 0.222 and is [strong]. *)
Theorem dataQuality_from_spreadRatio (input : GetPositionLabelInput) :
  let r := getPositionLabel input in
  (dataQuality r <> None <->
     hasBound (priceLow input) = true /\ hasBound (priceHigh input) = true) /\
  (forall low high,
     priceLow input = JsVal low -> priceHigh input = JsVal high ->
     hasBound (priceLow input) = true -> hasBound (priceHigh input) = true ->
     let spreadRatio := ((high - low) / Math_max low 1e-9)%float in
     ((spreadRatio <=? 0.25)%float = true -> dataQuality r = Some strong) /\
     (gtb spreadRatio 0.25 = true -> (spreadRatio <=? 0.60)%float = true ->
        dataQuality r = Some fair) /\
     (gtb spreadRatio 0.60 = true -> dataQuality r = Some limited)) /\
  (let spreadRatio := ((110 - 90) / Math_max 90 1e-9)%float in
   (0.222 <? spreadRatio)%float = true /\ (spreadRatio <? 0.223)%float = true /\
   getPositionLabel {| acquisitionPriceGun := JsVal 100%float;
                       priceLow := JsVal 90%float;
                       priceHigh := JsVal 110%float |}
   = {| state := FLAT; pnlPct := Some 0%float; pnlGun := Some 0%float;
        marketRefGun := Some 100%float; dataQuality := Some strong |}).
Proof.
  split; [|split].
  - unfold getPositionLabel.
    destruct (hasBound (priceLow input)), (hasBound (priceHigh input)); simpl;
      try (split; [intros H; exfalso; apply H|intros [? ?]; try done];
           repeat case_match; done).
    split; [done|intros _].
    destruct (negb (validAcquisition (acquisitionPriceGun input)));
      simpl; repeat case_match; done.
  - intros low high Hl Hh Pl Ph spreadRatio.
    rewrite (dataQuality_both_present input low high Hl Hh Pl Ph).
    cbv zeta. fold spreadRatio.
    split; [intros ->; done|]. split.
    + intros Hgt Hle. rewrite Hle.
      assert ((spreadRatio <=? 0.25)%float = false) as -> by float_order. done.
    + intros Hgt.
      assert ((spreadRatio <=? 0.25)%float = false) as -> by float_order.
      assert ((spreadRatio <=? 0.60)%float = false) as -> by float_order. done.
  - vm_compute. repeat split; done.
Qed.

(** The sibling helper [calculateDataQuality] guards the division with
    [0.0001], not [1e-9]: it agrees with the label on the listing 90..110
    and differs from it on the listing 0..0.00001. *)
Remark calculateDataQuality_epsilon :
  calculateDataQuality (Some 90%float) (Some 110%float) = Some strong /\
  calculateDataQuality (Some 0%float) (Some 0.00001%float) = Some strong /\
  dataQuality (getPositionLabel {| acquisitionPriceGun := JsNull;
                                   priceLow := JsVal 0%float;
                                   priceHigh := JsVal 0.00001%float |})
  = Some limited.
Proof. vm_compute. repeat split; reflexivity. Qed.

(** The deadband is symmetric: ratios of +0.029 and -0.029 are [FLAT],
    +0.031 is [UP] and -0.031 is [DOWN]. *)
Example deadband_symmetry :
  let label ref :=
    getPositionLabel {| acquisitionPriceGun := JsVal 1000%float;
                        priceLow := JsVal ref; priceHigh := JsVal ref |} in
  (pnlPct (label 1029%float) = Some 0.029%float /\ state (label 1029%float) = FLAT) /\
  (pnlPct (label 971%float) = Some (-0.029)%float /\ state (label 971%float) = FLAT) /\
  (pnlPct (label 1031%float) = Some 0.031%float /\ state (label 1031%float) = UP) /\
  (pnlPct (label 969%float) = Some (-0.031)%float /\ state (label 969%float) = DOWN).
Proof. vm_compute. repeat split; reflexivity. Qed.

(** C10: a listing bound that is null, undefined, NaN or strictly negative
    is absent.  The label does not depend on it; an input whose only
    supplied bound is negative is [NO_MARKET_REF] with null data quality;
    and data quality is non-null only when both bounds are numbers [>= 0]. *)
Theorem absent_bound_is_ignored
    (acquisition low high : Nullable float) :
  let label low high :=
    getPositionLabel {| acquisitionPriceGun := acquisition;
                        priceLow := low; priceHigh := high |} in
  (hasBound low = false <-> absentBound low) /\
  (hasBound high = false <-> absentBound high) /\
  (absentBound low -> label low high = label JsNull high) /\
  (absentBound high -> label low high = label low JsNull) /\
  (forall x, (x <? 0)%float = true ->
     label (JsVal x) JsNull =
       {| state := NO_MARKET_REF; pnlPct := None; pnlGun := None;
          marketRefGun := None; dataQuality := None |} /\
     label (JsVal x) JsUndefined = label (JsVal x) JsNull /\
     label JsNull (JsVal x) = label (JsVal x) JsNull /\
     label JsUndefined (JsVal x) = label (JsVal x) JsNull) /\
  (dataQuality (label low high) <> None ->
     exists l h, low = JsVal l /\ high = JsVal h /\
                 geb l 0 = true /\ geb h 0 = true).
Proof.
  assert (forall l h, hasBound l = false ->
            getPositionLabel {| acquisitionPriceGun := acquisition;
                                priceLow := l; priceHigh := h |} =
            getPositionLabel {| acquisitionPriceGun := acquisition;
                                priceLow := JsNull; priceHigh := h |}) as Hlow.
  { intros l h Hl. unfold getPositionLabel. simpl. rewrite Hl. reflexivity. }
  assert (forall l h, hasBound h = false ->
            getPositionLabel {| acquisitionPriceGun := acquisition;
                                priceLow := l; priceHigh := h |} =
            getPositionLabel {| acquisitionPriceGun := acquisition;
                                priceLow := l; priceHigh := JsNull |}) as Hhigh.
  { intros l h Hh. unfold getPositionLabel. simpl. rewrite Hh.
    rewrite !andb_false_r. reflexivity. }
  simpl.
  split; [apply hasBound_false|]. split; [apply hasBound_false|].
  split; [intros H; apply Hlow, hasBound_false, H|].
  split; [intros H; apply Hhigh, hasBound_false, H|].
  split.
  - intros x Hx.
    assert (hasBound (JsVal x) = false) as Hb.
    { apply hasBound_false. right; right. eauto. }
    split; [rewrite Hlow by done; reflexivity|].
    split; [rewrite (Hlow (JsVal x) JsUndefined), (Hlow (JsVal x) JsNull) by done;
            reflexivity|].
    split; [rewrite (Hhigh JsNull (JsVal x)), (Hlow (JsVal x) JsNull) by done;
            reflexivity|].
    rewrite (Hhigh JsUndefined (JsVal x)), (Hlow (JsVal x) JsNull) by done.
    reflexivity.
  - intros Hq.
    destruct (hasBound low) eqn:Hl.
    + destruct (hasBound high) eqn:Hh.
      * apply hasBound_true in Hl as (l & -> & Hl).
        apply hasBound_true in Hh as (h & -> & Hh). eauto 10.
      * exfalso. apply Hq. rewrite Hhigh by done.
        unfold getPositionLabel. simpl. rewrite andb_false_r.
        repeat case_match; done.
    + exfalso. apply Hq. rewrite Hlow by done.
      unfold getPositionLabel. simpl. repeat case_match; done.
Qed.

End PositionFacts.

(** ** Properties of the timestamp normaliser *)

Module MarketplaceFacts.
Import JsNumber Marketplace Reconcile.

(** A value of a shape [toIsoString] has no branch for. *)
Definition unrecognizedShape (v : JsValue) : bool :=
  match v with
  | VBoolean _ | VBigInt _ | VObject None | VSymbolOrFunction => true
  | _ => false
  end.

(** A timestamp field that is absent from the API record. *)
Definition missingField (v : JsValue) : bool :=
  match v with
  | VUndefined | VNull => true
  | _ => false
  end.

Lemma toIsoString_falsy (Date_parse : string -> option Z) (now : Z) (v : JsValue) :
  truthy v = false -> toIsoString Date_parse now v = now.
Proof. intros H. unfold toIsoString. rewrite H. reflexivity. Qed.

(** Seconds and milliseconds are told apart at ten billion; a number too
    large for a date, like a NaN, falls back to the current time. *)
Example toIsoString_numbers (Date_parse : string -> option Z) (now : Z) :
  toIsoString Date_parse now (VNumber 1700000000) = 1700000000000 /\
  toIsoString Date_parse now (VNumber 1700000000123) = 1700000000123 /\
  toIsoString Date_parse now (VNumber 1700000000.9) = 1700000000900 /\
  toIsoString Date_parse now (VObject (Some 1700000000%float)) = 1700000000000 /\
  toIsoString Date_parse now (VNumber 8640000000000001) = now /\
  toIsoString Date_parse now (VNumber PrimFloat.nan) = now /\
  toIsoString Date_parse now (VNumber 0) = now.
Proof. vm_compute. repeat split. Qed.

(** C9: the normaliser is total and never reports a missing timestamp.  It
    returns the current time for null, undefined, an unparseable string, an
    invalid Date and every unrecognized shape; whatever the input, the
    result is the current time or the time the input carries; and a purchase
    whose API record has no timestamp field carries the fetch time into the
    time-window test. *)
Theorem toIsoString_defaults_to_now
    (Date_parse : string -> option Z) (now : Z) :
  let toIso := toIsoString Date_parse now in
  toIso VNull = now /\
  toIso VUndefined = now /\
  (forall s, Date_parse s = None -> toIso (VString s) = now) /\
  toIso (VDate None) = now /\
  (forall v, unrecognizedShape v = true -> toIso v = now) /\
  (forall v,
     toIso v = now \/
     (exists s, v = VString s /\ Date_parse s = Some (toIso v)) \/
     v = VDate (Some (toIso v)) \/
     (exists x, v = VNumber x /\
                TimeClip (if gtb x 10000000000 then x else (x * 1000)%float)
                = Some (toIso v)) \/
     (exists seconds, v = VObject (Some seconds) /\
                      TimeClip (seconds * 1000)%float = Some (toIso v))) /\
  (forall (api : ApiPurchaseDates) (p : MarketplacePurchase) (acquiredAt : Z),
     missingField (purchaseDate api) = true ->
     missingField (timestamp api) = true ->
     missingField (createdAt api) = true ->
     purchaseDateIso p = purchaseDateIsoOf Date_parse now api ->
     purchaseDateIso p = now /\
     inTimeWindow acquiredAt p = (Z.abs (now - acquiredAt) <=? TIME_WINDOW_MS)).
Proof.
  cbv zeta.
  split; [reflexivity|]. split; [reflexivity|].
  split.
  { intros s Hs. unfold toIsoString.
    destruct (negb (truthy (VString s))); [reflexivity|]. rewrite Hs. reflexivity. }
  split; [reflexivity|].
  split.
  { intros v Hv. unfold toIsoString.
    destruct v as [| |b|x|n|s|t|[seconds|]|]; try discriminate;
      destruct (negb (truthy _)); reflexivity. }
  split.
  { intros v. unfold toIsoString.
    destruct (negb (truthy v)); [left; reflexivity|].
    destruct v as [| |b|x|n|s|[t|]|[seconds|]|]; simpl;
      try (left; reflexivity).
    - set (ms := if gtb x 10000000000 then x else (x * 1000)%float).
      destruct (TimeClip ms) as [t|] eqn:E; simpl; [|left; reflexivity].
      right; right; right; left. exists x. split; [reflexivity|exact E].
    - destruct (Date_parse s) as [t|] eqn:E; simpl; [|left; reflexivity].
      right; left. exists s. split; [reflexivity|exact E].
    - right; right; left. reflexivity.
    - destruct (TimeClip (seconds * 1000)%float) as [t|] eqn:E; simpl;
        [|left; reflexivity].
      right; right; right; right. exists seconds. split; [reflexivity|exact E]. }
  intros api p acquiredAt H1 H2 H3 Hp.
  assert (purchaseDateIso p = now) as Hnow.
  { rewrite Hp. unfold purchaseDateIsoOf. apply toIsoString_falsy.
    destruct (purchaseDate api), (timestamp api), (createdAt api);
      try discriminate; reflexivity. }
  split; [exact Hnow|].
  unfold inTimeWindow, timeDiff. rewrite Hnow. reflexivity.
Qed.

End MarketplaceFacts.

(** ** Properties of the dedupe filter *)

Module DedupeFacts.
Import Marketplace Reconcile.

(** Numbers print as a template literal prints them. *)
Example numberToString_samples :
  map JsNumber.numberToString
      [5; 0.1; 0.5; 123.456; 1e21; 1e-7; 0.000001; 0.1 + 0.2; -0.03;
       9007199254740992; 5e-324; PrimFloat.nan; PrimFloat.infinity; -0]%float
  = ["5"; "0.1"; "0.5"; "123.456"; "1e+21"; "1e-7"; "0.000001";
     "0.30000000000000004"; "-0.03"; "9007199254740992"; "5e-324"; "NaN";
     "Infinity"; "0"]%string.
Proof. vm_compute. reflexivity. Qed.

Lemma alreadySeen_true (seen : gset string) (keys : list string) :
  alreadySeen seen keys = true <->
  exists key, key ∈ keys /\ JsString.truthy key = true /\ key ∈ seen.
Proof.
  unfold alreadySeen. rewrite existsb_exists. split.
  - intros (key & Hin & H). apply andb_true_iff in H as [Ht Hs].
    apply bool_decide_eq_true in Hs. apply list_elem_of_In in Hin. eauto.
  - intros (key & Hin & Ht & Hs). exists key. split.
    + apply list_elem_of_In, Hin.
    + apply andb_true_iff. split; [exact Ht|]. apply bool_decide_eq_true, Hs.
Qed.

Lemma elem_of_addKeys (seen : gset string) (keys : list string) (key : string) :
  key ∈ addKeys seen keys <->
  key ∈ seen \/ (key ∈ keys /\ JsString.truthy key = true).
Proof.
  unfold addKeys. revert seen.
  induction keys as [|k keys IH]; intros seen; simpl.
  - split; [auto|]. intros [H|[H _]]; [exact H|]. inversion H.
  - rewrite IH. destruct (JsString.truthy k) eqn:Hk.
    + rewrite elem_of_union, elem_of_singleton, elem_of_cons.
      intuition (subst; auto).
    + rewrite elem_of_cons. intuition (subst; auto; congruence).
Qed.

Lemma compositeKey_truthy (p : MarketplacePurchase) :
  JsString.truthy (compositeKey p) = true.
Proof. unfold compositeKey. destruct (tokenKey p); reflexivity. Qed.

(** The keys of a purchase are its truthy identifiers and its composite key. *)
Lemma elem_of_dedupeKeys (p : MarketplacePurchase) (key : string) :
  key ∈ dedupeKeys p <->
  JsString.truthy key = true /\
  (key = purchaseId p \/ txHash p = Some key \/ orderId p = Some key
   \/ key = compositeKey p).
Proof.
  unfold dedupeKeys. rewrite list_elem_of_omap. split.
  - intros (k & Hin & Hk). simpl in Hk. subst k.
    apply list_elem_of_In, filter_In in Hin as [Hin Ht].
    split; [exact Ht|]. simpl in Hin.
    destruct Hin as [H|[H|[H|[H|[]]]]]; simplify_eq; auto.
  - intros (Ht & H). exists (Some key). split; [|reflexivity].
    apply list_elem_of_In, filter_In. split; [|exact Ht]. simpl.
    destruct H as [-> | [-> | [-> | ->]]]; auto.
Qed.

Lemma dedupeKeys_truthy (p : MarketplacePurchase) (key : string) :
  key ∈ dedupeKeys p -> JsString.truthy key = true.
Proof. intros H. apply elem_of_dedupeKeys in H. tauto. Qed.

Lemma alreadySeen_false (seen : gset string) (p : MarketplacePurchase) :
  alreadySeen seen (dedupeKeys p) = false <->
  forall key, key ∈ dedupeKeys p -> key ∉ seen.
Proof.
  split.
  - intros H key Hin Hs.
    assert (alreadySeen seen (dedupeKeys p) = true); [|congruence].
    apply alreadySeen_true. eauto using dedupeKeys_truthy.
  - intros H. destruct (alreadySeen seen (dedupeKeys p)) eqn:E; [|reflexivity].
    apply alreadySeen_true in E as (key & Hin & _ & Hs). destruct (H key Hin Hs).
Qed.

Lemma elem_of_addKeys_dedupeKeys (seen : gset string) (p : MarketplacePurchase)
    (key : string) :
  key ∈ addKeys seen (dedupeKeys p) <-> key ∈ seen \/ key ∈ dedupeKeys p.
Proof.
  rewrite elem_of_addKeys. split.
  - intros [H|[H _]]; auto.
  - intros [H|H]; eauto using dedupeKeys_truthy.
Qed.

(** Every purchase of the list passes the filter started from [seen]. *)
Fixpoint allUnseen (seen : gset string) (purchases : list MarketplacePurchase) : Prop :=
  match purchases with
  | [] => True
  | p :: rest =>
      alreadySeen seen (dedupeKeys p) = false /\
      allUnseen (addKeys seen (dedupeKeys p)) rest
  end.

Lemma filterUnseen_allUnseen (seen : gset string) (purchases : list MarketplacePurchase) :
  allUnseen seen (filterUnseen seen purchases).
Proof.
  revert seen. induction purchases as [|p rest IH]; intros seen; simpl; [exact I|].
  unfold keepPurchase.
  destruct (alreadySeen seen (dedupeKeys p)) eqn:E; simpl; [apply IH|].
  split; [exact E|apply IH].
Qed.

Lemma filterUnseen_fixed (seen : gset string) (purchases : list MarketplacePurchase) :
  allUnseen seen purchases -> filterUnseen seen purchases = purchases.
Proof.
  revert seen. induction purchases as [|p rest IH]; intros seen; simpl; [reflexivity|].
  intros [E H]. unfold keepPurchase. rewrite E. f_equal. apply IH, H.
Qed.

(** C8: dedupe is idempotent; deduplicating a deduplicated list gives the
    same list. *)
Theorem dedupePurchases_idempotent (allPurchases : list MarketplacePurchase) :
  dedupePurchases (dedupePurchases allPurchases) = dedupePurchases allPurchases.
Proof.
  unfold dedupePurchases. apply filterUnseen_fixed, filterUnseen_allUnseen.
Qed.

(** *** No two kept records share a key *)

Lemma addKeys_subseteq (seen : gset string) (p : MarketplacePurchase) :
  seen ⊆ addKeys seen (dedupeKeys p).
Proof. intros key H. apply elem_of_addKeys_dedupeKeys. auto. Qed.

Lemma keepPurchase_subseteq (seen : gset string) (p : MarketplacePurchase) :
  seen ⊆ (keepPurchase seen p).2.
Proof.
  unfold keepPurchase. destruct (alreadySeen seen (dedupeKeys p)); simpl;
    [reflexivity|apply addKeys_subseteq].
Qed.

(** A kept purchase has no key in the set the filter started from. *)
Lemma keptFlags_unseen (purchases : list MarketplacePurchase) (seen : gset string)
    (j : nat) (q : MarketplacePurchase) (key : string) :
  purchases !! j = Some q -> keptFlags seen purchases !! j = Some true ->
  key ∈ dedupeKeys q -> key ∉ seen.
Proof.
  revert seen j. induction purchases as [|p rest IH]; intros seen j Hq Hk Hin;
    [discriminate|].
  simpl in Hk. destruct (keepPurchase seen p) as [keep seen'] eqn:E.
  destruct j as [|j]; simpl in *.
  - simplify_eq. unfold keepPurchase in E.
    destruct (alreadySeen seen (dedupeKeys q)) eqn:Hs; simplify_eq.
    eapply alreadySeen_false; eauto.
  - intros Hseen. eapply (IH seen' j); eauto.
    pose proof (keepPurchase_subseteq seen p) as Hsub. rewrite E in Hsub.
    apply Hsub, Hseen.
Qed.

(** Two purchases with a common key are never both kept. *)
Lemma keptFlags_exclusive (purchases : list MarketplacePurchase) (seen : gset string)
    (i j : nat) (p q : MarketplacePurchase) (key : string) :
  (i < j)%nat -> purchases !! i = Some p -> purchases !! j = Some q ->
  key ∈ dedupeKeys p -> key ∈ dedupeKeys q ->
  ~ (keptFlags seen purchases !! i = Some true /\
     keptFlags seen purchases !! j = Some true).
Proof.
  revert seen i j. induction purchases as [|x rest IH]; intros seen i j Hij Hp Hq Kp Kq;
    [discriminate|].
  simpl. destruct (keepPurchase seen x) as [keep seen'] eqn:E.
  destruct j as [|j]; [lia|]. destruct i as [|i]; simpl in *.
  - simplify_eq. intros [[= ->] Hj]. unfold keepPurchase in E.
    destruct (alreadySeen seen (dedupeKeys p)); simplify_eq.
    eapply (keptFlags_unseen rest _ j q key); eauto.
    apply elem_of_addKeys_dedupeKeys. auto.
  - apply (IH seen' i j); auto. lia.
Qed.

(** The filter keeps exactly the elements the callback said [true] for. *)
Lemma filterUnseen_keptFlags (seen : gset string) (purchases : list MarketplacePurchase) :
  filterUnseen seen purchases =
  zip purchases (keptFlags seen purchases)
    ≫= (fun x : MarketplacePurchase * bool => if x.2 then [x.1] else []).
Proof.
  revert seen. induction purchases as [|p rest IH]; intros seen; [reflexivity|].
  simpl. destruct (keepPurchase seen p) as [[|] seen']; simpl; rewrite IH;
    reflexivity.
Qed.

Lemma allUnseen_weaken (seen seen' : gset string) (purchases : list MarketplacePurchase) :
  seen ⊆ seen' -> allUnseen seen' purchases -> allUnseen seen purchases.
Proof.
  revert seen seen'. induction purchases as [|p rest IH]; intros seen seen' Hsub;
    simpl; [auto|].
  intros [E H]. split.
  - apply alreadySeen_false. intros key Hin Hs.
    eapply alreadySeen_false; eauto.
  - eapply IH; [|exact H]. intros key Hk.
    apply elem_of_addKeys_dedupeKeys. apply elem_of_addKeys_dedupeKeys in Hk.
    destruct Hk; auto.
Qed.

Lemma allUnseen_fresh (seen : gset string) (purchases : list MarketplacePurchase)
    (q : MarketplacePurchase) (key : string) :
  allUnseen seen purchases -> q ∈ purchases -> key ∈ dedupeKeys q -> key ∉ seen.
Proof.
  revert seen. induction purchases as [|p rest IH]; intros seen H Hq Hk;
    [inversion Hq|].
  destruct H as [E H]. apply elem_of_cons in Hq as [->|Hq].
  - eapply alreadySeen_false; eauto.
  - intros Hs. eapply (IH _ H Hq Hk). apply elem_of_addKeys_dedupeKeys. auto.
Qed.

Lemma allUnseen_disjoint (seen : gset string) (purchases : list MarketplacePurchase)
    (i j : nat) (p q : MarketplacePurchase) (key : string) :
  allUnseen seen purchases -> i <> j ->
  purchases !! i = Some p -> purchases !! j = Some q ->
  key ∈ dedupeKeys p -> key ∉ dedupeKeys q.
Proof.
  assert (forall purchases seen i j p q key,
            allUnseen seen purchases -> (i < j)%nat ->
            purchases !! i = Some p -> purchases !! j = Some q ->
            key ∈ dedupeKeys p -> key ∉ dedupeKeys q) as Hlt.
  { clear. intros purchases.
    induction purchases as [|x rest IH]; intros seen i j p q key H Hij Hp Hq Kp Kq;
      [discriminate|].
    destruct H as [E H]. destruct j as [|j]; [lia|].
    destruct i as [|i]; simpl in *.
    - simplify_eq.
      eapply (allUnseen_fresh _ rest q key H); eauto.
      + eapply list_elem_of_lookup_2, Hq.
      + apply elem_of_addKeys_dedupeKeys. auto.
    - eapply (IH _ i j); eauto. lia. }
  intros H Hij Hp Hq Kp Kq.
  destruct (decide (i < j)%nat).
  - eapply (Hlt purchases seen i j p q key); eauto.
  - eapply (Hlt purchases seen j i q p key); eauto. lia.
Qed.

(** Two purchases are the same purchase for the filter: they have the same
    non-empty [purchaseId], [txHash] or [orderId], or the same token key,
    purchase time (in milliseconds) and price. *)
Definition sharesKey (p q : MarketplacePurchase) : Prop :=
  (purchaseId p = purchaseId q /\ purchaseId p <> ""%string) \/
  (exists tx, txHash p = Some tx /\ txHash q = Some tx /\ tx <> ""%string) \/
  (exists order, orderId p = Some order /\ orderId q = Some order /\ order <> ""%string) \/
  (tokenKey p = tokenKey q /\ purchaseDateIso p = purchaseDateIso q /\
   priceGun p = priceGun q).

(** The composite key as the specification words it: the purchase time
    truncated to the second. *)
Definition toTheSecond (timeValue : Z) : Z := Z.quot timeValue 1000.

Definition sharesCompositeKeyToTheSecond (p q : MarketplacePurchase) : Prop :=
  tokenKey p = tokenKey q /\
  toTheSecond (purchaseDateIso p) = toTheSecond (purchaseDateIso q) /\
  priceGun p = priceGun q.

Lemma truthy_nonempty (s : string) : s <> ""%string -> JsString.truthy s = true.
Proof.
  intros H. unfold JsString.truthy. apply negb_true_iff.
  apply String.eqb_neq, H.
Qed.

Lemma sharesKey_common_key (p q : MarketplacePurchase) :
  sharesKey p q -> exists key, key ∈ dedupeKeys p /\ key ∈ dedupeKeys q.
Proof.
  intros [[E Hne]|[(tx & Hp & Hq & Hne)|[(order & Hp & Hq & Hne)|(Ht & Hd & Hg)]]].
  - exists (purchaseId p). split; apply elem_of_dedupeKeys;
      (split; [apply truthy_nonempty, Hne|auto]).
  - exists tx. split; apply elem_of_dedupeKeys;
      (split; [apply truthy_nonempty, Hne|auto]).
  - exists order. split; apply elem_of_dedupeKeys;
      (split; [apply truthy_nonempty, Hne|auto]).
  - exists (compositeKey p). split; apply elem_of_dedupeKeys;
      (split; [apply compositeKey_truthy|]).
    + auto.
    + right; right; right. unfold compositeKey. rewrite Ht, Hd, Hg. reflexivity.
Qed.

Definition purchaseA : MarketplacePurchase :=
  {| purchaseId := "A"; tokenKey := "gunz:0xabc:1"; buyerAddress := "0xb0b";
     priceGun := 5; priceUsd := None; purchaseDateIso := 1700000000100;
     txHash := None; orderId := None |}.

Definition purchaseB : MarketplacePurchase :=
  {| purchaseId := "B"; tokenKey := "gunz:0xabc:1"; buyerAddress := "0xb0b";
     priceGun := 5; priceUsd := None; purchaseDateIso := 1700000000900;
     txHash := None; orderId := None |}.

(** The keys the filter builds for [purchaseA]. *)
Example dedupeKeys_purchaseA :
  dedupeKeys purchaseA = ["A"; "gunz:0xabc:1:1700000000100:5"]%string.
Proof. vm_compute. reflexivity. Qed.

(** C7 (as amended): the deduplicated list is the input with the records
    the callback rejected left out; no two of its records share a non-empty
    [purchaseId], [txHash] or [orderId], or the composite key of token key,
    purchase time in milliseconds and price; and two input records that
    share such a key are never both kept: a pair of them collapses to its
    first record. *)
Theorem dedupePurchases_no_shared_key (allPurchases : list MarketplacePurchase) :
  let deduped := dedupePurchases allPurchases in
  let kept := keptFlags ∅ allPurchases in
  deduped = (zip allPurchases kept
               ≫= (fun x : MarketplacePurchase * bool => if x.2 then [x.1] else [])) /\
  (forall i j p q, i <> j -> deduped !! i = Some p -> deduped !! j = Some q ->
     ~ sharesKey p q) /\
  (forall i j p q, (i < j)%nat ->
     allPurchases !! i = Some p -> allPurchases !! j = Some q -> sharesKey p q ->
     ~ (kept !! i = Some true /\ kept !! j = Some true)) /\
  (forall p q, sharesKey p q -> dedupePurchases [p; q] = [p]).
Proof.
  cbv zeta. split; [apply filterUnseen_keptFlags|]. split; [|split].
  - intros i j p q Hij Hp Hq Hshare.
    apply sharesKey_common_key in Hshare as (key & Kp & Kq).
    eapply (allUnseen_disjoint ∅ (dedupePurchases allPurchases) i j p q key); eauto.
    apply filterUnseen_allUnseen.
  - intros i j p q Hij Hp Hq Hshare.
    apply sharesKey_common_key in Hshare as (key & Kp & Kq).
    eapply keptFlags_exclusive; eauto.
  - intros p q Hshare.
    apply sharesKey_common_key in Hshare as (key & Kp & Kq).
    unfold dedupePurchases. simpl. unfold keepPurchase.
    assert (alreadySeen ∅ (dedupeKeys p) = false) as ->.
    { apply alreadySeen_false. intros k _. apply not_elem_of_empty. }
    assert (alreadySeen (addKeys ∅ (dedupeKeys p)) (dedupeKeys q) = true) as ->.
    { apply alreadySeen_true. exists key.
      split; [exact Kq|]. split; [eapply dedupeKeys_truthy, Kq|].
      apply elem_of_addKeys_dedupeKeys. auto. }
    reflexivity.
Qed.

(** C7, as stated, fails: two purchases of one token at one price, 100 ms
    and 900 ms into the same second, share the composite key to the second,
    and both are kept. *)
Lemma same_second_purchases_are_both_kept :
  sharesCompositeKeyToTheSecond purchaseA purchaseB /\
  dedupePurchases [purchaseA; purchaseB] = [purchaseA; purchaseB].
Proof.
  split.
  - repeat split.
  - vm_compute. reflexivity.
Qed.

(** The scenario of the specification: two records with the same [txId]
    collapse to the first. *)
Example shared_txHash_collapses :
  let a := {| purchaseId := "A"; tokenKey := "gunz:0xabc:1"; buyerAddress := "";
              priceGun := 5; priceUsd := None; purchaseDateIso := 1700000000000;
              txHash := Some "0xT1"%string; orderId := None |} in
  let b := {| purchaseId := "B"; tokenKey := "gunz:0xabc:1"; buyerAddress := "";
              priceGun := 7; priceUsd := None; purchaseDateIso := 1700000600000;
              txHash := Some "0xT1"%string; orderId := None |} in
  dedupePurchases [a; b] = [a].
Proof. vm_compute. reflexivity. Qed.

End DedupeFacts.

(** ** Properties of the matcher *)

Module MatchFacts.
Import Marketplace Reconcile.

(** The order the matcher follows: identity matches first, then the
    smaller distance to the acquisition time. *)
Definition sortKey (viewerWalletLower currentOwnerLower : string) (acquiredAt : Z)
    (p : MarketplacePurchase) : Z * Z :=
  (if identityMatch viewerWalletLower currentOwnerLower p then 0 else 1,
   timeDiff acquiredAt p).

Definition keyLt (x y : Z * Z) : Prop := x.1 < y.1 \/ (x.1 = y.1 /\ x.2 < y.2).
Definition keyLe (x y : Z * Z) : Prop := x.1 < y.1 \/ (x.1 = y.1 /\ x.2 <= y.2).

(** [r] is the first element of [l] that is least for [key]. *)
Definition firstLeast (key : MarketplacePurchase -> Z * Z)
    (l : list MarketplacePurchase) (r : MarketplacePurchase) : Prop :=
  exists before after,
    l = before ++ r :: after /\
    (forall c, c ∈ before -> keyLt (key r) (key c)) /\
    (forall c, c ∈ after -> keyLe (key r) (key c)).

Lemma firstLeast_elem (key : MarketplacePurchase -> Z * Z) l r :
  firstLeast key l r -> r ∈ l.
Proof. intros (before & after & -> & _). set_solver. Qed.

Lemma firstLeast_least (key : MarketplacePurchase -> Z * Z) l r c :
  firstLeast key l r -> c ∈ l -> keyLe (key r) (key c).
Proof.
  intros (before & after & -> & Hb & Ha) Hc.
  apply elem_of_app in Hc as [Hc|Hc].
  - specialize (Hb c Hc). unfold keyLt, keyLe in *. lia.
  - apply elem_of_cons in Hc as [->|Hc]; [|auto].
    unfold keyLe. lia.
Qed.

(** The reduction keeps the first purchase closest in time. *)
Lemma reduceClosest_firstLeast (acquiredAt : Z) (first : MarketplacePurchase)
    (rest : list MarketplacePurchase) :
  firstLeast (fun p => (0, timeDiff acquiredAt p)) (first :: rest)
             (reduceClosest acquiredAt first rest).
Proof.
  unfold reduceClosest.
  induction rest as [|x rest IH] using rev_ind.
  - exists [], []. simpl. split; [reflexivity|]. split; intros c Hc; inversion Hc.
  - rewrite fold_left_app. simpl.
    set (r := fold_left (closer acquiredAt) rest first) in *.
    destruct IH as (before & after & Hl & Hb & Ha).
    unfold closer. destruct (Z.ltb_spec (timeDiff acquiredAt x) (timeDiff acquiredAt r)).
    + exists (first :: rest), []. split; [reflexivity|].
      split; [|intros c Hc; inversion Hc].
      intros c Hc.
      assert (keyLe (0, timeDiff acquiredAt r) (0, timeDiff acquiredAt c)) as Hle.
      { apply (firstLeast_least (fun p => (0, timeDiff acquiredAt p)) (first :: rest));
          [|exact Hc]. exists before, after. auto. }
      unfold keyLt, keyLe in *. simpl in *. lia.
    + exists before, (after ++ [x]). split.
      { rewrite app_comm_cons, Hl, <- app_assoc. reflexivity. }
      split; [exact Hb|].
      intros c Hc. apply elem_of_app in Hc as [Hc|Hc]; [auto|].
      apply list_elem_of_singleton in Hc as ->.
      unfold keyLe. simpl. lia.
Qed.

(** An element of a filtered list sits at a matching place of the list. *)
Lemma filter_split {A} (f : A -> bool) (l : list A) (before' after' : list A) (r : A) :
  List.filter f l = before' ++ r :: after' ->
  exists before after,
    l = before ++ r :: after /\
    List.filter f before = before' /\ List.filter f after = after'.
Proof.
  revert before'. induction l as [|x l IH]; intros before' H; simpl in H.
  - destruct before'; discriminate.
  - destruct (f x) eqn:Hx.
    + destruct before' as [|y before']; simpl in H.
      * injection H as -> Hl. exists [], l. simpl. auto.
      * injection H as -> Hl.
        destruct (IH before' Hl) as (before & after & -> & Hb & Ha).
        exists (y :: before), after. simpl. rewrite Hx, Hb. auto.
    + destruct (IH before' H) as (before & after & -> & Hb & Ha).
      exists (x :: before), after. simpl. rewrite Hx. auto.
Qed.

Lemma filter_nil_all_false {A} (f : A -> bool) (l : list A) (c : A) :
  List.filter f l = [] -> c ∈ l -> f c = false.
Proof.
  intros H Hc. destruct (f c) eqn:E; [|reflexivity].
  assert (In c (List.filter f l)) as Hin.
  { apply filter_In. split; [apply list_elem_of_In, Hc|exact E]. }
  rewrite H in Hin. destruct Hin.
Qed.

Lemma filter_elem {A} (f : A -> bool) (l : list A) (c : A) :
  c ∈ List.filter f l <-> c ∈ l /\ f c = true.
Proof. rewrite !list_elem_of_In. apply filter_In. Qed.

Definition noMatch : MatchResult :=
  {| matchedPurchase := None; marketplaceMatchMethod := matchNone |}.

Lemma matchPurchase_no_candidate (viewerWalletLower currentOwnerLower : string)
    (acquiredAt : Z) (dedupedPurchases : list MarketplacePurchase) :
  List.filter (inTimeWindow acquiredAt) dedupedPurchases = [] ->
  matchPurchase viewerWalletLower currentOwnerLower acquiredAt dedupedPurchases
  = noMatch.
Proof.
  intros H. unfold matchPurchase. rewrite H.
  destruct (0 <? List.length dedupedPurchases)%nat; reflexivity.
Qed.

(** With a candidate in the window, the match is the first candidate that
    is least for [sortKey]. *)
Lemma matchPurchase_firstLeast (viewerWalletLower currentOwnerLower : string)
    (acquiredAt : Z) (dedupedPurchases : list MarketplacePurchase) :
  let candidatesInWindow := List.filter (inTimeWindow acquiredAt) dedupedPurchases in
  candidatesInWindow <> [] ->
  exists r,
    matchPurchase viewerWalletLower currentOwnerLower acquiredAt dedupedPurchases
    = {| matchedPurchase := Some r; marketplaceMatchMethod := matchTimeWindow |} /\
    firstLeast (sortKey viewerWalletLower currentOwnerLower acquiredAt)
               candidatesInWindow r.
Proof.
  intros W HW. unfold matchPurchase. fold W.
  assert ((0 <? List.length dedupedPurchases)%nat = true) as ->.
  { destruct dedupedPurchases; [destruct HW; reflexivity|reflexivity]. }
  set (key := sortKey viewerWalletLower currentOwnerLower acquiredAt).
  set (isMatch := identityMatch viewerWalletLower currentOwnerLower).
  destruct W as [|a [|b rest]] eqn:EW; [destruct HW; reflexivity| |].
  - exists a. split; [reflexivity|].
    exists [], []. split; [reflexivity|]. split; intros c Hc; inversion Hc.
  - rewrite <- EW. clear HW.
    destruct (List.filter isMatch W) as [|firstMatch otherMatches] eqn:EI.
    + (* no identity match: closest by time among all candidates *)
      exists (reduceClosest acquiredAt a (b :: rest)). split; [reflexivity|].
      destruct (reduceClosest_firstLeast acquiredAt a (b :: rest))
        as (before & after & Hl & Hb & Ha).
      exists before, after. rewrite EW. split; [exact Hl|].
      assert (forall c, c ∈ W -> key c = (1, timeDiff acquiredAt c)) as Hkey.
      { intros c Hc. unfold key, sortKey. fold isMatch.
        rewrite (filter_nil_all_false isMatch W c EI Hc). reflexivity. }
      assert (reduceClosest acquiredAt a (b :: rest) ∈ W) as Hr.
      { rewrite EW, Hl. set_solver. }
      split; intros c Hc.
      * rewrite (Hkey _ Hr), (Hkey c) by (rewrite EW, Hl; set_solver).
        specialize (Hb c Hc). unfold keyLt in *. simpl in *. lia.
      * rewrite (Hkey _ Hr), (Hkey c) by (rewrite EW, Hl; set_solver).
        specialize (Ha c Hc). unfold keyLe in *. simpl in *. lia.
    + (* identity matches: closest by time among them *)
      exists (reduceClosest acquiredAt firstMatch otherMatches).
      split; [reflexivity|].
      destruct (reduceClosest_firstLeast acquiredAt firstMatch otherMatches)
        as (before' & after' & Hl & Hb & Ha).
      rewrite <- EI in Hl.
      destruct (filter_split isMatch W before' after' _ Hl)
        as (before & after & HW & Fb & Fa).
      exists before, after. split; [exact HW|].
      set (r := reduceClosest acquiredAt firstMatch otherMatches) in *.
      assert (isMatch r = true) as Hr.
      { assert (r ∈ List.filter isMatch W) as Hin by (rewrite Hl; set_solver).
        apply filter_elem in Hin. tauto. }
      assert (key r = (0, timeDiff acquiredAt r)) as Hkr.
      { unfold key, sortKey. fold isMatch. rewrite Hr. reflexivity. }
      split; intros c Hc; rewrite Hkr; unfold key, sortKey; fold isMatch;
        destruct (isMatch c) eqn:Ec;
        try (unfold keyLt, keyLe; simpl; lia).
      * assert (c ∈ before') as Hc'.
        { rewrite <- Fb. apply filter_elem. auto. }
        specialize (Hb c Hc'). unfold keyLt in *. simpl in *. lia.
      * assert (c ∈ after') as Hc'.
        { rewrite <- Fa. apply filter_elem. auto. }
        specialize (Ha c Hc'). unfold keyLe in *. simpl in *. lia.
Qed.

Lemma filter_Permutation {A} (f : A -> bool) (l l' : list A) :
  l ≡ₚ l' -> List.filter f l ≡ₚ List.filter f l'.
Proof.
  induction 1 as [|x l l' _ IH|x y l|l1 l2 l3 _ IH1 _ IH2]; simpl.
  - reflexivity.
  - destruct (f x); [constructor|]; exact IH.
  - destruct (f x), (f y); try reflexivity. constructor.
  - etransitivity; eauto.
Qed.

(** C2 (as amended): with candidates inside the 10-minute window, the
    matcher returns the first of them ordered by (identity match with the
    viewer wallet or the current owner, descending; absolute distance to
    [acquiredAt], ascending; position in the candidate list, ascending).
    Consequently two permutations of a candidate list get the same match
    when no two candidates in the window tie on identity and distance. *)
Theorem matchPurchase_first_in_order (viewerWalletLower currentOwnerLower : string)
    (acquiredAt : Z) (dedupedPurchases : list MarketplacePurchase) :
  let matcher := matchPurchase viewerWalletLower currentOwnerLower acquiredAt in
  let key := sortKey viewerWalletLower currentOwnerLower acquiredAt in
  let candidatesInWindow := List.filter (inTimeWindow acquiredAt) dedupedPurchases in
  (candidatesInWindow = [] -> matcher dedupedPurchases = noMatch) /\
  (candidatesInWindow <> [] ->
     exists r before after,
       matcher dedupedPurchases =
         {| matchedPurchase := Some r; marketplaceMatchMethod := matchTimeWindow |} /\
       candidatesInWindow = before ++ r :: after /\
       (forall c, c ∈ before -> keyLt (key r) (key c)) /\
       (forall c, c ∈ after -> keyLe (key r) (key c))) /\
  (forall permuted,
     dedupedPurchases ≡ₚ permuted ->
     (forall c1 c2, c1 ∈ candidatesInWindow -> c2 ∈ candidatesInWindow ->
                    key c1 = key c2 -> c1 = c2) ->
     matchedPurchase (matcher permuted) = matchedPurchase (matcher dedupedPurchases)).
Proof.
  cbv zeta. split; [apply matchPurchase_no_candidate|]. split.
  - intros HW.
    destruct (matchPurchase_firstLeast viewerWalletLower currentOwnerLower
                acquiredAt dedupedPurchases HW) as (r & Hr & before & after & H).
    exists r, before, after. tauto.
  - intros permuted Hperm Hties.
    set (W := List.filter (inTimeWindow acquiredAt) dedupedPurchases) in *.
    set (W' := List.filter (inTimeWindow acquiredAt) permuted).
    assert (W ≡ₚ W') as HWW by (apply filter_Permutation, Hperm).
    destruct (decide (W = [])) as [EW|HW].
    + assert (W' = []) as EW'.
      { rewrite EW in HWW. symmetry. apply Permutation_nil_l, HWW. }
      rewrite (matchPurchase_no_candidate _ _ _ permuted EW').
      rewrite (matchPurchase_no_candidate _ _ _ dedupedPurchases EW). reflexivity.
    + assert (W' <> []) as HW'.
      { intros E. rewrite E in HWW. apply Permutation_nil_r in HWW. auto. }
      destruct (matchPurchase_firstLeast viewerWalletLower currentOwnerLower
                  acquiredAt permuted HW') as (r' & -> & Hr').
      destruct (matchPurchase_firstLeast viewerWalletLower currentOwnerLower
                  acquiredAt dedupedPurchases HW) as (r & -> & Hr).
      simpl. f_equal. fold W in Hr. fold W' in Hr'.
      assert (r ∈ W) as Hin by (eapply firstLeast_elem, Hr).
      assert (r' ∈ W') as Hin' by (eapply firstLeast_elem, Hr').
      assert (r' ∈ W) as Hin2 by (rewrite HWW; exact Hin').
      assert (r ∈ W') as Hin3 by (rewrite <- HWW; exact Hin).
      apply Hties; [exact Hin2|exact Hin|].
      pose proof (firstLeast_least _ _ _ _ Hr Hin2) as H1.
      pose proof (firstLeast_least _ _ _ _ Hr' Hin3) as H2.
      set (k := sortKey viewerWalletLower currentOwnerLower acquiredAt) in *.
      destruct (k r) as [x1 y1], (k r') as [x2 y2].
      unfold keyLe in *. simpl in *. f_equal; lia.
Qed.

Definition tieA : MarketplacePurchase :=
  {| purchaseId := "A"; tokenKey := "gunz:0xabc:1"; buyerAddress := "0xb0b";
     priceGun := 5; priceUsd := None; purchaseDateIso := 1700000000000 - 60000;
     txHash := None; orderId := None |}.

Definition tieB : MarketplacePurchase :=
  {| purchaseId := "B"; tokenKey := "gunz:0xabc:1"; buyerAddress := "0xb0b";
     priceGun := 7; priceUsd := None; purchaseDateIso := 1700000000000 + 60000;
     txHash := None; orderId := None |}.

(** The order of the specification: identity match descending, time
    distance ascending, [purchaseId] ascending. *)
Definition specPrecedes (viewerWalletLower currentOwnerLower : string)
    (acquiredAt : Z) (p q : MarketplacePurchase) : bool :=
  let key := sortKey viewerWalletLower currentOwnerLower acquiredAt in
  ((key p).1 <? (key q).1)
  || (((key p).1 =? (key q).1)
      && (((key p).2 <? (key q).2)
          || (((key p).2 =? (key q).2)
              && String.ltb (purchaseId p) (purchaseId q)))).

(** C2, as stated, fails: two candidates one minute before and one minute
    after the acquisition, neither bought by the viewer or the owner, tie on
    identity and distance.  ["A"] precedes ["B"] in the stated order, yet the
    list [B; A] matches [B], and its permutation [A; B] matches [A]. *)
Lemma tie_is_broken_by_list_order :
  let matcher := matchPurchase "0xa11ce" "0xa11ce" 1700000000000 in
  [tieB; tieA] ≡ₚ [tieA; tieB] /\
  dedupePurchases [tieB; tieA] = [tieB; tieA] /\
  List.filter (inTimeWindow 1700000000000) [tieB; tieA] = [tieB; tieA] /\
  specPrecedes "0xa11ce" "0xa11ce" 1700000000000 tieA tieB = true /\
  matchedPurchase (matcher [tieB; tieA]) = Some tieB /\
  matchedPurchase (matcher [tieA; tieB]) = Some tieA /\
  tieA <> tieB.
Proof.
  cbv zeta. split; [apply Permutation_swap|].
  split; [vm_compute; reflexivity|].
  repeat split; discriminate.
Qed.

(** The scenario of the specification: a candidate bought by the viewer 8
    minutes from the acquisition wins over another buyer's candidate 2
    minutes from it. *)
Example identity_tiebreak_beats_time_distance :
  let viewerCandidate :=
    {| purchaseId := "far"; tokenKey := "gunz:0xabc:1"; buyerAddress := "0xA11CE";
       priceGun := 5; priceUsd := None; purchaseDateIso := 1700000000000 + 480000;
       txHash := None; orderId := None |} in
  let otherCandidate :=
    {| purchaseId := "near"; tokenKey := "gunz:0xabc:1"; buyerAddress := "0xb0b";
       priceGun := 5; priceUsd := None; purchaseDateIso := 1700000000000 + 120000;
       txHash := None; orderId := None |} in
  matchPurchase "0xa11ce" "" 1700000000000 [otherCandidate; viewerCandidate]
  = {| matchedPurchase := Some viewerCandidate;
       marketplaceMatchMethod := matchTimeWindow |}.
Proof. reflexivity. Qed.

(** C1 fails on the code: the matcher has no exact-transaction priority.
    It never reports the method [txHash], the acquisition's transaction
    hash is not among its inputs, and a lone candidate outside the time
    window is not matched, whatever transaction hash it carries. *)
Theorem exact_tx_match_is_not_implemented
    (viewerWalletLower currentOwnerLower : string) (acquiredAt : Z) :
  (forall dedupedPurchases,
     marketplaceMatchMethod
       (matchPurchase viewerWalletLower currentOwnerLower acquiredAt dedupedPurchases)
     <> matchTxHash) /\
  (forall p,
     inTimeWindow acquiredAt p = false ->
     matchPurchase viewerWalletLower currentOwnerLower acquiredAt [p] = noMatch) /\
  (let p := {| purchaseId := "A"; tokenKey := "gunz:0xabc:1"; buyerAddress := "0xa11ce";
               priceGun := 5; priceUsd := None;
               purchaseDateIso := 1700000000000 + 11 * 60 * 1000;
               txHash := Some "0xT1"%string; orderId := None |} in
   matchPurchase "0xa11ce" "0xa11ce" 1700000000000 [p] = noMatch).
Proof.
  split; [|split].
  - intros dedupedPurchases. unfold matchPurchase.
    repeat case_match; discriminate.
  - intros p Hp. apply matchPurchase_no_candidate. simpl. rewrite Hp. reflexivity.
  - reflexivity.
Qed.

End MatchFacts.

(** ** Properties of the transfer-history resolver *)

Module AvalancheFacts.
Import Avalanche.

(** Chronological order of logs and of events: by block, then by index. *)
Definition logLe (a b : Log) : Prop :=
  log_blockNumber a < log_blockNumber b \/
  (log_blockNumber a = log_blockNumber b /\ log_index a <= log_index b).

Definition eventLe (a b : TransferEvent) : Prop :=
  blockNumber a < blockNumber b \/
  (blockNumber a = blockNumber b /\ logIndex a <= logIndex b).

Lemma compareLogs_le (a b : Log) : compareLogs a b <= 0 <-> logLe a b.
Proof.
  unfold compareLogs, logLe.
  destruct (Z.eqb_spec (log_blockNumber a) (log_blockNumber b)); simpl; lia.
Qed.

#[local] Instance logLe_trans : Transitive logLe.
Proof. intros a b c. unfold logLe. lia. Qed.

Lemma logLe_total (a b : Log) : logLe a b \/ logLe b a.
Proof. unfold logLe. lia. Qed.

Lemma insertLog_Permutation (x : Log) (l : list Log) : insertLog x l ≡ₚ x :: l.
Proof.
  induction l as [|y l IH]; simpl; [reflexivity|].
  destruct (compareLogs x y <=? 0); [reflexivity|].
  rewrite IH. apply Permutation_swap.
Qed.

Lemma sortLogs_Permutation (l : list Log) : sortLogs l ≡ₚ l.
Proof.
  induction l as [|x l IH]; simpl; [reflexivity|].
  rewrite insertLog_Permutation, IH. reflexivity.
Qed.

Lemma insertLog_StronglySorted (x : Log) (l : list Log) :
  StronglySorted logLe l -> StronglySorted logLe (insertLog x l).
Proof.
  induction 1 as [|y l Hs IH Hy]; simpl.
  - repeat constructor.
  - destruct (Z.leb_spec (compareLogs x y) 0) as [Hxy|Hxy].
    + apply compareLogs_le in Hxy. constructor; [constructor; assumption|].
      constructor; [exact Hxy|].
      eapply Forall_impl; [exact Hy|]. intros z Hz. etransitivity; eauto.
    + constructor; [exact IH|].
      rewrite insertLog_Permutation. constructor; [|exact Hy].
      destruct (logLe_total x y) as [H|H]; [|exact H].
      apply compareLogs_le in H. lia.
Qed.

Lemma sortLogs_StronglySorted (l : list Log) : StronglySorted logLe (sortLogs l).
Proof.
  induction l as [|x l IH]; simpl; [constructor|].
  apply insertLog_StronglySorted, IH.
Qed.



#[local] Instance eventLe_refl : Reflexive eventLe.
Proof. intros a. unfold eventLe. lia. Qed.

(** What the resolver returns once the logs are in: the shape of its
    answer, with the RPC calls of the happy path named. *)
Lemma getNFTTransferHistory_incoming (provider : Provider)
    (gunTokenAddress : option string) (walletAddress : string)
    (logs : list Log) (firstIncoming : TransferEvent) (others : list TransferEvent)
    (history : TransferHistory) :
  transferLogs provider = Returned logs ->
  List.filter (fun e => String.eqb (to e) (JsString.toLowerCase walletAddress))
              (map parseLog (sortLogs logs)) = firstIncoming :: others ->
  getNFTTransferHistory provider gunTokenAddress walletAddress = Some history ->
  (exists block,
     getBlock provider (blockNumber firstIncoming) = Returned block /\
     purchaseDate history = (fun b => timestamp b * 1000) <$> block) /\
  (forall a, transferredFrom history = Some a ->
     a = from firstIncoming /\ String.eqb a ZERO_ADDRESS = false).
Proof.
  intros Hlogs Hfilter. unfold getNFTTransferHistory, getTransferEvents.
  rewrite Hlogs. simpl.
  destruct (List.length (map parseLog (sortLogs logs)) =? 0)%nat eqn:Hlen.
  { apply Nat.eqb_eq in Hlen. apply nil_length_inv in Hlen.
    rewrite Hlen in Hfilter. discriminate. }
  rewrite Hfilter.
  destruct (getBlock provider (blockNumber firstIncoming)) as [block|];
    simpl; [|discriminate].
  destruct (getTransactionReceipt provider (transactionHash firstIncoming))
    as [txReceipt|]; simpl; [|discriminate].
  destruct (getTransaction provider (transactionHash firstIncoming))
    as [transaction|]; simpl; [|discriminate].
  intros [= <-]. simpl. split; [eauto|].
  intros a Ha.
  destruct (String.eqb (from firstIncoming) ZERO_ADDRESS) eqn:Hzero;
    simpl in Ha; rewrite ?andb_false_r in Ha; [discriminate|].
  match type of Ha with (if ?b then _ else _) = _ => destruct b end;
    [|discriminate].
  injection Ha as <-. auto.
Qed.



(** C4 fails on the code: [transferredFrom] is only set for a sender other
    than the zero address, so the zero-address test of [loadItemDetails]
    never succeeds and no acquisition is classified [MINT]; a token minted
    to the wallet is classified [TRANSFER]. *)
Theorem mint_is_classified_as_TRANSFER :
  (forall provider gunTokenAddress walletAddress,
     acquisitionType
       (deriveAcquisition (getNFTTransferHistory provider gunTokenAddress walletAddress))
     <> MINT) /\
  (let mintLog :=
     {| topicFrom := "0x0000000000000000000000000000000000000000000000000000000000000000";
        topicTo := "0x000000000000000000000000A11CE00000000000000000000000000000000001";
        topicTokenId := 7; log_blockNumber := 100; log_index := 3;
        log_transactionHash := "0xT1" |} in
   let provider :=
     {| transferLogs := Returned [mintLog];
        getBlock := fun _ => Returned (Some {| timestamp := 1700000000 |});
        getTransactionReceipt := fun _ => Returned (Some []);
        getTransaction := fun _ => Returned (Some {| value := 0; valueEther := 0 |}) |} in
   let history :=
     getNFTTransferHistory provider None "0xA11CE00000000000000000000000000000000001" in
   from (parseLog mintLog) = ZERO_ADDRESS /\
   history =
     Some {| purchasePriceGun := 0; purchaseDate := Some 1700000000000;
             transferredFrom := None; isFreeTransfer := true;
             debugInfo :=
               {| totalLogsFound := 1;
                  currentOwner := Some "0xa11ce00000000000000000000000000000000001"%string |} |} /\
   deriveAcquisition history =
     {| hasTransferData := true; acquiredAt := Some 1700000000000;
        fromAddress := None; acquisitionType := TRANSFER |}).
Proof.
  split.
  - intros provider gunTokenAddress walletAddress.
    unfold deriveAcquisition.
    destruct (getNFTTransferHistory provider gunTokenAddress walletAddress)
      as [history|] eqn:Hh; simpl; [|discriminate].
    destruct (transferredFrom history) as [a|] eqn:Ha;
      [|destruct (0 <? totalLogsFound (debugInfo history)); discriminate].
    assert (String.eqb a ZERO_ADDRESS = false) as ->;
      [|destruct (0 <? totalLogsFound (debugInfo history)); discriminate].
    revert Hh. unfold getNFTTransferHistory, getTransferEvents.
    destruct (transferLogs provider) as [logs|] eqn:Hlogs; simpl; [|discriminate].
    destruct (List.length (map parseLog (sortLogs logs)) =? 0)%nat;
      [intros [= <-]; discriminate|].
    destruct (List.filter _ (map parseLog (sortLogs logs)))
      as [|firstIncoming others] eqn:Hfilter; [intros [= <-]; discriminate|].
    intros Hh.
    eapply (getNFTTransferHistory_incoming provider gunTokenAddress walletAddress
              logs firstIncoming others history Hlogs Hfilter); [|exact Ha].
    unfold getNFTTransferHistory, getTransferEvents. rewrite Hlogs. simpl.
    destruct (List.length (map parseLog (sortLogs logs)) =? 0)%nat eqn:Hlen.
    { apply Nat.eqb_eq in Hlen. apply nil_length_inv in Hlen.
      rewrite Hlen in Hfilter. discriminate. }
    rewrite Hfilter. exact Hh.
  - vm_compute. repeat split; reflexivity.
Qed.

End AvalancheFacts.

(** ** Properties of the chunked log query *)

Module AvalancheQueryFacts.
Import Avalanche AvalancheQuery AvalancheFacts.

(** The ranges follow one another from [first] to [last] without a gap or
    an overlap. *)
Inductive Tiling : Z -> Z -> list BlockRange -> Prop :=
| Tiling_one first last found :
    first <= last ->
    Tiling first last
           [{| range_from := first; range_to := last; logsFound := found |}]
| Tiling_cons first mid last found rest :
    first <= mid ->
    Tiling (mid + 1) last rest ->
    Tiling first last
           ({| range_from := first; range_to := mid; logsFound := found |} :: rest).

(** The logs the ranges report, a failed range counting for none. *)
Definition foundTotal (rs : list BlockRange) : Z :=
  foldr (fun r total => Z.max 0 (logsFound r) + total) 0 rs.

Lemma Tiling_le first last rs : Tiling first last rs -> first <= last.
Proof. induction 1; lia. Qed.

Lemma Tiling_app first mid last rs1 rs2 :
  Tiling first mid rs1 -> Tiling (mid + 1) last rs2 ->
  Tiling first last (rs1 ++ rs2).
Proof.
  induction 1 as [first mid found Hle|first m mid found rest Hle _ IH]; intros H2; simpl.
  - constructor; assumption.
  - constructor; [assumption|]. apply IH, H2.
Qed.

Lemma foundTotal_app rs1 rs2 :
  foundTotal (rs1 ++ rs2) = foundTotal rs1 + foundTotal rs2.
Proof. induction rs1 as [|r rs1 IH]; simpl; [reflexivity|]. rewrite IH. lia. Qed.

Section Provider.

Variable getLogs : Z -> Z -> Z -> option (list Log).

(** A log comes from an answer of the provider for a range inside
    [first .. last]. *)
Definition answered (first last : Z) (l : Log) : Prop :=
  exists chunkSize start end_ found,
    getLogs chunkSize start end_ = Some found /\ l ∈ found /\
    first <= start /\ end_ <= last.

(** What holds of the ranges, the count and the logs gathered so far, when
    the blocks [first .. covered] have been dealt with. *)
Record Gathered (first last covered : Z) (collected : list Log)
    (rs : list BlockRange) (count : Z) : Prop := {
  gathered_tiling :
    (rs = [] /\ covered = first - 1) \/ Tiling first covered rs;
  gathered_count : count = Z.of_nat (List.length rs);
  gathered_found : Z.of_nat (List.length collected) = foundTotal rs;
  gathered_answered : forall l, l ∈ collected -> answered first last l
}.

Lemma answered_weaken first first' last last' l :
  first' <= first -> last <= last' -> answered first last l -> answered first' last' l.
Proof.
  intros H1 H2 (c & s & e & found & Hg & Hin & Hs & He).
  exists c, s, e, found. repeat split; try assumption; lia.
Qed.

(** One turn of the loop extends what was gathered by the chunk at [start]. *)
Lemma chunkIteration_Gathered (recurse : Z -> Z -> Z -> option ChunkedLogs)
    (first last chunkSize start : Z) (state state' : LoopState) :
  (forall s e c r, s <= e -> 0 < c -> recurse s e c = Some r ->
     Gathered s e e (logs r) (blockRanges r) (chunksQueried r)) ->
  0 < chunkSize -> first <= start -> start <= last ->
  Gathered first last (start - 1) (allLogs state) (ranges state) (queried state) ->
  chunkIteration getLogs recurse last chunkSize (Some state) start = Some state' ->
  Gathered first last (Z.min (start + chunkSize - 1) last)
           (allLogs state') (ranges state') (queried state').
Proof.
  intros Hrec Hcs Hfirst Hlast [Ht Hc Hf Ha] Hit.
  unfold chunkIteration in Hit. simpl in Hit.
  set (end_ := Z.min (start + chunkSize - 1) last) in *.
  assert (start <= end_) as Hse by (unfold end_; lia).
  assert (forall piece, Tiling start end_ piece ->
            (ranges state ++ piece = [] /\ end_ = first - 1) \/
            Tiling first end_ (ranges state ++ piece)) as Hext.
  { intros piece Hp. right. destruct Ht as [[-> Hcov]|Ht]; simpl.
    - replace first with start by lia. exact Hp.
    - eapply Tiling_app; [exact Ht|]. replace (start - 1 + 1) with start by lia.
      exact Hp. }
  destruct (getLogs chunkSize start end_) as [found|] eqn:Hget.
  - injection Hit as <-. simpl. split.
    + apply Hext. constructor. exact Hse.
    + rewrite length_app. simpl. lia.
    + rewrite length_app, foundTotal_app. simpl. lia.
    + intros l Hl. apply elem_of_app in Hl as [Hl|Hl]; [auto|].
      exists chunkSize, start, end_, found. repeat split; try assumption.
      unfold end_. lia.
  - destruct (10000 <? chunkSize) eqn:Hbig.
    + destruct (recurse start end_ (chunkSize / 4)) as [sub|] eqn:Hsub;
        simpl in Hit; [|discriminate].
      injection Hit as <-. simpl.
      apply Z.ltb_lt in Hbig.
      assert (0 < chunkSize / 4) as Hq by (apply Z.div_str_pos; lia).
      destruct (Hrec _ _ _ _ Hse Hq Hsub) as [Hst Hsc Hsf Hsa].
      assert (Tiling start end_ (blockRanges sub)) as Htile.
      { destruct Hst as [[_ Hbad]|Hst]; [lia|exact Hst]. }
      split.
      * apply Hext, Htile.
      * rewrite length_app. lia.
      * rewrite length_app, foundTotal_app. lia.
      * intros l Hl. apply elem_of_app in Hl as [Hl|Hl]; [auto|].
        eapply answered_weaken; [| |apply Hsa, Hl]; [lia|unfold end_; lia].
    + injection Hit as <-. simpl. split.
      * apply Hext. constructor. exact Hse.
      * rewrite length_app. simpl. lia.
      * rewrite foundTotal_app. simpl. lia.
      * exact Ha.
Qed.

Lemma foldl_chunkIteration_None recurse last chunkSize starts :
  foldl (chunkIteration getLogs recurse last chunkSize) None starts = None.
Proof. induction starts as [|s starts IH]; simpl; [reflexivity|exact IH]. Qed.

(** The loop over [count] chunks from [start] on. *)
Lemma foldl_chunkIteration_Gathered (recurse : Z -> Z -> Z -> option ChunkedLogs)
    (first last chunkSize : Z) (count : nat) :
  (forall s e c r, s <= e -> 0 < c -> recurse s e c = Some r ->
     Gathered s e e (logs r) (blockRanges r) (chunksQueried r)) ->
  0 < chunkSize ->
  forall (start : Z) (state state' : LoopState),
    first <= start ->
    start + Z.of_nat count * chunkSize <= last ->
    Gathered first last (start - 1) (allLogs state) (ranges state) (queried state) ->
    foldl (chunkIteration getLogs recurse last chunkSize) (Some state)
          (chunkStartsFrom (S count) start chunkSize) = Some state' ->
    Gathered first last
             (Z.min (start + Z.of_nat (S count) * chunkSize - 1) last)
             (allLogs state') (ranges state') (queried state').
Proof.
  intros Hrec Hcs. induction count as [|count IH];
    intros start state state' Hfirst Hlast Hg Hfold.
  - simpl in Hfold.
    replace (start + Z.of_nat 1 * chunkSize - 1) with (start + chunkSize - 1) by lia.
    eapply chunkIteration_Gathered; eauto. lia.
  - change (chunkStartsFrom (S (S count)) start chunkSize)
      with (start :: chunkStartsFrom (S count) (start + chunkSize) chunkSize) in Hfold.
    remember (chunkStartsFrom (S count) (start + chunkSize) chunkSize) as rest eqn:Hrest.
    cbn [foldl] in Hfold.
    destruct (chunkIteration getLogs recurse last chunkSize (Some state) start)
      as [state1|] eqn:Hit.
    2:{ rewrite foldl_chunkIteration_None in Hfold. discriminate. }
    subst rest.
    assert (start + chunkSize <= last) as Hnext by nia.
    assert (Gathered first last (Z.min (start + chunkSize - 1) last)
              (allLogs state1) (ranges state1) (queried state1)) as Hg1.
    { eapply chunkIteration_Gathered; eauto. lia. }
    replace (Z.min (start + chunkSize - 1) last)
      with (start + chunkSize - 1) in Hg1 by lia.
    replace (start + Z.of_nat (S (S count)) * chunkSize - 1)
      with (start + chunkSize + Z.of_nat (S count) * chunkSize - 1) by lia.
    apply (IH (start + chunkSize) state1 state'); [lia|nia|exact Hg1|exact Hfold].
Qed.

Lemma queryLogsInChunks_Gathered (depth : nat) :
  forall (fromBlock toBlock chunkSize : Z) (r : ChunkedLogs),
    fromBlock <= toBlock -> 0 < chunkSize ->
    queryLogsInChunks getLogs depth fromBlock toBlock chunkSize = Some r ->
    Gathered fromBlock toBlock toBlock (logs r) (blockRanges r) (chunksQueried r).
Proof.
  induction depth as [|depth IH]; intros fromBlock toBlock chunkSize r Hle Hcs Hq;
    [discriminate|].
  simpl in Hq. unfold chunkStarts in Hq.
  destruct (fromBlock <=? toBlock) eqn:Hcmp; [|apply Z.leb_gt in Hcmp; lia].
  set (count := Z.to_nat ((toBlock - fromBlock) / chunkSize)) in *.
  assert (0 <= (toBlock - fromBlock) / chunkSize) as Hdiv
    by (apply Z.div_pos; lia).
  replace (Z.to_nat ((toBlock - fromBlock) / chunkSize + 1)) with (S count) in Hq
    by (unfold count; lia).
  destruct (foldl _ _ _) as [final|] eqn:Hfold in Hq; [|discriminate].
  injection Hq as <-. simpl.
  pose proof (Z.mul_div_le (toBlock - fromBlock) chunkSize Hcs) as Hlow.
  pose proof (Z.mul_succ_div_gt (toBlock - fromBlock) chunkSize Hcs) as Hhigh.
  assert (Z.of_nat count = (toBlock - fromBlock) / chunkSize) as Hcount
    by (unfold count; lia).
  assert (Gathered fromBlock toBlock
            (Z.min (fromBlock + Z.of_nat (S count) * chunkSize - 1) toBlock)
            (allLogs final) (ranges final) (queried final)) as Hg.
  { eapply foldl_chunkIteration_Gathered; [exact IH|exact Hcs|reflexivity|nia| |exact Hfold].
    simpl. split; [left; split; [reflexivity|lia]|reflexivity|reflexivity|].
    intros l Hl. inversion Hl. }
  replace (Z.min (fromBlock + Z.of_nat (S count) * chunkSize - 1) toBlock)
    with toBlock in Hg by nia.
  destruct Hg as [Ht Hc Hf Ha]. split; [exact Ht|exact Hc| |].
  - rewrite (Permutation_length (sortLogs_Permutation (allLogs final))). exact Hf.
  - intros l Hl. apply Ha. rewrite <- (sortLogs_Permutation (allLogs final)). exact Hl.
Qed.

Lemma queryLogsInChunks_empty (depth : nat) (fromBlock toBlock chunkSize : Z) :
  toBlock < fromBlock ->
  queryLogsInChunks getLogs (S depth) fromBlock toBlock chunkSize
  = Some {| logs := []; chunksQueried := 0; blockRanges := [] |}.
Proof.
  intros Hlt. simpl. unfold chunkStarts.
  destruct (fromBlock <=? toBlock) eqn:Hcmp; [apply Z.leb_le in Hcmp; lia|].
  reflexivity.
Qed.

(** The query returns as soon as the depth allows the chunk size to be
    quartered down to 10000 blocks. *)
Lemma queryLogsInChunks_returns (depth : nat) :
  forall (fromBlock toBlock chunkSize : Z),
    0 < chunkSize -> chunkSize <= 10000 * 4 ^ Z.of_nat depth ->
    is_Some (queryLogsInChunks getLogs (S depth) fromBlock toBlock chunkSize).
Proof.
  induction depth as [|depth IH]; intros fromBlock toBlock chunkSize Hcs Hmax.
  - simpl. generalize (chunkStarts fromBlock toBlock chunkSize) as starts.
    assert (forall starts state, is_Some
              (foldl (chunkIteration getLogs (fun _ _ _ => None) toBlock chunkSize)
                     (Some state) starts)) as Hloop.
    { induction starts as [|s starts IHs]; intros state; simpl; [eauto|].
      destruct (getLogs chunkSize s _); [apply IHs|].
      destruct (10000 <? chunkSize) eqn:Hbig; [apply Z.ltb_lt in Hbig; simpl in Hmax; lia|].
      apply IHs. }
    intros starts. destruct (Hloop starts {| allLogs := []; ranges := []; queried := 0 |})
      as [final ->]. simpl. eauto.
  - change (queryLogsInChunks getLogs (S (S depth)) fromBlock toBlock chunkSize)
      with (final ← foldl (chunkIteration getLogs (queryLogsInChunks getLogs (S depth))
                             toBlock chunkSize)
                      (Some {| allLogs := []; ranges := []; queried := 0 |})
                      (chunkStarts fromBlock toBlock chunkSize);
            Some {| logs := sortLogs (allLogs final); chunksQueried := queried final;
                    blockRanges := ranges final |}).
    generalize (chunkStarts fromBlock toBlock chunkSize) as starts.
    assert (forall starts state, is_Some
              (foldl (chunkIteration getLogs (queryLogsInChunks getLogs (S depth))
                        toBlock chunkSize)
                     (Some state) starts)) as Hloop.
    { induction starts as [|s starts IHs]; intros state; cbn [foldl]; [eauto|].
      unfold chunkIteration at 2. cbn [mbind option_bind].
      destruct (getLogs chunkSize s _); [apply IHs|].
      destruct (10000 <? chunkSize) eqn:Hbig; [|apply IHs].
      apply Z.ltb_lt in Hbig.
      destruct (IH s (Z.min (s + chunkSize - 1) toBlock) (chunkSize / 4)) as [sub Hsub].
      + apply Z.div_str_pos; lia.
      + apply Z.div_le_upper_bound; [lia|].
        rewrite Nat2Z.inj_succ, Z.pow_succ_r in Hmax by lia. lia.
      + rewrite Hsub. cbn [mbind option_bind]. apply IHs. }
    intros starts. destruct (Hloop starts {| allLogs := []; ranges := []; queried := 0 |})
      as [final ->]. simpl. eauto.
Qed.

(** A recorded range is at most one chunk wide; it was either answered by
    the provider, with its number of logs, or refused at a chunk size that
    is not split further, and then carries -1. *)
Definition recorded (chunkSize : Z) (r : BlockRange) : Prop :=
  exists size,
    0 < size <= chunkSize /\ range_to r - range_from r < size /\
    ((exists found, getLogs size (range_from r) (range_to r) = Some found /\
                    logsFound r = Z.of_nat (List.length found)) \/
     (getLogs size (range_from r) (range_to r) = None /\ size <= 10000 /\
      logsFound r = -1)).

Lemma recorded_weaken chunkSize chunkSize' r :
  chunkSize <= chunkSize' -> recorded chunkSize r -> recorded chunkSize' r.
Proof.
  intros Hle (size & Hsize & Hrest). exists size. split; [lia|exact Hrest].
Qed.

Lemma chunkIteration_recorded (recurse : Z -> Z -> Z -> option ChunkedLogs)
    (last chunkSize start : Z) (state state' : LoopState) :
  (forall s e c r, 0 < c -> recurse s e c = Some r ->
     Forall (recorded c) (blockRanges r)) ->
  0 < chunkSize ->
  Forall (recorded chunkSize) (ranges state) ->
  chunkIteration getLogs recurse last chunkSize (Some state) start = Some state' ->
  Forall (recorded chunkSize) (ranges state').
Proof.
  intros Hrec Hcs Hst Hit. unfold chunkIteration in Hit. simpl in Hit.
  set (end_ := Z.min (start + chunkSize - 1) last) in *.
  assert (end_ - start < chunkSize) as Hwidth by (unfold end_; lia).
  destruct (getLogs chunkSize start end_) as [found|] eqn:Hget.
  - injection Hit as <-. simpl. apply Forall_app. split; [exact Hst|].
    constructor; [|constructor]. exists chunkSize. simpl.
    split; [lia|]. split; [exact Hwidth|]. left. exists found. split; [exact Hget|reflexivity].
  - destruct (10000 <? chunkSize) eqn:Hbig.
    + destruct (recurse start end_ (chunkSize / 4)) as [sub|] eqn:Hsub;
        simpl in Hit; [|discriminate].
      injection Hit as <-. simpl. apply Z.ltb_lt in Hbig.
      assert (0 < chunkSize / 4) as Hq by (apply Z.div_str_pos; lia).
      apply Forall_app. split; [exact Hst|].
      eapply Forall_impl; [apply (Hrec _ _ _ _ Hq Hsub)|].
      intros r. apply recorded_weaken.
      apply Z.lt_le_incl, Z.div_lt; lia.
    + injection Hit as <-. simpl. apply Z.ltb_ge in Hbig.
      apply Forall_app. split; [exact Hst|].
      constructor; [|constructor]. exists chunkSize. simpl.
      split; [lia|]. split; [exact Hwidth|]. right. repeat split; [exact Hget|lia].
Qed.

Lemma queryLogsInChunks_recorded (depth : nat) :
  forall (fromBlock toBlock chunkSize : Z) (r : ChunkedLogs),
    0 < chunkSize ->
    queryLogsInChunks getLogs depth fromBlock toBlock chunkSize = Some r ->
    Forall (recorded chunkSize) (blockRanges r).
Proof.
  induction depth as [|depth IH]; intros fromBlock toBlock chunkSize r Hcs Hq;
    [discriminate|].
  simpl in Hq.
  assert (forall starts state state',
            Forall (recorded chunkSize) (ranges state) ->
            foldl (chunkIteration getLogs (queryLogsInChunks getLogs depth)
                     toBlock chunkSize) (Some state) starts = Some state' ->
            Forall (recorded chunkSize) (ranges state')) as Hloop.
  { induction starts as [|s starts IHs]; intros state state' Hst Hfold.
    - injection Hfold as <-. exact Hst.
    - cbn [foldl] in Hfold.
      destruct (chunkIteration getLogs (queryLogsInChunks getLogs depth)
                  toBlock chunkSize (Some state) s) as [state1|] eqn:Hit.
      + apply (IHs state1 state'); [|exact Hfold].
        eapply chunkIteration_recorded; [|exact Hcs|exact Hst|exact Hit].
        intros s0 e c r0 Hc. apply IH. exact Hc.
      + rewrite foldl_chunkIteration_None in Hfold. discriminate. }
  destruct (foldl _ _ _) as [final|] eqn:Hfold in Hq; [|discriminate].
  injection Hq as <-. simpl.
  eapply Hloop; [|exact Hfold]. constructor.
Qed.

End Provider.

(** A provider for the examples: it refuses every range wider than 10000
    blocks, and knows one transfer at block 30000 and one at block 12000. *)
Definition sampleLog (block index : Z) : Log :=
  {| topicFrom := "0x000000000000000000000000a11ce00000000000000000000000000000000001";
     topicTo := "0x000000000000000000000000b0b0000000000000000000000000000000000002";
     topicTokenId := 7; log_blockNumber := block; log_index := index;
     log_transactionHash := "0xT" |}.

Definition sampleProvider (chunkSize start end_ : Z) : option (list Log) :=
  if 10000 <? end_ - start + 1 then None
  else Some (filter (fun l => bool_decide (start <= log_blockNumber l <= end_))
                    [sampleLog 30000 2; sampleLog 12000 5]).

(** X2. With a positive chunk size, [queryLogsInChunks] returns once the
    chunk size can be quartered down to 10000 blocks; for a block range
    that is not empty, the ranges it reports follow one another from
    [fromBlock] to [toBlock] without a gap or an overlap, also where a
    refused chunk was split into smaller ones, and [chunksQueried] is their
    number. *)
Theorem blockRanges_tile_the_queried_blocks
    (getLogs : Z -> Z -> Z -> option (list Log)) (depth : nat)
    (fromBlock toBlock chunkSize : Z) :
  0 < chunkSize -> chunkSize <= 10000 * 4 ^ Z.of_nat depth ->
  fromBlock <= toBlock ->
  exists r,
    queryLogsInChunks getLogs (S depth) fromBlock toBlock chunkSize = Some r /\
    Tiling fromBlock toBlock (blockRanges r) /\
    chunksQueried r = Z.of_nat (List.length (blockRanges r)).
Proof.
  intros Hcs Hdepth Hle.
  destruct (queryLogsInChunks_returns getLogs depth fromBlock toBlock chunkSize
              Hcs Hdepth) as [r Hq].
  exists r. split; [exact Hq|].
  destruct (queryLogsInChunks_Gathered getLogs _ _ _ _ _ Hle Hcs Hq) as [Ht Hc _ _].
  split; [|exact Hc]. destruct Ht as [[_ Hbad]|Ht]; [lia|exact Ht].
Qed.

Lemma blockRanges_tile_witness :
  exists r,
    queryLogsInChunks sampleProvider 3 1 40000 100000 = Some r /\
    Tiling 1 40000 (blockRanges r) /\
    chunksQueried r = Z.of_nat (List.length (blockRanges r)).
Proof.
  apply (blockRanges_tile_the_queried_blocks sampleProvider 2 1 40000 100000);
    simpl; lia.
Defined.

(** X3. The logs [queryLogsInChunks] returns are sorted by block number and
    then log index; there are as many of them as the answered ranges
    report; and each of them was returned by the provider for a range
    inside [fromBlock .. toBlock]. *)
Theorem logs_are_sorted_counted_and_answered
    (getLogs : Z -> Z -> Z -> option (list Log)) (depth : nat)
    (fromBlock toBlock chunkSize : Z) :
  0 < chunkSize -> chunkSize <= 10000 * 4 ^ Z.of_nat depth ->
  exists r,
    queryLogsInChunks getLogs (S depth) fromBlock toBlock chunkSize = Some r /\
    StronglySorted logLe (logs r) /\
    Z.of_nat (List.length (logs r)) = foundTotal (blockRanges r) /\
    forall l, l ∈ logs r -> answered getLogs fromBlock toBlock l.
Proof.
  intros Hcs Hdepth.
  destruct (queryLogsInChunks_returns getLogs depth fromBlock toBlock chunkSize
              Hcs Hdepth) as [r Hq].
  exists r. split; [exact Hq|].
  destruct (Z_le_gt_dec fromBlock toBlock) as [Hle|Hgt].
  - destruct (queryLogsInChunks_Gathered getLogs _ _ _ _ _ Hle Hcs Hq)
      as [_ _ Hf Ha].
    split; [|split; [exact Hf|exact Ha]].
    simpl in Hq.
    destruct (foldl _ _ _) as [final|] in Hq; [|discriminate].
    injection Hq as <-. simpl. apply sortLogs_StronglySorted.
  - rewrite queryLogsInChunks_empty in Hq by lia. injection Hq as <-. simpl.
    split; [constructor|]. split; [reflexivity|]. intros l Hl. inversion Hl.
Qed.

Lemma logs_are_sorted_witness :
  exists r,
    queryLogsInChunks sampleProvider 3 1 40000 100000 = Some r /\
    StronglySorted logLe (logs r) /\
    Z.of_nat (List.length (logs r)) = foundTotal (blockRanges r) /\
    forall l, l ∈ logs r -> answered sampleProvider 1 40000 l.
Proof.
  apply (logs_are_sorted_counted_and_answered sampleProvider 2 1 40000 100000);
    simpl; lia.
Defined.

(** The logs of the example come back in chain order. *)
Example sampleProvider_logs :
  logs <$> queryTransferLogs sampleProvider 1 40000
  = Some [sampleLog 12000 5; sampleLog 30000 2].
Proof. vm_compute. reflexivity. Qed.

(** X4. Every range [queryLogsInChunks] reports is at most one chunk wide
    and was either answered by the provider, its [logsFound] being the
    number of logs of the answer, or refused at a chunk size of at most
    10000 blocks, its [logsFound] being -1: a range refused at a larger
    chunk size is never reported, it is split. *)
Theorem reported_range_is_answered_or_refused_when_small
    (getLogs : Z -> Z -> Z -> option (list Log)) (depth : nat)
    (fromBlock toBlock chunkSize : Z) :
  0 < chunkSize -> chunkSize <= 10000 * 4 ^ Z.of_nat depth ->
  exists r,
    queryLogsInChunks getLogs (S depth) fromBlock toBlock chunkSize = Some r /\
    Forall (recorded getLogs chunkSize) (blockRanges r).
Proof.
  intros Hcs Hdepth.
  destruct (queryLogsInChunks_returns getLogs depth fromBlock toBlock chunkSize
              Hcs Hdepth) as [r Hq].
  exists r. split; [exact Hq|]. eapply queryLogsInChunks_recorded; eassumption.
Qed.

Lemma reported_range_witness :
  exists r,
    queryLogsInChunks sampleProvider 3 1 40000 100000 = Some r /\
    Forall (recorded sampleProvider 100000) (blockRanges r).
Proof.
  apply (reported_range_is_answered_or_refused_when_small sampleProvider 2 1 40000
           100000); simpl; lia.
Defined.

(** X5. The query of the transfer logs, which starts with chunks of 100000
    blocks, returns a result whatever the provider answers or refuses: two
    quarterings bring the chunk size to 6250 blocks, where a refusal is
    recorded instead of being split again. *)
Theorem queryTransferLogs_always_returns
    (getLogs : Z -> Z -> Z -> option (list Log)) (fromBlock toBlock : Z) :
  is_Some (queryTransferLogs getLogs fromBlock toBlock).
Proof.
  apply (queryLogsInChunks_returns getLogs 2); unfold DEFAULT_CHUNK_SIZE; simpl; lia.
Qed.

End AvalancheQueryFacts.

(** ** The payment and the current owner of the transfer history *)

Module HistoryFacts.
Import Avalanche AvalancheFacts.




Lemma last_cons_Some {A} (x : A) (l : list A) :
  last (x :: l) = Some (default x (last l)).
Proof.
  revert x. induction l as [|y l IH]; intros x; [reflexivity|].
  change (last (x :: y :: l)) with (last (y :: l)). rewrite IH.
  simpl. destruct l; reflexivity.
Qed.


(** The last element of a sorted list is a greatest one. *)
Lemma last_greatest {A} (R : A -> A -> Prop) `{!Reflexive R} (l : list A) (x : A) :
  StronglySorted R l -> last l = Some x -> forall y, y ∈ l -> R y x.
Proof.
  induction 1 as [|z l Hs IH Hall]; intros Hlast y Hy; [inversion Hy|].
  rewrite last_cons_Some in Hlast. injection Hlast as Hx.
  destruct (last l) as [w|] eqn:Hw; simpl in Hx; subst x.
  - apply elem_of_cons in Hy as [->|Hy]; [|apply IH; auto].
    rewrite Forall_forall in Hall. apply Hall.
    apply list_elem_of_In. apply last_Some in Hw as [l' ->].
    apply list_elem_of_In, elem_of_app. right. left.
  - destruct l; [|rewrite last_cons_Some in Hw; discriminate].
    apply elem_of_cons in Hy as [->|Hy]; [reflexivity|inversion Hy].
Qed.

#[local] Instance logLe_refl : Reflexive logLe.
Proof. intros l. right. split; [reflexivity|lia]. Qed.


(** X7. The current owner [getTransferEvents] reports is null exactly when
    no transfer log was found; otherwise it is the receiver of a log that
    no other log follows in (block number, log index) order, in whatever
    order the chunks returned the logs. *)
Theorem currentOwner_is_last_receiver (provider : Provider) (allLogs : list Log) :
  transferLogs provider = Returned allLogs ->
  exists events info,
    getTransferEvents provider = Returned (events, info) /\
    (currentOwner info = None <-> allLogs = []) /\
    (forall owner, currentOwner info = Some owner ->
       exists lastLog,
         lastLog ∈ allLogs /\ owner = addressOfTopic (topicTo lastLog) /\
         forall l, l ∈ allLogs -> logLe l lastLog).
Proof.
  intros Hlogs. unfold getTransferEvents. rewrite Hlogs. simpl.
  eexists _, _. split; [reflexivity|]. simpl.
  rewrite fmap_last. destruct (last (sortLogs allLogs)) as [lastLog|] eqn:Hlast; simpl.
  - split.
    + split; [discriminate|]. intros ->. discriminate.
    + intros owner [= <-]. exists lastLog.
      assert (lastLog ∈ sortLogs allLogs) as Hin.
      { apply last_Some in Hlast as [l' ->]. apply elem_of_app. right. left. }
      split; [rewrite <- (sortLogs_Permutation allLogs); exact Hin|].
      split; [reflexivity|]. intros l Hl.
      eapply (last_greatest logLe); [apply sortLogs_StronglySorted|exact Hlast|].
      rewrite (sortLogs_Permutation allLogs). exact Hl.
  - split; [|discriminate]. split; [|reflexivity]. intros _.
    apply last_None in Hlast.
    symmetry. apply Permutation_nil_l. rewrite <- Hlast.
    apply sortLogs_Permutation.
Qed.

Lemma currentOwner_witness :
  let provider :=
    {| transferLogs := Returned [AvalancheQueryFacts.sampleLog 30000 2;
                                 AvalancheQueryFacts.sampleLog 12000 5];
       getBlock := fun _ => Returned None;
       getTransactionReceipt := fun _ => Returned None;
       getTransaction := fun _ => Returned None |} in
  exists events info,
    getTransferEvents provider = Returned (events, info) /\
    (currentOwner info = None <->
     [AvalancheQueryFacts.sampleLog 30000 2; AvalancheQueryFacts.sampleLog 12000 5] = []) /\
    (forall owner, currentOwner info = Some owner ->
       exists lastLog,
         lastLog ∈ [AvalancheQueryFacts.sampleLog 30000 2;
                    AvalancheQueryFacts.sampleLog 12000 5] /\
         owner = addressOfTopic (topicTo lastLog) /\
         forall l, l ∈ [AvalancheQueryFacts.sampleLog 30000 2;
                        AvalancheQueryFacts.sampleLog 12000 5] -> logLe l lastLog).
Proof.
  intros provider.
  apply (currentOwner_is_last_receiver provider
           [AvalancheQueryFacts.sampleLog 30000 2; AvalancheQueryFacts.sampleLog 12000 5]).
  reflexivity.
Defined.

End HistoryFacts.

(** ** What the dedupe drops, and where a match comes from *)

Module ReconcileFacts.
Import Marketplace Reconcile DedupeFacts MatchFacts.

(** A purchase the callback rejected has a key in the set the filter
    started from, or in common with a purchase kept before it. *)
Lemma keptFlags_dropped (purchases : list MarketplacePurchase) (seen : gset string)
    (j : nat) (q : MarketplacePurchase) :
  purchases !! j = Some q -> keptFlags seen purchases !! j = Some false ->
  (exists key, key ∈ dedupeKeys q /\ key ∈ seen) \/
  (exists i p key, (i < j)%nat /\ purchases !! i = Some p /\
                   keptFlags seen purchases !! i = Some true /\
                   key ∈ dedupeKeys p /\ key ∈ dedupeKeys q).
Proof.
  revert seen j. induction purchases as [|x rest IH]; intros seen j Hq Hk;
    [discriminate|].
  simpl in Hk. unfold keepPurchase in Hk.
  destruct (alreadySeen seen (dedupeKeys x)) eqn:Hseen; simpl in Hk.
  - (* [x] is dropped: the set is unchanged *)
    destruct j as [|j]; simpl in Hq, Hk.
    + injection Hq as ->. left.
      apply alreadySeen_true in Hseen as (key & Hin & _ & Hs). eauto.
    + destruct (IH seen j Hq Hk) as [Hl|(i & p & key & Hi & Hp & Hkp & Kp & Kq)];
        [left; exact Hl|].
      right. exists (S i), p, key. repeat split; try assumption; [lia|].
      simpl. unfold keepPurchase. rewrite Hseen. exact Hkp.
  - (* [x] is kept: its keys join the set *)
    destruct j as [|j]; simpl in Hq, Hk; [discriminate|].
    destruct (IH _ j Hq Hk) as [(key & Kq & Hs)|(i & p & key & Hi & Hp & Hkp & Kp & Kq)].
    + apply elem_of_addKeys_dedupeKeys in Hs as [Hs|Kx]; [left; eauto|].
      right. exists 0%nat, x, key. repeat split; try assumption; [lia|].
      simpl. unfold keepPurchase. rewrite Hseen. reflexivity.
    + right. exists (S i), p, key. repeat split; try assumption; [lia|].
      simpl. unfold keepPurchase. rewrite Hseen. exact Hkp.
Qed.

Lemma filterUnseen_sublist (seen : gset string) (purchases : list MarketplacePurchase) :
  filterUnseen seen purchases `sublist_of` purchases.
Proof.
  revert seen. induction purchases as [|p rest IH]; intros seen; simpl; [constructor|].
  destruct (keepPurchase seen p) as [[|] seen'].
  - apply sublist_skip, IH.
  - apply sublist_cons, IH.
Qed.

(** X8. The dedupe only leaves records out, in their order, and never the
    first one; every record it leaves out has a key (a non-empty
    [purchaseId], [txHash] or [orderId], or the composite key) in common
    with a record that comes before it and is kept. *)
Theorem dedupePurchases_drops_only_duplicates (allPurchases : list MarketplacePurchase) :
  let kept := keptFlags ∅ allPurchases in
  dedupePurchases allPurchases `sublist_of` allPurchases /\
  head (dedupePurchases allPurchases) = head allPurchases /\
  (forall j q, allPurchases !! j = Some q -> kept !! j = Some false ->
     exists i p key, (i < j)%nat /\ allPurchases !! i = Some p /\
                     kept !! i = Some true /\
                     key ∈ dedupeKeys p /\ key ∈ dedupeKeys q).
Proof.
  cbv zeta. split; [apply filterUnseen_sublist|]. split.
  - destruct allPurchases as [|p rest]; [reflexivity|].
    unfold dedupePurchases. simpl. unfold keepPurchase.
    assert (alreadySeen ∅ (dedupeKeys p) = false) as ->; [|reflexivity].
    apply alreadySeen_false. intros key _. apply not_elem_of_empty.
  - intros j q Hq Hk.
    destruct (keptFlags_dropped allPurchases ∅ j q Hq Hk) as [(key & _ & Hs)|H];
      [|exact H].
    destruct (not_elem_of_empty (C := gset string) key Hs).
Qed.

(** X9. A purchase that step 3 matches was returned by one of the three
    marketplace queries made for this acquisition: by the query for the
    token, or by the query for the viewer's wallet or for the current owner
    over the day before and after the acquisition, and then for the same
    token key up to letter case; it lies within ten minutes of the
    acquisition, the method is 'timeWindow', and there was transfer data. *)
Theorem matched_purchase_provenance (service : MarketplaceService)
    (tokenKey walletAddress : string) (currentOwner : option string)
    (hasTransferData : bool) (acquiredAt : option Z) (p : MarketplacePurchase) :
  let result := matchMarketplace service tokenKey walletAddress currentOwner
                                 hasTransferData acquiredAt in
  let viewerWalletLower := JsString.toLowerCase walletAddress in
  let currentOwnerLower := default ""%string (JsString.toLowerCase <$> currentOwner) in
  matchedPurchase result = Some p ->
  hasTransferData = true /\
  marketplaceMatchMethod result = matchTimeWindow /\
  exists acquired,
    acquiredAt = Some acquired /\
    Z.abs (purchaseDateIso p - acquired) <= 10 * 60 * 1000 /\
    (p ∈ getPurchasesForToken service tokenKey \/
     (JsString.toLowerCase (Marketplace.tokenKey p) = JsString.toLowerCase tokenKey /\
      exists wallet,
        (wallet = viewerWalletLower \/
         (wallet = currentOwnerLower /\ currentOwnerLower <> viewerWalletLower)) /\
        wallet <> ""%string /\
        p ∈ getPurchasesForWallet service wallet
              (acquired - DAY_MS) (acquired + DAY_MS) 100)).
Proof.
  cbv zeta. unfold matchMarketplace.
  destruct hasTransferData; [|discriminate].
  destruct acquiredAt as [acquired|]; [|discriminate].
  set (viewer := JsString.toLowerCase walletAddress).
  set (owner := default ""%string (JsString.toLowerCase <$> currentOwner)).
  set (deduped := dedupePurchases (allPurchases service tokenKey viewer owner acquired)).
  intros Hm.
  destruct (decide (List.filter (inTimeWindow acquired) deduped = [])) as [E|NE].
  { rewrite (matchPurchase_no_candidate viewer owner acquired deduped E) in Hm.
    discriminate. }
  destruct (matchPurchase_firstLeast viewer owner acquired deduped NE)
    as (r & Hr & before & after & Hsplit & _).
  rewrite Hr in Hm |- *. simpl in Hm. injection Hm as ->.
  split; [reflexivity|]. split; [reflexivity|].
  exists acquired. split; [reflexivity|].
  assert (p ∈ List.filter (inTimeWindow acquired) deduped) as Hin.
  { rewrite Hsplit. apply elem_of_app. right. left. }
  apply filter_elem in Hin as [Hin Hwin].
  split.
  { unfold inTimeWindow, timeDiff, TIME_WINDOW_MS in Hwin. apply Z.leb_le, Hwin. }
  assert (p ∈ allPurchases service tokenKey viewer owner acquired) as Hall.
  { eapply elem_of_sublist; [exact Hin|apply filterUnseen_sublist]. }
  unfold allPurchases in Hall.
  apply elem_of_app in Hall as [Htoken|Hall]; [left; exact Htoken|].
  right. apply elem_of_app in Hall as [Hv|Ho].
  - apply filter_elem in Hv as [Hv Htk]. apply String.eqb_eq in Htk.
    split; [exact Htk|]. exists viewer.
    destruct (JsString.truthy viewer) eqn:Ht; [|inversion Hv].
    split; [left; reflexivity|]. split; [|exact Hv].
    intros E. rewrite E in Ht. discriminate.
  - apply filter_elem in Ho as [Ho Htk]. apply String.eqb_eq in Htk.
    split; [exact Htk|]. exists owner.
    destruct (JsString.truthy owner) eqn:Ht; simpl in Ho; [|inversion Ho].
    destruct (String.eqb owner viewer) eqn:Hne; simpl in Ho; [inversion Ho|].
    apply String.eqb_neq in Hne.
    split; [right; split; [reflexivity|exact Hne]|]. split; [|exact Ho].
    intros E. rewrite E in Ht. discriminate.
Qed.

(** A marketplace that knows one purchase of the token by the wallet. *)
Definition sampleService : MarketplaceService :=
  {| getPurchasesForToken := fun _ => [purchaseA];
     getPurchasesForWallet := fun _ _ _ _ => [purchaseA] |}.

Lemma matched_purchase_witness :
  true = true /\
  marketplaceMatchMethod
    (matchMarketplace sampleService "gunz:0xabc:1" "0xB0B" None true
                      (Some 1700000000000)) = matchTimeWindow /\
  exists acquired,
    Some 1700000000000 = Some acquired /\
    Z.abs (purchaseDateIso purchaseA - acquired) <= 10 * 60 * 1000 /\
    (purchaseA ∈ getPurchasesForToken sampleService "gunz:0xabc:1" \/
     (JsString.toLowerCase (Marketplace.tokenKey purchaseA)
      = JsString.toLowerCase "gunz:0xabc:1" /\
      exists wallet,
        (wallet = JsString.toLowerCase "0xB0B" \/
         (wallet = default ""%string (JsString.toLowerCase <$> None) /\
          default ""%string (JsString.toLowerCase <$> None)
          <> JsString.toLowerCase "0xB0B")) /\
        wallet <> ""%string /\
        purchaseA ∈ getPurchasesForWallet sampleService wallet
                      (acquired - DAY_MS) (acquired + DAY_MS) 100)).
Proof.
  apply (matched_purchase_provenance sampleService "gunz:0xabc:1" "0xB0B" None true
           (Some 1700000000000) purchaseA).
  vm_compute. reflexivity.
Defined.

End ReconcileFacts.

(** ** Paging through the NFTs of a wallet *)

Module PaginationFacts.
Import Avalanche AvalancheQuery.

Section Pagination.

Variable NFT : Type.
Variable fetchNFT : Z -> option NFT.






End Pagination.



End PaginationFacts.

(** ** Properties of the OpenSea listings *)

Module OpenSeaFacts.
Import JsNumber FloatOrder PositionFacts OpenSea.

(** [a <= b] holds on numbers. *)
Definition fle (a b : float) : Prop := (a <=? b)%float = true.

(** [0 < p] holds. *)
Definition positive (p : float) : Prop := (0 <? p)%float = true.

Lemma rank_infinity : rank PrimFloat.infinity = Some (2, 0, 0).
Proof. reflexivity. Qed.

Lemma rank_neg_infinity : rank PrimFloat.neg_infinity = Some (-2, 0, 0).
Proof. reflexivity. Qed.

Lemma positive_not_nan (p : float) : positive p -> PrimFloat.is_nan p = false.
Proof.
  unfold positive. intros H.
  destruct (PrimFloat.is_nan p) eqn:E; [|reflexivity]. float_order.
Qed.

Lemma fle_refl (a : float) : PrimFloat.is_nan a = false -> fle a a.
Proof. unfold fle. intros H. float_order. Qed.

Lemma fle_trans (a b c : float) : fle a b -> fle b c -> fle a c.
Proof. unfold fle. intros H1 H2. float_order. Qed.

Lemma Math_min_cases (a b : float) :
  PrimFloat.is_nan a = false -> PrimFloat.is_nan b = false ->
  (Math_min a b = a \/ Math_min a b = b) /\
  fle (Math_min a b) a /\ fle (Math_min a b) b.
Proof.
  intros Ha Hb. unfold Math_min, fle. rewrite Ha, Hb. simpl.
  destruct (a <? b)%float eqn:E1;
    [|destruct (b <? a)%float eqn:E2; [|destruct (PrimFloat.get_sign a)]];
    (split; [auto|split; float_order]).
Qed.

Lemma Math_max_cases (a b : float) :
  PrimFloat.is_nan a = false -> PrimFloat.is_nan b = false ->
  (Math_max a b = a \/ Math_max a b = b) /\
  fle a (Math_max a b) /\ fle b (Math_max a b).
Proof.
  intros Ha Hb. unfold Math_max, fle. rewrite Ha, Hb. simpl.
  destruct (a <? b)%float eqn:E1;
    [|destruct (b <? a)%float eqn:E2; [|destruct (PrimFloat.get_sign a)]];
    (split; [auto|split; float_order]).
Qed.

(** The ranks of the infinities are the extreme ones. *)
Lemma rank_bounds (x : float) (a b c : Z) :
  rank x = Some (a, b, c) ->
  -2 <= a <= 2 /\ (a = 2 -> b = 0 /\ c = 0) /\ (a = -2 -> b = 0 /\ c = 0).
Proof.
  unfold rank. destruct (Prim2SF x) as [s|s| |s m e]; simpl;
    try destruct s; intros [= <- <- <-]; lia.
Qed.

Lemma Math_min_infinity (x : float) :
  PrimFloat.is_nan x = false -> Math_min PrimFloat.infinity x = x.
Proof.
  intros Hx. unfold Math_min. rewrite Hx. simpl.
  destruct (PrimFloat.infinity <? x)%float eqn:E1.
  { exfalso. apply ltb_iff in E1. rewrite rank_infinity in E1.
    destruct (rank x) as [[[a b] c]|] eqn:Hr; simpl in E1; [|exact E1].
    apply rank_bounds in Hr. lia. }
  destruct (x <? PrimFloat.infinity)%float; reflexivity.
Qed.

Lemma Math_max_neg_infinity (x : float) :
  PrimFloat.is_nan x = false -> Math_max PrimFloat.neg_infinity x = x.
Proof.
  intros Hx. unfold Math_max. rewrite Hx. simpl.
  destruct (PrimFloat.neg_infinity <? x)%float eqn:E1; [reflexivity|].
  destruct (x <? PrimFloat.neg_infinity)%float eqn:E2; [|reflexivity].
  exfalso. apply ltb_iff in E2. rewrite rank_neg_infinity in E2.
  destruct (rank x) as [[[a b] c]|] eqn:Hr; simpl in E2; [|exact E2].
  apply rank_bounds in Hr. lia.
Qed.

Lemma fold_Math_min (prices : list float) (least : float) :
  PrimFloat.is_nan least = false ->
  Forall (fun p => PrimFloat.is_nan p = false) prices ->
  let result := fold_left Math_min prices least in
  PrimFloat.is_nan result = false /\
  (result = least \/ result ∈ prices) /\
  fle result least /\ forall p, p ∈ prices -> fle result p.
Proof.
  revert least. induction prices as [|x prices IH]; intros least Hl Hall; simpl.
  - split; [exact Hl|]. split; [left; reflexivity|].
    split; [apply fle_refl, Hl|]. intros p Hp. inversion Hp.
  - inversion Hall as [|? ? Hx Hrest]; subst.
    destruct (Math_min_cases least x Hl Hx) as (Hcase & Hle1 & Hle2).
    assert (PrimFloat.is_nan (Math_min least x) = false) as Hm
      by (destruct Hcase as [-> | ->]; assumption).
    destruct (IH (Math_min least x) Hm Hrest) as (Hn & Hin & Hle & Hall').
    split; [exact Hn|]. split; [|split].
    + destruct Hin as [-> | Hin]; [|right; right; exact Hin].
      destruct Hcase as [-> | ->]; [left; reflexivity|right; left].
    + eapply fle_trans; eassumption.
    + intros p Hp. apply elem_of_cons in Hp as [-> | Hp]; [|apply Hall', Hp].
      eapply fle_trans; eassumption.
Qed.

Lemma fold_Math_max (prices : list float) (greatest : float) :
  PrimFloat.is_nan greatest = false ->
  Forall (fun p => PrimFloat.is_nan p = false) prices ->
  let result := fold_left Math_max prices greatest in
  PrimFloat.is_nan result = false /\
  (result = greatest \/ result ∈ prices) /\
  fle greatest result /\ forall p, p ∈ prices -> fle p result.
Proof.
  revert greatest. induction prices as [|x prices IH]; intros greatest Hl Hall; simpl.
  - split; [exact Hl|]. split; [left; reflexivity|].
    split; [apply fle_refl, Hl|]. intros p Hp. inversion Hp.
  - inversion Hall as [|? ? Hx Hrest]; subst.
    destruct (Math_max_cases greatest x Hl Hx) as (Hcase & Hle1 & Hle2).
    assert (PrimFloat.is_nan (Math_max greatest x) = false) as Hm
      by (destruct Hcase as [-> | ->]; assumption).
    destruct (IH (Math_max greatest x) Hm Hrest) as (Hn & Hin & Hle & Hall').
    split; [exact Hn|]. split; [|split].
    + destruct Hin as [-> | Hin]; [|right; right; exact Hin].
      destruct Hcase as [-> | ->]; [left; reflexivity|right; left].
    + eapply fle_trans; eassumption.
    + intros p Hp. apply elem_of_cons in Hp as [-> | Hp]; [|apply Hall', Hp].
      eapply fle_trans; eassumption.
Qed.

(** The least and the greatest of a non-empty list of numbers. *)
Lemma Math_min_of_least (prices : list float) :
  prices <> [] -> Forall (fun p => PrimFloat.is_nan p = false) prices ->
  Math_min_of prices ∈ prices /\ forall p, p ∈ prices -> fle (Math_min_of prices) p.
Proof.
  destruct prices as [|x prices]; [congruence|]. intros _ Hall.
  inversion Hall as [|? ? Hx Hrest]; subst.
  unfold Math_min_of. simpl. rewrite (Math_min_infinity x Hx).
  destruct (fold_Math_min prices x Hx Hrest) as (_ & Hin & Hle & Hall').
  split.
  - destruct Hin as [-> | Hin]; [left|right; exact Hin].
  - intros p Hp. apply elem_of_cons in Hp as [-> | Hp]; [exact Hle|apply Hall', Hp].
Qed.

Lemma Math_max_of_greatest (prices : list float) :
  prices <> [] -> Forall (fun p => PrimFloat.is_nan p = false) prices ->
  Math_max_of prices ∈ prices /\ forall p, p ∈ prices -> fle p (Math_max_of prices).
Proof.
  destruct prices as [|x prices]; [congruence|]. intros _ Hall.
  inversion Hall as [|? ? Hx Hrest]; subst.
  unfold Math_max_of. simpl. rewrite (Math_max_neg_infinity x Hx).
  destruct (fold_Math_max prices x Hx Hrest) as (_ & Hin & Hle & Hall').
  split.
  - destruct Hin as [-> | Hin]; [left|right; exact Hin].
  - intros p Hp. apply elem_of_cons in Hp as [-> | Hp]; [exact Hle|apply Hall', Hp].
Qed.

(** The price of an order in tokens. *)
Definition priceOf (priceWei : Z) : float := (numberOfBigInt priceWei / 1e18)%float.

Lemma elem_of_convertPrices (orders : list Order) (prices : list float) (p : float) :
  convertPrices orders = inr prices ->
  p ∈ prices <->
  exists priceWei, {| current_price := PriceWei priceWei |} ∈ orders /\ p = priceOf priceWei.
Proof.
  revert prices. induction orders as [|[price] orders IH]; intros prices Hc; simpl in Hc.
  - injection Hc as <-. split; [intros H; inversion H|].
    intros (w & H & _). inversion H.
  - destruct price as [|priceWei|message]; [| |discriminate].
    + rewrite (IH prices Hc). split; intros (w & Hin & Hp); exists w.
      * split; [right; exact Hin|exact Hp].
      * split; [|exact Hp]. apply elem_of_cons in Hin as [Hin|Hin]; [discriminate|exact Hin].
    + destruct (convertPrices orders) as [message|rest]; [discriminate|].
      injection Hc as <-. rewrite elem_of_cons, (IH rest eq_refl). split.
      * intros [-> | (w & Hin & Hp)];
          [exists priceWei; split; [left|reflexivity]
          |exists w; split; [right; exact Hin|exact Hp]].
      * intros (w & Hin & Hp). apply elem_of_cons in Hin as [Hin|Hin].
        -- left. injection Hin as ->. exact Hp.
        -- right. exists w. split; assumption.
Qed.

(** The prices the range is taken over: those of the orders that are
    positive. *)
Lemma elem_of_extractPrices (orders : list Order) (prices : list float) (p : float) :
  extractPrices orders = inr prices ->
  p ∈ prices <->
  positive p /\
  exists priceWei, {| current_price := PriceWei priceWei |} ∈ orders /\ p = priceOf priceWei.
Proof.
  unfold extractPrices. destruct (convertPrices orders) as [message|all] eqn:Hc;
    [discriminate|].
  intros [= <-]. rewrite MatchFacts.filter_elem, (elem_of_convertPrices orders all p Hc).
  unfold positive, gtb. tauto.
Qed.

(** The bounds the code takes from a list of prices. *)
Lemma price_range (orders : list Order) (prices : list float) :
  extractPrices orders = inr prices -> prices <> [] ->
  let lo := Math_min_of prices in
  let hi := Math_max_of prices in
  positive lo /\ fle lo hi /\
  (exists priceWei, {| current_price := PriceWei priceWei |} ∈ orders /\
                    lo = priceOf priceWei) /\
  (exists priceWei, {| current_price := PriceWei priceWei |} ∈ orders /\
                    hi = priceOf priceWei) /\
  (forall priceWei,
     {| current_price := PriceWei priceWei |} ∈ orders -> positive (priceOf priceWei) ->
     fle lo (priceOf priceWei) /\ fle (priceOf priceWei) hi).
Proof.
  intros He Hne. cbv zeta.
  assert (Forall (fun p => PrimFloat.is_nan p = false) prices) as Hall.
  { apply Forall_forall. intros p Hp.
    apply (elem_of_extractPrices orders prices p He) in Hp as [Hp _].
    apply positive_not_nan, Hp. }
  destruct (Math_min_of_least prices Hne Hall) as [Hlo Hleast].
  destruct (Math_max_of_greatest prices Hne Hall) as [Hhi Hgreatest].
  pose proof (proj1 (elem_of_extractPrices orders prices _ He) Hlo) as [Hpos Hlow].
  pose proof (proj1 (elem_of_extractPrices orders prices _ He) Hhi) as [_ Hhiw].
  split; [exact Hpos|]. split; [apply Hleast, Hhi|].
  split; [exact Hlow|]. split; [exact Hhiw|].
  intros w Hin Hp.
  assert (priceOf w ∈ prices) as Hmem.
  { apply (elem_of_extractPrices orders prices _ He). split; [exact Hp|]. eauto. }
  split; [apply Hleast, Hmem|apply Hgreatest, Hmem].
Qed.

(** [lo .. hi] is the range of the positive prices of [orders]. *)
Definition rangeOf (orders : list Order) (lo hi : float) : Prop :=
  positive lo /\ fle lo hi /\
  (exists priceWei, {| current_price := PriceWei priceWei |} ∈ orders /\
                    lo = priceOf priceWei) /\
  (exists priceWei, {| current_price := PriceWei priceWei |} ∈ orders /\
                    hi = priceOf priceWei) /\
  (forall priceWei,
     {| current_price := PriceWei priceWei |} ∈ orders -> positive (priceOf priceWei) ->
     fle lo (priceOf priceWei) /\ fle (priceOf priceWei) hi).

Definition routeReportsRange (contract tokenId : option string) (upstream : Upstream)
  : Prop :=
  let response := body (GET contract tokenId upstream) in
  match body_lowest response, body_highest response with
  | Some lo, Some hi =>
      body_error response = None /\
      exists orders, upstream = UpstreamOrders orders /\ rangeOf orders lo hi
  | None, None =>
      forall orders,
        upstream = UpstreamOrders orders ->
        falsy contract = false -> falsy tokenId = false ->
        (exists message, {| current_price := PriceMalformed message |} ∈ orders) \/
        (forall priceWei, {| current_price := PriceWei priceWei |} ∈ orders ->
                          ~ positive (priceOf priceWei))
  | _, _ => False
  end.

Definition serviceReportsRange (orders : list Order) (listings : Listings) : Prop :=
  match lowest listings, highest listings with
  | Some lo, Some hi => listings_error listings = None /\ rangeOf orders lo hi
  | None, None => True
  | _, _ => False
  end.

Lemma GET_range contract tokenId upstream : routeReportsRange contract tokenId upstream.
Proof.
  unfold routeReportsRange. cbv zeta. unfold GET.
  destruct (falsy contract) eqn:Hc; simpl.
  { intros orders _ [=]. }
  destruct (falsy tokenId) eqn:Ht; simpl.
  { intros orders _ _ [=]. }
  destruct upstream as [|upstreamStatus|orders]; simpl.
  + intros orders [=].
  + intros orders [=].
  + destruct (List.length orders =? 0)%nat eqn:Hlen; simpl.
    { intros orders' [= <-] _ _. right. intros w Hin.
      apply Nat.eqb_eq, nil_length_inv in Hlen. subst orders. inversion Hin. }
    destruct (extractPrices orders) as [message|prices] eqn:He; simpl.
    { intros orders' [= <-] _ _. left. clear Hlen.
      unfold extractPrices in He.
      destruct (convertPrices orders) as [m|all] eqn:Hconv; [|discriminate].
      clear He. revert m Hconv.
      induction orders as [|[price] orders IH]; intros m Hconv; [discriminate|].
      simpl in Hconv. destruct price as [|w|m'].
      - destruct (IH m Hconv) as [m0 H0]. exists m0. right. exact H0.
      - destruct (convertPrices orders) as [m0|rest]; [|discriminate].
        destruct (IH m0 eq_refl) as [m1 H1]. exists m1. right. exact H1.
      - exists m'. left. }
    destruct prices as [|x prices]; simpl.
    { intros orders' [= <-] _ _. right. intros w Hin Hpos.
      assert (priceOf w ∈ []) as Hmem; [|inversion Hmem].
      apply (elem_of_extractPrices orders [] _ He). split; [exact Hpos|]. eauto. }
    split; [reflexivity|]. exists orders. split; [reflexivity|].
    apply (price_range orders (x :: prices) He). discriminate.
Qed.

Lemma getNFTListings_range failureCache now failedAt cleanupNow contractAddress tokenId
    chain orders :
  serviceReportsRange orders
    (getNFTListings failureCache now failedAt cleanupNow contractAddress tokenId chain
                    (DirectOrders orders)).1.
Proof.
  unfold serviceReportsRange, getNFTListings.
  destruct (getCachedFailure _ _ _) as [[cachedError|] cache]; simpl; [exact I|].
  destruct (List.length orders =? 0)%nat; simpl; [exact I|].
  destruct (extractPrices orders) as [message|prices] eqn:He; simpl; [exact I|].
  destruct prices as [|x prices]; simpl; [exact I|].
  split; [reflexivity|].
  apply (price_range orders (x :: prices) He). discriminate.
Qed.


(** *** The circuit breaker *)





End OpenSeaFacts.

(** ** Properties of the detail modal *)

Module ModalFacts.
Import JsNumber FloatOrder Position PositionFacts Marketplace Avalanche.
Import OpenSea OpenSeaFacts Modal.

(** *** No position without a marketplace match *)

(** The acquisition type the modal derives from a transfer history of the
    service is never [MINT]: the service leaves [transferredFrom] out for
    the zero address. *)
Lemma acquisitionType_of_history (provider : Provider)
    (gunTokenAddress : option string) (walletAddress : string) :
  let derived :=
    deriveAcquisition (getNFTTransferHistory provider gunTokenAddress walletAddress) in
  acquisitionType derived = if hasTransferData derived then TRANSFER else UNKNOWN.
Proof.
  cbv zeta. unfold deriveAcquisition.
  destruct (getNFTTransferHistory provider gunTokenAddress walletAddress)
    as [history|] eqn:Hh; simpl; [|reflexivity].
  destruct (transferredFrom history) as [a|] eqn:Ha; [|reflexivity].
  assert (String.eqb a ZERO_ADDRESS = false) as ->; [|reflexivity].
  revert Hh. unfold getNFTTransferHistory, getTransferEvents.
  destruct (transferLogs provider) as [logs|] eqn:Hlogs; simpl; [|discriminate].
  destruct (List.length (map parseLog (sortLogs logs)) =? 0)%nat eqn:Hlen;
    [intros [= <-]; discriminate|].
  destruct (List.filter _ (map parseLog (sortLogs logs)))
    as [|firstIncoming others] eqn:Hfilter; [intros [= <-]; discriminate|].
  intros Hh.
  eapply (AvalancheFacts.getNFTTransferHistory_incoming provider gunTokenAddress
            walletAddress logs firstIncoming others history Hlogs Hfilter); [|exact Ha].
  unfold getNFTTransferHistory, getTransferEvents. rewrite Hlogs. simpl.
  rewrite Hlen, Hfilter. exact Hh.
Qed.

Lemma label_without_cost_basis (acquisition : Nullable float) (low high : Nullable float) :
  validAcquisition acquisition = false ->
  let label := getPositionLabel {| acquisitionPriceGun := acquisition;
                                   priceLow := low; priceHigh := high |} in
  (state label = NO_COST_BASIS \/ state label = NO_MARKET_REF) /\
  pnlGun label = None /\ pnlPct label = None.
Proof.
  intros Hv. cbv zeta. unfold getPositionLabel. simpl. rewrite Hv. simpl.
  destruct (hasBound low), (hasBound high); simpl; auto.
Qed.

(** X13. The position of a token is computed from a marketplace match and
    from nothing else.  Whatever the chain and the marketplace answer, the
    acquisition object [loadItemDetails] builds has a purchase price only
    when step 3 matched a purchase, and it is that purchase's price, never
    the payment found on chain; without a match the label is
    NO_COST_BASIS or NO_MARKET_REF and carries no profit or loss; and
    [isFreeTransfer] says exactly that there is transfer data and no match. *)
Theorem position_needs_a_marketplace_match (provider : Provider)
    (gunTokenAddress : option string) (service : Reconcile.MarketplaceService)
    (tokenKey walletAddress : string) (historicalPrice : option float)
    (listingsData : option ListingsData) :
  let transferHistory := getNFTTransferHistory provider gunTokenAddress walletAddress in
  let derived := deriveAcquisition transferHistory in
  let matched :=
    Reconcile.matchedPurchase
      (Reconcile.matchMarketplace service tokenKey walletAddress
         (transferHistory ≫= (fun h => currentOwner (debugInfo h)))
         (hasTransferData derived) (acquiredAt derived)) in
  let acquisition :=
    loadAcquisition provider gunTokenAddress service tokenKey walletAddress
                    historicalPrice in
  let label := getPositionLabel (positionInput (Some acquisition) listingsData) in
  data_purchasePriceGun acquisition = nullable (priceGun <$> matched) /\
  (matched = None ->
     (state label = NO_COST_BASIS \/ state label = NO_MARKET_REF) /\
     pnlGun label = None /\ pnlPct label = None) /\
  (forall purchase, matched = Some purchase ->
     acquisitionSource acquisition = sourceMarketplace /\
     acquisitionPriceGun (positionInput (Some acquisition) listingsData)
     = JsVal (priceGun purchase)) /\
  (data_isFreeTransfer acquisition = Some true <->
   hasTransferData derived = true /\ matched = None).
Proof.
  cbv zeta. unfold loadAcquisition.
  pose proof (acquisitionType_of_history provider gunTokenAddress walletAddress) as Htype.
  cbv zeta in Htype.
  set (derived := deriveAcquisition
                    (getNFTTransferHistory provider gunTokenAddress walletAddress)) in *.
  set (matched := Reconcile.matchedPurchase _).
  clearbody matched. clearbody derived.
  unfold freshAcquisition, positionInput.
  destruct matched as [purchase|]; cbn [fmap option_fmap option_map negb nullable
    data_purchasePriceGun data_isFreeTransfer acquisitionSource default
    Position.acquisitionPriceGun mbind option_bind].
  - rewrite andb_false_r. split; [reflexivity|]. split; [discriminate|]. split.
    + intros p [= <-]. split; reflexivity.
    + split; [discriminate|]. intros [_ [=]].
  - rewrite andb_true_r. split; [reflexivity|]. split; [|split].
    + intros _.
      destruct (hasTransferData derived && isTRANSFER (acquisitionType derived));
        apply label_without_cost_basis; reflexivity.
    + intros p [=].
    + rewrite Htype. destruct (hasTransferData derived); simpl;
        intuition congruence.
Qed.

(** *** The value header and the label *)

Lemma eqb_iff (a b : float) :
  (a =? b)%float = true <-> exists x, rank a = Some x /\ rank b = Some x.
Proof.
  rewrite FloatAxioms.eqb_spec. unfold SFeqb, rank.
  destruct (SFcompare (Prim2SF a) (Prim2SF b)) as [c|] eqn:E.
  - destruct c.
    + apply SFcompare_Eq in E. tauto.
    + split; [discriminate|]. intros H. apply SFcompare_Eq in H. congruence.
    + split; [discriminate|]. intros H. apply SFcompare_Eq in H. congruence.
  - split; [discriminate|]. intros H. apply SFcompare_Eq in H. congruence.
Qed.

Lemma positive_not_zero (x : float) : positive x -> (x =? 0)%float = false.
Proof.
  unfold positive. intros H. destruct (x =? 0)%float eqn:E; [|reflexivity].
  apply eqb_iff in E as (r & Hx & H0). apply ltb_iff in H.
  rewrite Hx, H0 in H. destruct r as [[a b] c]. simpl in H. lia.
Qed.

Lemma positive_hasBound (x : float) : positive x -> hasBound (JsVal x) = true.
Proof.
  intros H. unfold hasBound, notNull, notUndefined, ToNumber, isNaN.
  rewrite (positive_not_nan x H). cbn [negb andb].
  unfold positive in H. float_order.
Qed.

(** The bounds of the listings are positive numbers where they are set. *)
Definition positiveBounds (listings : Listings) : Prop :=
  (forall lo, lowest listings = Some lo -> positive lo) /\
  (forall hi, highest listings = Some hi -> positive hi).

(** The value of the header and the market reference of the label are the
    same number. *)
Definition headerAgreesWithLabel (listings : Listings) : Prop :=
  forall currentPurchaseData floorPrice ceilingPrice currentGunPrice,
    let listingsData := listingsDataOf listings in
    let label := getPositionLabel (positionInput currentPurchaseData (Some listingsData)) in
    let reference :=
      getMarketReference (Some listingsData) floorPrice ceilingPrice
                         currentPurchaseData currentGunPrice in
    marketRefGun label = average listingsData /\
    (state label = NO_MARKET_REF <-> average listingsData = None) /\
    (average listingsData <> None -> gunValue reference = marketRefGun label).

Lemma positiveBounds_agree (listings : Listings) :
  positiveBounds listings -> headerAgreesWithLabel listings.
Proof.
  intros [Hlo Hhi] purchase floorPrice ceilingPrice gunPrice. cbv zeta.
  unfold listingsDataOf, getMarketReference, positionInput, getPositionLabel. simpl.
  destruct (lowest listings) as [lo|] eqn:El, (highest listings) as [hi|] eqn:Eh; simpl.
  - rewrite (positive_hasBound lo (Hlo lo eq_refl)),
            (positive_hasBound hi (Hhi hi eq_refl)). simpl.
    destruct (negb (validAcquisition _)); simpl;
      (split; [reflexivity|]; split; [|intros _; reflexivity]);
      (split; [|discriminate]); repeat case_match; discriminate.
  - rewrite (positive_hasBound lo (Hlo lo eq_refl)). simpl.
    destruct (negb (validAcquisition _)); simpl;
      (split; [reflexivity|]; split; [|intros _; reflexivity]);
      (split; [|discriminate]); repeat case_match; discriminate.
  - rewrite (positive_hasBound hi (Hhi hi eq_refl)). simpl.
    destruct (negb (validAcquisition _)); simpl;
      (split; [reflexivity|]; split; [|intros _; reflexivity]);
      (split; [|discriminate]); repeat case_match; discriminate.
  - split; [reflexivity|]. split; [split; reflexivity|]. congruence.
Qed.

Lemma rangeOf_positive orders lo hi : rangeOf orders lo hi -> positive lo /\ positive hi.
Proof.
  intros (Hlo & Hle & _). split; [exact Hlo|].
  unfold positive, fle in *. float_order.
Qed.

Lemma jsonNumber_positive (x y : float) :
  positive x -> jsonNumber x = Some y -> positive y.
Proof.
  intros Hx. unfold jsonNumber.
  destruct (PrimFloat.is_nan x || PrimFloat.is_infinity x); [discriminate|].
  rewrite (positive_not_zero x Hx). intros [= <-]. exact Hx.
Qed.

Lemma getNFTListings_direct_positive failureCache now failedAt cleanupNow
    contractAddress tokenId chain orders :
  positiveBounds
    (getNFTListings failureCache now failedAt cleanupNow contractAddress tokenId chain
                    (DirectOrders orders)).1.
Proof.
  pose proof (getNFTListings_range failureCache now failedAt cleanupNow contractAddress
                tokenId chain orders) as H.
  unfold serviceReportsRange in H. unfold positiveBounds.
  destruct (lowest _) as [lo|], (highest _) as [hi|]; try contradiction;
    [|split; discriminate].
  destruct H as [_ H]. apply rangeOf_positive in H as [H1 H2].
  split; intros ? [= <-]; assumption.
Qed.

Lemma getNFTListings_route_positive failureCache now failedAt cleanupNow
    contractAddress tokenId chain contract token upstream :
  positiveBounds
    (getNFTListings failureCache now failedAt cleanupNow contractAddress tokenId chain
                    (fetchRoute (GET contract token upstream))).1.
Proof.
  pose proof (GET_range contract token upstream) as H.
  unfold routeReportsRange in H. cbv zeta in H.
  unfold getNFTListings, fetchRoute.
  destruct (getCachedFailure _ _ _) as [[cachedError|] cache]; simpl;
    [split; discriminate|].
  destruct ((200 <=? status _) && (status _ <=? 299)); simpl; [|split; discriminate].
  set (response := body (GET contract token upstream)) in *.
  assert (positiveBounds
            {| lowest := body_lowest response ≫= jsonNumber;
               highest := body_highest response ≫= jsonNumber;
               listings_error := None |}) as [H1 H2].
  { destruct (body_lowest response) as [lo|], (body_highest response) as [hi|];
      try contradiction; [|split; discriminate].
    destruct H as [_ (orders & _ & H)]. apply rangeOf_positive in H as [Hlo Hhi].
    split; cbn [lowest highest mbind option_bind]; intros y Hy;
      (eapply jsonNumber_positive; [|exact Hy]; assumption). }
  destruct (negb (falsy (body_error response))); simpl; split; assumption.
Qed.

(** X15. For every answer of OpenSea, on the server and through the API
    route in the browser, the value the header shows for the listings and
    the market reference of the position label are the same number: the
    midpoint of [lowest] and [highest], or the one bound that is set; and
    the label is NO_MARKET_REF exactly when the listings give no value.
    Bounds that are not positive would break the agreement. *)
Theorem header_value_is_the_label_reference :
  (forall failureCache now failedAt cleanupNow contractAddress tokenId chain orders,
     headerAgreesWithLabel
       (getNFTListings failureCache now failedAt cleanupNow contractAddress tokenId
                       chain (DirectOrders orders)).1) /\
  (forall failureCache now failedAt cleanupNow contractAddress tokenId chain
          contract token upstream,
     headerAgreesWithLabel
       (getNFTListings failureCache now failedAt cleanupNow contractAddress tokenId
                       chain (fetchRoute (GET contract token upstream))).1) /\
  ~ headerAgreesWithLabel
      {| lowest := Some (-1)%float; highest := Some 3%float; listings_error := None |}.
Proof.
  split; [|split].
  - intros. apply positiveBounds_agree, getNFTListings_direct_positive.
  - intros. apply positiveBounds_agree, getNFTListings_route_positive.
  - intros H. destruct (H None None None None) as [H1 _].
    vm_compute in H1. discriminate.
Qed.

(** *** The range bar *)

Lemma rank_two : rank 2 = Some (1, -51, 4503599627370496).
Proof. vm_compute. reflexivity. Qed.

Lemma rank_ninety_eight : rank 98 = Some (1, -46, 6896136929411072).
Proof. vm_compute. reflexivity. Qed.

(** X14. A marker of the range bar sits at 50% when the two ends of the
    range are equal, and otherwise between 2% and 98%, unless the position
    computed from the value is no number, and then the marker's is none
    either. *)
Theorem getPositionOnRange_is_clamped (value low high : float) :
  let position := (((value - low) / (high - low)) * 100)%float in
  let marker := getPositionOnRange value low high in
  ((high =? low)%float = true /\ marker = 50%float) \/
  ((high =? low)%float = false /\
   ((isNaN position = true /\ isNaN marker = true) \/
    (isNaN position = false /\ (2 <=? marker)%float = true /\
     (marker <=? 98)%float = true /\
     (marker = position \/ marker = 2%float \/ marker = 98%float)))).
Proof.
  cbv zeta. unfold getPositionOnRange.
  destruct (high =? low)%float; [left; split; reflexivity|]. right.
  split; [reflexivity|].
  set (position := (((value - low) / (high - low)) * 100)%float).
  destruct (isNaN position) eqn:Hnan; unfold isNaN in Hnan.
  - left. split; [reflexivity|].
    unfold Math_min. rewrite Hnan, orb_true_r. reflexivity.
  - right. split; [reflexivity|].
    assert (PrimFloat.is_nan 98 = false) as H98 by reflexivity.
    assert (PrimFloat.is_nan 2 = false) as H2 by reflexivity.
    destruct (Math_min_cases 98 position H98 Hnan) as (Hcase & Hle98 & Hlep).
    assert (PrimFloat.is_nan (Math_min 98 position) = false) as Hm
      by (destruct Hcase as [-> | ->]; assumption).
    destruct (Math_max_cases 2 (Math_min 98 position) H2 Hm) as (Hcase' & Hge2 & Hgem).
    split; [exact Hge2|]. split.
    + destruct Hcase' as [-> | ->]; [reflexivity|exact Hle98].
    + destruct Hcase' as [-> | ->]; [right; left; reflexivity|].
      destruct Hcase as [-> | ->]; [right; right; reflexivity|left; reflexivity].
Qed.

End ModalFacts.

(** ** Properties of the localStorage cache *)

Module NftCacheFacts.
Import NftCache.

(** *** Strings *)

Lemma prefix_app (part rest : string) : String.prefix part (part +:+ rest) = true.
Proof.
  induction part as [|c part IH]; simpl; [destruct rest; reflexivity|].
  destruct (ascii_dec c c) as [_|Hne]; [exact IH|destruct Hne; reflexivity].
Qed.

Lemma includes_prefix (part s : string) :
  String.prefix part s = true -> includes part s = true.
Proof. intros H. destruct s; cbn [includes]; rewrite H; reflexivity. Qed.

Lemma includes_app (before part rest : string) :
  includes part (before +:+ part +:+ rest) = true.
Proof.
  induction before as [|c before IH].
  - change ("" +:+ part +:+ rest) with (part +:+ rest).
    apply includes_prefix, prefix_app.
  - change (String c before +:+ part +:+ rest)
      with (String c (before +:+ part +:+ rest)).
    cbn [includes]. rewrite IH. apply orb_true_r.
Qed.

(** No colon in the string. *)
Fixpoint colonFree (s : string) : Prop :=
  match s with
  | EmptyString => True
  | String c rest => c <> ":"%char /\ colonFree rest
  end.

(** A colon-free head is determined by the whole. *)
Lemma colon_split (a a' b b' : string) :
  colonFree a -> colonFree a' ->
  a +:+ ":" +:+ b = a' +:+ ":" +:+ b' -> a = a' /\ b = b'.
Proof.
  revert a'. induction a as [|c a IH]; intros [|c' a'] Ha Ha' E.
  - change (String ":" b = String ":" b') in E. injection E as ->. auto.
  - change (String ":" b = String c' (a' +:+ ":" +:+ b')) in E.
    injection E as <- _. destruct Ha' as [Hne _]. destruct Hne. reflexivity.
  - change (String c (a +:+ ":" +:+ b) = String ":" b') in E.
    injection E as -> _. destruct Ha as [Hne _]. destruct Hne. reflexivity.
  - change (String c (a +:+ ":" +:+ b) = String c' (a' +:+ ":" +:+ b')) in E.
    injection E as -> E. destruct Ha as [_ Ha], Ha' as [_ Ha'].
    destruct (IH a' Ha Ha' E) as [-> ->]. auto.
Qed.

Lemma append_inj_l (p s s' : string) : p +:+ s = p +:+ s' -> s = s'.
Proof.
  induction p as [|c p IH]; intros E; [exact E|].
  change (String c (p +:+ s) = String c (p +:+ s')) in E.
  injection E as E. auto.
Qed.

(** The detail keys of two wallets without a colon coincide only for the
    same wallet, up to letter case, and the same token key. *)
Lemma buildNftDetailCacheKey_inj (wallet wallet' tokenKey tokenKey' : string) :
  colonFree (JsString.toLowerCase wallet) -> colonFree (JsString.toLowerCase wallet') ->
  buildNftDetailCacheKey wallet tokenKey = buildNftDetailCacheKey wallet' tokenKey' ->
  JsString.toLowerCase wallet = JsString.toLowerCase wallet' /\ tokenKey = tokenKey'.
Proof.
  intros Hw Hw' E. unfold buildNftDetailCacheKey in E.
  apply (append_inj_l CACHE_NAMESPACE) in E.
  apply (append_inj_l ":nft:detail:") in E.
  apply (append_inj_l SCHEMA_VERSION_nftDetail) in E.
  apply (append_inj_l ":") in E.
  apply colon_split in E; assumption.
Qed.

Section Cache.

Variable T : Type.
Variable json : T -> T.

Lemma cacheGet_after_cacheSet (localStorage : gmap string (Item T)) (now later : Z)
    (fullKey schemaVersion : string) (value : T) (ttlSeconds : Z) :
  let stored := cacheSet T json true true localStorage now fullKey schemaVersion
                         value ttlSeconds in
  cacheGet T true stored later fullKey schemaVersion =
  if now + ttlSeconds * 1000 <? later
  then (miss T fullKey expired, delete fullKey stored)
  else ({| hit := true; value := Some (json value); cacheKey := fullKey;
           reason := None |}, stored).
Proof.
  cbv zeta. unfold cacheGet, cacheSet. cbn [negb]. rewrite lookup_insert_eq.
  rewrite bool_decide_eq_true_2 by reflexivity. cbn [negb].
  destruct (now + ttlSeconds * 1000 <? later); reflexivity.
Qed.

Lemma cacheGet_absent (localStorage : gmap string (Item T)) (now : Z)
    (fullKey expectedVersion : string) :
  localStorage !! fullKey = None ->
  cacheGet T true localStorage now fullKey expectedVersion
  = (miss T fullKey not_found, localStorage).
Proof. intros H. unfold cacheGet. cbn [negb]. rewrite H. reflexivity. Qed.

End Cache.

(** X16. What [setCachedNFTDetail] stores for a wallet and a token key,
    [getCachedNFTDetail] returns for the same token key and the same
    wallet in any letter case, as JSON conveys it, until [ttlSeconds] have
    passed; after that the first read reports 'expired' and removes the
    entry, and the reads that follow report 'not_found'. *)
Theorem detail_cache_round_trip (T : Type) (json : T -> T) (localStorage : gmap string (Item T))
    (now later afterwards ttlSeconds : Z) (walletAddress walletAddress' tokenKey : string)
    (data : T) :
  JsString.toLowerCase walletAddress' = JsString.toLowerCase walletAddress ->
  let fullKey := buildNftDetailCacheKey walletAddress tokenKey in
  let stored := setCachedNFTDetail T json true true localStorage now walletAddress
                                   tokenKey data ttlSeconds in
  let read := getCachedNFTDetail T true stored later walletAddress' tokenKey in
  (later <= now + ttlSeconds * 1000 ->
   read = ({| hit := true; value := Some (json data); cacheKey := fullKey;
              reason := None |}, stored)) /\
  (now + ttlSeconds * 1000 < later ->
   read.1 = miss T fullKey expired /\
   (getCachedNFTDetail T true read.2 afterwards walletAddress' tokenKey).1
   = miss T fullKey not_found).
Proof.
  intros Hcase. cbv zeta. unfold getCachedNFTDetail, setCachedNFTDetail.
  assert (buildNftDetailCacheKey walletAddress' tokenKey
          = buildNftDetailCacheKey walletAddress tokenKey) as ->
    by (unfold buildNftDetailCacheKey; rewrite Hcase; reflexivity).
  rewrite cacheGet_after_cacheSet. split; intros Hlater.
  - assert ((now + ttlSeconds * 1000 <? later) = false) as -> by (apply Z.ltb_ge; lia).
    reflexivity.
  - assert ((now + ttlSeconds * 1000 <? later) = true) as -> by (apply Z.ltb_lt; lia).
    split; [reflexivity|]. simpl.
    rewrite cacheGet_absent; [reflexivity|]. apply lookup_delete_eq.
Qed.

Lemma detail_cache_witness :
  let fullKey := buildNftDetailCacheKey "0xA11CE" "avalanche:0xabc:7" in
  let stored := setCachedNFTDetail Z id true true ∅ 1000 "0xA11CE" "avalanche:0xabc:7"
                                   42 DEFAULT_TTL_SECONDS in
  let read := getCachedNFTDetail Z true stored 5000 "0xa11ce" "avalanche:0xabc:7" in
  (5000 <= 1000 + DEFAULT_TTL_SECONDS * 1000 ->
   read = ({| hit := true; value := Some (id 42); cacheKey := fullKey;
              reason := None |}, stored)) /\
  (1000 + DEFAULT_TTL_SECONDS * 1000 < 5000 ->
   read.1 = miss Z fullKey expired /\
   (getCachedNFTDetail Z true read.2 6000 "0xa11ce" "avalanche:0xabc:7").1
   = miss Z fullKey not_found).
Proof.
  apply (detail_cache_round_trip Z id ∅ 1000 5000 6000 DEFAULT_TTL_SECONDS
           "0xA11CE" "0xa11ce" "avalanche:0xabc:7" 42).
  reflexivity.
Defined.

(** X17. Entries of the detail cache do not interfere: for wallets whose
    address has no colon, storing the data of one wallet and token key
    leaves what is read for another wallet (up to letter case) or another
    token key as it was. *)
Theorem detail_cache_entries_are_separate (T : Type) (json : T -> T)
    (localStorage : gmap string (Item T)) (now later ttlSeconds : Z)
    (walletAddress walletAddress' tokenKey tokenKey' : string) (data : T) :
  colonFree (JsString.toLowerCase walletAddress) ->
  colonFree (JsString.toLowerCase walletAddress') ->
  JsString.toLowerCase walletAddress <> JsString.toLowerCase walletAddress'
  \/ tokenKey <> tokenKey' ->
  let stored := setCachedNFTDetail T json true true localStorage now walletAddress
                                   tokenKey data ttlSeconds in
  (getCachedNFTDetail T true stored later walletAddress' tokenKey').1
  = (getCachedNFTDetail T true localStorage later walletAddress' tokenKey').1.
Proof.
  intros Hw Hw' Hne. cbv zeta.
  unfold getCachedNFTDetail, setCachedNFTDetail, cacheGet, cacheSet. cbn [negb].
  rewrite lookup_insert_ne.
  - destruct (localStorage !! buildNftDetailCacheKey walletAddress' tokenKey')
      as [[| |version cached expiresAt]|]; try reflexivity.
    destruct (negb (bool_decide (version = Some SCHEMA_VERSION_nftDetail)));
      [reflexivity|].
    destruct expiresAt as [expiresAt|]; [|reflexivity].
    destruct (expiresAt <? later); reflexivity.
  - intros E. apply buildNftDetailCacheKey_inj in E as [E1 E2]; [|assumption..].
    destruct Hne as [Hne|Hne]; contradiction.
Qed.

Lemma detail_cache_separate_witness :
  let stored := setCachedNFTDetail Z id true true ∅ 1000 "0xA11CE" "avalanche:0xabc:7"
                                   42 DEFAULT_TTL_SECONDS in
  (getCachedNFTDetail Z true stored 5000 "0xA11CE" "avalanche:0xabc:8").1
  = (getCachedNFTDetail Z true ∅ 5000 "0xA11CE" "avalanche:0xabc:8").1.
Proof.
  apply (detail_cache_entries_are_separate Z id ∅ 1000 5000 DEFAULT_TTL_SECONDS
           "0xA11CE" "0xA11CE" "avalanche:0xabc:7" "avalanche:0xabc:8" 42).
  - vm_compute. repeat split; discriminate.
  - vm_compute. repeat split; discriminate.
  - right. discriminate.
Defined.

(** X18. After [clearWalletCache] for a wallet, the detail cache and the
    transfers cache report 'not_found' for that wallet, in any letter case
    and for every token key, and the wallet's legacy entry is gone; the
    entries whose key does not start with 'zillascope:nft:', the price
    cache among them, stay as they were. *)
Theorem clearWalletCache_clears_the_wallet (T : Type) (localStorage : gmap string (Item T))
    (now : Z) (walletAddress walletAddress' : string) :
  let cleared := clearWalletCache T true localStorage walletAddress in
  (forall tokenKey,
     JsString.toLowerCase walletAddress' = JsString.toLowerCase walletAddress ->
     getCachedNFTDetail T true cleared now walletAddress' tokenKey
     = (miss T (buildNftDetailCacheKey walletAddress' tokenKey) not_found, cleared) /\
     getCachedTransfers T true cleared now walletAddress' tokenKey
     = (miss T (buildTransfersCacheKey walletAddress' tokenKey) not_found, cleared)) /\
  cleared !! (LEGACY_CACHE_KEY_PREFIX +:+ JsString.toLowerCase walletAddress) = None /\
  (forall key,
     startsWith (CACHE_NAMESPACE +:+ ":nft:") key = false ->
     key <> LEGACY_CACHE_KEY_PREFIX +:+ JsString.toLowerCase walletAddress ->
     cleared !! key = localStorage !! key).
Proof.
  cbv zeta. unfold clearWalletCache. simpl negb. cbv iota.
  set (walletLower := JsString.toLowerCase walletAddress).
  set (legacyKey := LEGACY_CACHE_KEY_PREFIX +:+ walletLower).
  assert (forall key,
            startsWith (CACHE_NAMESPACE +:+ ":nft:") key = true ->
            includes walletLower key = true ->
            delete legacyKey
              (filter (fun item : string * Item T =>
                         ~ (startsWith (CACHE_NAMESPACE +:+ ":nft:") item.1
                            && includes walletLower item.1)) localStorage) !! key
            = None) as Hgone.
  { intros key Hp Hi. destruct (decide (key = legacyKey)) as [->|Hne];
      [apply lookup_delete_eq|].
    rewrite lookup_delete_ne by congruence.
    apply map_lookup_filter_None. right. intros item _ Hkeep. apply Hkeep.
    simpl. rewrite Hp, Hi. exact I. }
  split; [|split].
  - intros tokenKey Hcase. split.
    + unfold getCachedNFTDetail. apply cacheGet_absent, Hgone.
      * reflexivity.
      * unfold buildNftDetailCacheKey. rewrite Hcase. fold walletLower.
        change (includes walletLower
                  ("zillascope:nft:detail:v3:" +:+ walletLower +:+ ":" +:+ tokenKey)
                = true).
        apply includes_app.
    + unfold getCachedTransfers. apply cacheGet_absent, Hgone.
      * reflexivity.
      * unfold buildTransfersCacheKey. rewrite Hcase. fold walletLower.
        change (includes walletLower
                  ("zillascope:nft:transfers:v2:" +:+ walletLower +:+ ":" +:+ tokenKey)
                = true).
        apply includes_app.
  - apply lookup_delete_eq.
  - intros key Hp Hne. rewrite lookup_delete_ne by congruence.
    destruct (localStorage !! key) as [item|] eqn:E.
    + apply map_lookup_filter_Some. split; [exact E|]. simpl. rewrite Hp. auto.
    + apply map_lookup_filter_None. left. exact E.
Qed.

End NftCacheFacts.

(** ** Where the transfer query starts *)

Module StartBlockFacts.
Import Avalanche AvalancheQuery NftCacheFacts.

Lemma pretty_N_char_colonFree (n : N) : pretty_N_char n <> ":"%char.
Proof. unfold pretty_N_char. repeat case_match; discriminate. Qed.

Lemma pretty_N_go_colonFree (x : N) (s : string) :
  colonFree s -> colonFree (pretty_N_go x s).
Proof.
  revert s. induction (N.lt_wf_0 x) as [x _ IH]; intros s Hs.
  destruct (decide (x = 0%N)) as [->|Hx]; [rewrite pretty_N_go_0; exact Hs|].
  assert (0 < x)%N as Hpos by (apply N.neq_0_lt_0; exact Hx).
  rewrite pretty_N_go_step by exact Hpos. apply IH.
  - apply N.div_lt; [exact Hpos|reflexivity].
  - split; [apply pretty_N_char_colonFree|exact Hs].
Qed.

Lemma pretty_N_colonFree (x : N) : colonFree (pretty x).
Proof.
  unfold pretty, pretty_N. destruct (decide (x = 0%N)); [repeat split; discriminate|].
  apply pretty_N_go_colonFree. exact I.
Qed.

Lemma integerToString_colonFree (n : Z) : colonFree (JsNumber.integerToString n).
Proof.
  unfold JsNumber.integerToString, pretty, pretty_Z. destruct n as [|p|p].
  - repeat split; discriminate.
  - apply (pretty_N_colonFree (N.pos p)).
  - change (colonFree (String "-" (pretty (N.pos p)))).
    split; [discriminate|apply (pretty_N_colonFree (N.pos p))].
Qed.

Lemma length_chunkStartsFrom (count : nat) (start chunkSize : Z) :
  List.length (chunkStartsFrom count start chunkSize) = count.
Proof.
  revert start. induction count as [|count IH]; intros start; simpl; [reflexivity|].
  rewrite IH. reflexivity.
Qed.

(** The contract of the deployment table. *)
Definition knownContract (chainId : Z) (contractAddress : string) : Prop :=
  chainId = 43419 /\
  JsString.toLowerCase contractAddress
  = "0x9ed98e159be43a8d42b64053831fcae5e4d7d271"%string.

Lemma DEPLOYMENT_START_BLOCKS_lookup (chainId : Z) (contractAddress : string) :
  DEPLOYMENT_START_BLOCKS
    !! (JsNumber.integerToString chainId +:+ ":" +:+ JsString.toLowerCase contractAddress)
  = if decide (knownContract chainId contractAddress) then Some 1000000 else None.
Proof.
  unfold DEPLOYMENT_START_BLOCKS.
  destruct (decide (knownContract chainId contractAddress)) as [[-> Hc]|Hn].
  - rewrite Hc. apply lookup_singleton_eq.
  - apply lookup_singleton_ne. intros E. apply Hn.
    change ("43419:0x9ed98e159be43a8d42b64053831fcae5e4d7d271"%string)
      with ("43419" +:+ ":" +:+ "0x9ed98e159be43a8d42b64053831fcae5e4d7d271")%string in E.
    symmetry in E. apply colon_split in E as [E1 E2].
    + split; [|exact E2].
      apply (inj (pretty (A := Z))). exact E1.
    + apply integerToString_colonFree.
    + repeat split; discriminate.
Qed.

(** X19. The transfer query of the collection on chain 43419, its address
    in any letter case, starts at block 1000000 whatever the current block
    is.  For every other contract it starts 7776000 blocks before the
    current block, and not before block 0: it then never lies after the
    current block, and the query covers the window with 78 chunks of
    100000 blocks at most. *)
Theorem getQueryStartBlock_window (chainId : Z) (contractAddress : string)
    (currentBlock : Z) :
  let fromBlock := getQueryStartBlock chainId contractAddress currentBlock in
  (knownContract chainId contractAddress -> fromBlock = 1000000) /\
  (~ knownContract chainId contractAddress ->
   fromBlock = Z.max 0 (currentBlock - 7776000) /\
   (0 <= currentBlock ->
    0 <= fromBlock <= currentBlock /\
    (List.length (chunkStarts fromBlock currentBlock DEFAULT_CHUNK_SIZE) <= 78)%nat)).
Proof.
  cbv zeta. unfold getQueryStartBlock. cbv zeta.
  rewrite DEPLOYMENT_START_BLOCKS_lookup.
  destruct (decide (knownContract chainId contractAddress)) as [Hk|Hn].
  - split; [reflexivity|]. intros Hn. contradiction.
  - split; [intros Hk; contradiction|]. intros _.
    change DEFAULT_LOOKBACK_BLOCKS with 7776000. split; [reflexivity|].
    intros Hcur. split; [lia|].
    unfold chunkStarts, DEFAULT_CHUNK_SIZE.
    destruct (Z.max 0 (currentBlock - 7776000) <=? currentBlock); simpl; [|lia].
    rewrite length_chunkStartsFrom.
    assert ((currentBlock - Z.max 0 (currentBlock - 7776000)) / 100000 < 78).
    { apply Z.div_lt_upper_bound; lia. }
    assert (0 <= (currentBlock - Z.max 0 (currentBlock - 7776000)) / 100000).
    { apply Z.div_pos; lia. }
    lia.
Qed.

End StartBlockFacts.

(** ** The position shown from the cache *)

Module CachedPositionFacts.
Import JsNumber FloatOrder Position PositionFacts Marketplace Avalanche.
Import OpenSea OpenSeaFacts Modal ModalFacts NftCache NftCacheFacts.






(** An infinite purchase price does not survive the cache: the stored
    acquisition is valued, the restored one has no cost basis. *)
Example infinite_price_is_lost_in_the_cache :
  let listings := Some {| data_lowest := Some 100%float; data_highest := Some 100%float;
                          average := Some 100%float |} in
  let fresh :=
    {| acquisitionSource := sourceMarketplace; data_acquiredAt := None;
       data_fromAddress := None; data_acquisitionType := None;
       data_purchasePriceGun := JsVal PrimFloat.infinity;
       data_purchasePriceUsd := JsUndefined; data_purchaseDate := None;
       marketplaceTxHash := None; data_transferredFrom := None;
       data_isFreeTransfer := Some false |} in
  let restored := restoredAcquisition (jsonDetail (cachedDetailOf fresh)) in
  state (getPositionLabel (positionInput (Some fresh) listings)) = DOWN /\
  state (getPositionLabel (positionInput (Some restored) listings)) = NO_COST_BASIS.
Proof. vm_compute. split; reflexivity. Qed.

End CachedPositionFacts.
